(** * CivicLens backend: role normalisation, issue classification and the
      issue record service, embedded from the JavaScript sources.

    - [Js]: the JavaScript values the handlers compute with (strings as
      sequences of UTF-16 code units, truthiness, [String(v)], [trim],
      [toLowerCase], property access).
    - [Json]: [JSON.parse].
    - [Auth]: [normalizeRole] of the authentication middleware.
    - [Gemini]: the prompt and [classifyIssue].
    - [Store]: the hosted table store the controller talks to.
    - [IssueController]: [createIssue], [updateStatus], [reassignIssue].
    - [Sample]: concrete worlds and requests to run the handlers on.
    - [Spec]: the properties in the words of the specification.
    - [Middleware]: [authenticate] and [authorize].
    - [Listing]: [getIssueById], [getMyIssues], [getAuthorityIssues],
      [getAllIssues].
    - [Router]: the nine routes, each behind its guards.
    - [Scenario]: requests in sequence, and more sample data.

    The lemmas follow the definitions, one part per component. *)

From Stdlib Require Import List NArith ZArith Bool String Ascii Lia.
From Stdlib Require Import DecimalString.
Import ListNotations.

Set Warnings "-register-all".

(* ================================================================== *)
(** * JavaScript values *)
(* ================================================================== *)

Module Js.

(** A JavaScript string is a sequence of 16-bit code units. *)
Definition jstring := list N.

(** The code units of a string literal of the sources (all ASCII). *)
Fixpoint str (s : string) : jstring :=
  match s with
  | EmptyString => []
  | String c r => N_of_ascii c :: str r
  end.

(** Source literals that contain double quotes are written with [~] in
    their place. *)
Definition strq (s : string) : jstring :=
  map (fun c => if N.eqb c 126 then 34%N else c) (str s).

Fixpoint jeqb (a b : jstring) : bool :=
  match a, b with
  | [], [] => true
  | x :: a', y :: b' => N.eqb x y && jeqb a' b'
  | _, _ => false
  end.

(** A number, kept as the decimal [mant * 10 ^ expo] it was written as.
    Of the rounding to IEEE doubles only the underflow to zero is
    modelled, where a number is parsed ([Json.number]). *)
Record num := { mant : Z; expo : Z }.

Definition int (z : Z) : num := {| mant := z; expo := 0 |}.

Inductive value :=
| JUndefined
| JNull
| JBool (b : bool)
| JNum (n : num)
| JStr (s : jstring)
| JArr (items : list value)
| JObj (props : list (jstring * value)).

Definition props := list (jstring * value).

(** [ToBoolean]: what [if (v)], [!v], [a || b] and [a && b] look at. *)
Definition truthy (v : value) : bool :=
  match v with
  | JUndefined | JNull => false
  | JBool b => b
  | JNum n => negb (Z.eqb (mant n) 0)
  | JStr s => match s with [] => false | _ :: _ => true end
  | JArr _ | JObj _ => true
  end.

(** [a || b] *)
Definition or_else (a b : value) : value := if truthy a then a else b.

(** Own property lookup in an object literal or a parsed object. *)
Fixpoint lookup (ps : props) (k : jstring) : value :=
  match ps with
  | [] => JUndefined
  | (k', v) :: r => if jeqb k' k then v else lookup r k
  end.

Fixpoint has_key (ps : props) (k : jstring) : bool :=
  match ps with
  | [] => false
  | (k', _) :: r => jeqb k' k || has_key r k
  end.

(** [o[k] = v]: replaces the value of an existing key in place, appends a
    new key. *)
Fixpoint set_prop (ps : props) (k : jstring) (v : value) : props :=
  match ps with
  | [] => [(k, v)]
  | (k', v') :: r => if jeqb k' k then (k', v) :: r else (k', v') :: set_prop r k v
  end.

(** No key is written twice in the literal. *)
Fixpoint distinct_keys (p : props) : bool :=
  match p with
  | [] => true
  | (k, _) :: r => negb (has_key r k) && distinct_keys r
  end.

(** [{...a, ...b}] on own properties. *)
Definition assign (a b : props) : props :=
  fold_left (fun acc kv => set_prop acc (fst kv) (snd kv)) b a.

(** [v.k] for a value that is not [null] or [undefined]: none of the keys
    the handlers read exists on a prototype, so anything but an object
    answers [undefined]. *)
Definition member (v : value) (k : jstring) : value :=
  match v with
  | JObj ps => lookup ps k
  | _ => JUndefined
  end.

Definition nullish (v : value) : bool :=
  match v with JUndefined | JNull => true | _ => false end.

(** [v?.k] *)
Definition opt_member (v : value) (k : jstring) : value :=
  if nullish v then JUndefined else member v k.

(** The own enumerable properties a spread [{...v}] copies. Arrays and
    strings would contribute their indices; the controller only spreads
    the classifier's result, which is always an object. *)
Definition own_props (v : value) : props :=
  match v with JObj ps => ps | _ => [] end.

(** ** Strings *)

(** [WhiteSpace] and [LineTerminator] code units, what [trim] strips. *)
Definition is_space (c : N) : bool :=
  ((9 <=? c) && (c <=? 13) || (c =? 32) || (c =? 160) || (c =? 5760)
   || (8192 <=? c) && (c <=? 8202) || (c =? 8232) || (c =? 8233)
   || (c =? 8239) || (c =? 8287) || (c =? 12288) || (c =? 65279))%N.

Fixpoint trimStart (s : jstring) : jstring :=
  match s with
  | [] => []
  | c :: r => if is_space c then trimStart r else s
  end.

Definition trimEnd (s : jstring) : jstring := rev (trimStart (rev s)).

Definition trim (s : jstring) : jstring := trimEnd (trimStart s).

(** Lower-casing of one code unit. Exact up to U+00FF, and for the five
    code units above whose lower-case form has a code unit up to U+00FF
    (dotted capital I, capital Y with diaeresis, capital sharp S, the
    Kelvin and Angstrom signs). Every other code unit is left as it is:
    its lower-case form lies above U+00FF as well, so it compares unequal
    to the same ASCII texts before and after. *)
Definition lower_unit (c : N) : jstring :=
  (if (65 <=? c) && (c <=? 90) then [c + 32]
   else if (192 <=? c) && (c <=? 222) && negb (c =? 215) then [c + 32]
   else if c =? 304 then [105; 775]
   else if c =? 376 then [255]
   else if c =? 7838 then [223]
   else if c =? 8490 then [107]
   else if c =? 8491 then [229]
   else [c])%N.

Definition toLowerCase (s : jstring) : jstring := flat_map lower_unit s.

(** The decimal digits of a natural number. *)
Definition digits_of (z : Z) : jstring :=
  str (NilZero.string_of_uint (N.to_uint (Z.to_N z))).

Fixpoint drop_zeros (s : jstring) : jstring :=
  match s with
  | c :: r => if (c =? 48)%N then drop_zeros r else s
  | [] => []
  end.

(** [Number.prototype.toString] of [s * 10 ^ (n - k)], where [ds] are the
    [k] digits of [s], the last of them not zero: plain digits when the
    decimal point falls within 21 places after the first digit or 6
    before it, the exponent form otherwise. *)
Definition place_point (ds : jstring) (n : Z) : jstring :=
  let k := Z.of_nat (List.length ds) in
  if ((k <=? n) && (n <=? 21))%Z then
    ds ++ repeat 48%N (Z.to_nat (n - k))
  else if ((0 <? n) && (n <=? 21))%Z then
    firstn (Z.to_nat n) ds ++ 46%N :: skipn (Z.to_nat n) ds
  else if ((-6 <? n) && (n <=? 0))%Z then
    48%N :: 46%N :: repeat 48%N (Z.to_nat (- n)) ++ ds
  else
    (match ds with
     | [d] => [d]
     | d :: r => d :: 46%N :: r
     | [] => []
     end)
    ++ 101%N :: (if (0 <=? n - 1)%Z then 43%N else 45%N)
    :: digits_of (Z.abs (n - 1)).

(** [Number.prototype.toString]. The text is that of the decimal itself,
    which is the text of the double next to it as long as the decimal has
    at most 15 significant digits and lies in the range of the normal
    doubles. *)
Definition num_to_string (n : num) : jstring :=
  if Z.eqb (mant n) 0 then [48%N]
  else
    let all := digits_of (Z.abs (mant n)) in
    let ds := rev (drop_zeros (rev all)) in
    (if (mant n <? 0)%Z then [45%N] else [])
    ++ place_point ds (Z.of_nat (List.length all) + expo n).

Fixpoint join (sep : jstring) (l : list jstring) : jstring :=
  match l with
  | [] => []
  | [x] => x
  | x :: r => x ++ sep ++ join sep r
  end.

(** The text that [String(v)] gives when it returns (see [ToString]). *)
Fixpoint String_ (v : value) : jstring :=
  match v with
  | JUndefined => str "undefined"
  | JNull => str "null"
  | JBool true => str "true"
  | JBool false => str "false"
  | JNum n => num_to_string n
  | JStr s => s
  | JArr items =>
      join (str ",")
        (map (fun x => if nullish x then [] else String_ x) items)
  | JObj _ => str "[object Object]"
  end.

(** A thrown error object: its [message], and the optional [status],
    [hint] and [code] the handlers read from it. *)
Record exn := {
  ex_message : value;
  ex_status : option nat;
  ex_hint : value;
  ex_code : value
}.

(** [new Error(msg)] *)
Definition Error (msg : string) : exn :=
  {| ex_message := JStr (str msg); ex_status := None;
     ex_hint := JUndefined; ex_code := JUndefined |}.

(** Code that may throw. *)
Definition throws (A : Type) := (exn + A)%type.

Definition ret {A} (a : A) : throws A := inr a.
Definition throw {A} (e : exn) : throws A := inl e.
Definition bind {A B} (m : throws A) (f : A -> throws B) : throws B :=
  match m with inl e => inl e | inr a => f a end.

(** [try { m } catch (e) { h e }] *)
Definition try_catch {A} (m : throws A) (h : exn -> throws A) : throws A :=
  match m with inl e => h e | inr a => inr a end.

(** [new TypeError(msg)] *)
Definition TypeError (msg : jstring) : exn :=
  {| ex_message := JStr msg; ex_status := None;
     ex_hint := JUndefined; ex_code := JUndefined |}.

(** [v.k], which throws on [null] and [undefined]. *)
Definition read (v : value) (k : jstring) : throws value :=
  if nullish v then
    throw (TypeError (str "Cannot read properties of " ++ String_ v
                      ++ str " (reading '" ++ k ++ str "')"))
  else ret (member v k).

(** Whether a value has a primitive form. An object is converted through
    its [toString]: the inherited one answers [[object Object]], and an
    own property of that name, which in data that arrived as JSON is
    never a function, leaves the object without a primitive form
    ([valueOf] gives the object itself, or is such a property too). An
    array converts each of its elements that is not [null] or
    [undefined]. *)
Fixpoint printable (v : value) : bool :=
  match v with
  | JObj ps => negb (has_key ps (str "toString"))
  | JArr items => forallb printable items
  | _ => true
  end.

(** [String(v)] and a template literal's [${v}]: they throw for a value
    without a primitive form. *)
Definition ToString (v : value) : throws jstring :=
  if printable v then ret (String_ v)
  else throw (TypeError (str "Cannot convert object to primitive value")).

End Js.

Import Js.

Declare Scope js_scope.
Notation "x <- m ;; k" := (bind m (fun x => k))
  (at level 61, m at next level, right associativity) : js_scope.
Open Scope js_scope.

(* ================================================================== *)
(** * middlewares/auth: role normalisation *)
(* ================================================================== *)

Module Auth.

(** [/[-_ ]/g] replaced by the empty string. *)
Definition is_separator (c : N) : bool :=
  ((c =? 45) || (c =? 95) || (c =? 32))%N.

Definition strip_separators (s : jstring) : jstring :=
  filter (fun c => negb (is_separator c)) s.

(** [role.toLowerCase()] is a method call: it exists on strings only. *)
Definition normalizeRole (role : value) : throws jstring :=
  if negb (truthy role) then ret (str "citizen")
  else
    match role with
    | JStr s =>
        let r := trim (strip_separators (toLowerCase s)) in
        if jeqb r (str "headauthority") || jeqb r (str "authorityhead")
           || jeqb r (str "admin")
        then ret (str "head_authority")
        else ret (str "citizen")
    | _ => throw (Error "role.toLowerCase is not a function")
    end.

End Auth.

(* ================================================================== *)
(** * JSON.parse *)
(* ================================================================== *)

Module Json.

(** JSON white space: tab, line feed, carriage return, space. *)
Definition is_ws (c : N) : bool :=
  ((c =? 9) || (c =? 10) || (c =? 13) || (c =? 32))%N.

Fixpoint skip_ws (s : jstring) : jstring :=
  match s with
  | [] => []
  | c :: r => if is_ws c then skip_ws r else s
  end.

Fixpoint strip_prefix (p s : jstring) : option jstring :=
  match p, s with
  | [], _ => Some s
  | x :: p', y :: s' => if N.eqb x y then strip_prefix p' s' else None
  | _ :: _, [] => None
  end.

Definition digit (c : N) : option Z :=
  if ((48 <=? c) && (c <=? 57))%N then Some (Z.of_N (c - 48)) else None.

Definition hex_digit (c : N) : option N :=
  (if (48 <=? c) && (c <=? 57) then Some (c - 48)
   else if (97 <=? c) && (c <=? 102) then Some (c - 87)
   else if (65 <=? c) && (c <=? 70) then Some (c - 55)
   else None)%N.

Definition hex4 (a b c d : N) : option N :=
  match hex_digit a, hex_digit b, hex_digit c, hex_digit d with
  | Some x, Some y, Some z, Some w => Some (((x * 16 + y) * 16 + z) * 16 + w)%N
  | _, _, _, _ => None
  end.

(** The single-character escapes: quote, backslash, slash, b f n r t. *)
Definition escape (c : N) : option N :=
  (if c =? 34 then Some 34 else if c =? 92 then Some 92
   else if c =? 47 then Some 47 else if c =? 98 then Some 8
   else if c =? 102 then Some 12 else if c =? 110 then Some 10
   else if c =? 114 then Some 13 else if c =? 116 then Some 9
   else None)%N.

Definition push (c : N) (r : option (jstring * jstring)) :
  option (jstring * jstring) :=
  match r with
  | Some (t, rest) => Some (c :: t, rest)
  | None => None
  end.

(** The characters of a string literal after its opening quote, up to and
    including the closing quote. *)
Fixpoint string_body (s : jstring) : option (jstring * jstring) :=
  match s with
  | [] => None
  | c :: r =>
      if (c =? 34)%N then Some ([], r)
      else if (c =? 92)%N then
        match r with
        | [] => None
        | e :: r1 =>
            if (e =? 117)%N then
              match r1 with
              | h1 :: h2 :: h3 :: h4 :: r2 =>
                  match hex4 h1 h2 h3 h4 with
                  | Some u => push u (string_body r2)
                  | None => None
                  end
              | _ => None
              end
            else
              match escape e with
              | Some u => push u (string_body r1)
              | None => None
              end
        end
      else if (c <? 32)%N then None
      else push c (string_body r)
  end.

(** A maximal run of decimal digits: its value on top of [acc], how many
    digits were read, and the rest. *)
Fixpoint digits (s : jstring) (acc : Z) (n : nat) : Z * nat * jstring :=
  match s with
  | [] => (acc, n, [])
  | c :: r =>
      match digit c with
      | Some d => digits r (10 * acc + d)%Z (S n)
      | None => (acc, n, s)
      end
  end.

Definition int_part (s : jstring) : option (Z * jstring) :=
  match s with
  | [] => None
  | c :: r =>
      if (c =? 48)%N then Some (0%Z, r)
      else
        match digits s 0 0 with
        | (_, O, _) => None
        | (m, S _, rest) => Some (m, rest)
        end
  end.

Definition frac_part (m : Z) (s : jstring) : option (Z * Z * jstring) :=
  match s with
  | c :: r =>
      if (c =? 46)%N then
        match digits r m 0 with
        | (_, O, _) => None
        | (m', S k, rest) => Some (m', Z.of_nat (S k), rest)
        end
      else Some (m, 0%Z, s)
  | [] => Some (m, 0%Z, s)
  end.

Definition exp_digits (neg : bool) (s : jstring) : option (Z * jstring) :=
  match digits s 0 0 with
  | (_, O, _) => None
  | (e, S _, rest) => Some (if neg then (- e)%Z else e, rest)
  end.

Definition exp_part (s : jstring) : option (Z * jstring) :=
  match s with
  | c :: r =>
      if ((c =? 101) || (c =? 69))%N then
        match r with
        | sg :: r1 =>
            if (sg =? 45)%N then exp_digits true r1
            else if (sg =? 43)%N then exp_digits false r1
            else exp_digits false r
        | [] => None
        end
      else Some (0%Z, s)
  | [] => Some (0%Z, s)
  end.

(** A decimal [m * 10 ^ e] at most half the least positive double
    (2 ^ -1074): the double next to it is zero. *)
Definition vanishes (m e : Z) : bool :=
  ((e <? 0) && (Z.abs m * 2 ^ 1075 <=? 10 ^ (- e)))%Z.

(** [-? int frac? exp?]. The decimal is kept as written, except that one
    too small for a double is read as zero; one beyond the largest
    double, which [JSON.parse] reads as [Infinity], is not told apart. *)
Definition number (s : jstring) : option (num * jstring) :=
  let '(neg, s1) :=
    match s with
    | c :: r => if (c =? 45)%N then (true, r) else (false, s)
    | [] => (false, s)
    end in
  match int_part s1 with
  | None => None
  | Some (i, s2) =>
      match frac_part i s2 with
      | None => None
      | Some (m, k, s3) =>
          match exp_part s3 with
          | None => None
          | Some (e, s4) =>
              if vanishes m (e - k) then Some (int 0, s4)
              else
                Some ({| mant := if neg then (- m)%Z else m;
                         expo := (e - k)%Z |}, s4)
          end
      end
  end.

Definition literal (s : jstring) : option (value * jstring) :=
  match strip_prefix (str "true") s with
  | Some r => Some (JBool true, r)
  | None =>
      match strip_prefix (str "false") s with
      | Some r => Some (JBool false, r)
      | None =>
          match strip_prefix (str "null") s with
          | Some r => Some (JNull, r)
          | None =>
              match number s with
              | Some (n, r) => Some (JNum n, r)
              | None => None
              end
          end
      end
  end.

(** One JSON value at the head of [s] (no leading white space), and the
    rest of the input. Every level of nesting spends one unit of [fuel]. *)
Fixpoint parse_value (fuel : nat) (s : jstring) : option (value * jstring) :=
  match fuel with
  | O => None
  | S f =>
      match s with
      | [] => None
      | c :: r =>
          if (c =? 123)%N then
            match skip_ws r with
            | [] => None
            | c1 :: r1 =>
                if (c1 =? 125)%N then Some (JObj [], r1)
                else parse_members f (c1 :: r1) []
            end
          else if (c =? 91)%N then
            match skip_ws r with
            | [] => None
            | c1 :: r1 =>
                if (c1 =? 93)%N then Some (JArr [], r1)
                else parse_elements f (c1 :: r1) []
            end
          else if (c =? 34)%N then
            match string_body r with
            | Some (t, rest) => Some (JStr t, rest)
            | None => None
            end
          else literal s
      end
  end

with parse_members (fuel : nat) (s : jstring) (acc : props) :
  option (value * jstring) :=
  match fuel with
  | O => None
  | S f =>
      match s with
      | [] => None
      | c :: r =>
          if (c =? 34)%N then
            match string_body r with
            | None => None
            | Some (k, r1) =>
                match skip_ws r1 with
                | [] => None
                | c2 :: r2 =>
                    if (c2 =? 58)%N then
                      match parse_value f (skip_ws r2) with
                      | None => None
                      | Some (v, r3) =>
                          let acc' := set_prop acc k v in
                          match skip_ws r3 with
                          | [] => None
                          | c4 :: r4 =>
                              if (c4 =? 44)%N then
                                parse_members f (skip_ws r4) acc'
                              else if (c4 =? 125)%N then Some (JObj acc', r4)
                              else None
                          end
                      end
                    else None
                end
            end
          else None
      end
  end

with parse_elements (fuel : nat) (s : jstring) (acc : list value) :
  option (value * jstring) :=
  match fuel with
  | O => None
  | S f =>
      match parse_value f s with
      | None => None
      | Some (v, r1) =>
          match skip_ws r1 with
          | [] => None
          | c :: r2 =>
              if (c =? 44)%N then parse_elements f (skip_ws r2) (acc ++ [v])
              else if (c =? 93)%N then Some (JArr (acc ++ [v]), r2)
              else None
          end
      end
  end.

(** [JSON.parse(s)]: one value between optional white space, or a
    [SyntaxError]. *)
Definition parse (s : jstring) : throws value :=
  match parse_value (S (List.length s)) (skip_ws s) with
  | Some (v, rest) =>
      match skip_ws rest with
      | [] => ret v
      | _ :: _ => throw (Error "Unexpected non-whitespace character after JSON")
      end
  | None => throw (Error "Unexpected token in JSON")
  end.

End Json.

(* ================================================================== *)
(** * services/gemini: the issue classifier *)
(* ================================================================== *)

Module Gemini.

(** The two remote calls of [classifyIssue]: the download of the image
    ([fetch(imageUrl).then(r => r.arrayBuffer())]) and the model call
    ([generateContent([prompt, imageData])] followed by
    [response.text()]). Either may reject. *)
Record Upstream := {
  fetch : value -> throws (list N);
  generateContent : jstring -> list N -> throws jstring
}.

(** The rules of task 3 of the prompt, in the order of the prompt. *)
Definition authority_rules : list (string * string) :=
  [ ("waterlog", "drainage");
    ("damagestreetlight", "streetlight");
    ("pothole", "road");
    ("garbage", "garbage");
    ("other", "head") ]%string.

Definition rule_line (r : string * string) : jstring :=
  strq "         - If issue_type is ~" ++ str (fst r)
  ++ strq "~, assigned_authority is ~" ++ str (snd r) ++ strq "~."
  ++ [10%N].

Definition prompt_head : jstring := strq "
      You are an AI civic assistant for the CivicLens platform.
      Analyze the following civic issue based on the image provided and the user's description.

      First, determine if the provided image and description are genuinely related to a civic issue.
      If the image and description are NOT related to a civic issue (e.g., personal photos, irrelevant content),
      return ONLY the following JSON object:
      {
        ~error~: ~Image/description not related to civic issues.~
      }
      DO NOT proceed with classification if it's not a civic issue.

      If it IS a civic issue, proceed with the following tasks:

      User Description: ~".

Definition prompt_tasks : jstring := strq "~

      Tasks:
      1. **Analyze the image and description carefully.**
      2. Identify the most specific type of issue from this EXACT list: [~pothole~, ~garbage~, ~damagestreetlight~, ~waterlog~, ~other~].
         - **~pothole~**: Look for depressions or holes in the road surface.
         - **~garbage~**: Look for waste, litter, or refuse in public areas.
         - **~damagestreetlight~**: Look for broken, flickering, or non-functional streetlights.
         - **~waterlog~**: Look for standing water, flooding, or blocked drainage.
         - **~other~**: Use this ONLY if the issue clearly does not fit any of the above categories, even after thorough image analysis.
      3. Map the identified issue_type to the correct assigned_authority based on these DETERMINISTIC rules:
".

Definition prompt_tail : jstring := strq "
      Return the result ONLY as a valid JSON object with the following keys:
      {
        ~issue_type~: ~string~,
        ~assigned_authority~: ~string~
      }

      Example:
      User Description: ~There's a huge hole in the road near the park.~
      Image: (Image showing a pothole)
      Expected Output:
      {
        ~issue_type~: ~pothole~,
        ~assigned_authority~: ~road~
      }

      DO NOT include any extra text, explanations, or markdown. Just the raw JSON object.
    ".

(** The template literal [prompt], with [${description}] filled in. *)
Definition prompt (description : jstring) : jstring :=
  prompt_head ++ description ++ prompt_tasks
  ++ List.concat (map rule_line authority_rules) ++ prompt_tail.

(** The longest prefix of [s] that ends in a closing brace. *)
Fixpoint upto_last_rbrace (s : jstring) : option jstring :=
  match s with
  | [] => None
  | c :: r =>
      match upto_last_rbrace r with
      | Some p => Some (c :: p)
      | None => if (c =? 125)%N then Some [c] else None
      end
  end.

(** [text.match(/\{[\s\S]*\}/)]: from the first opening brace to the last
    closing brace after it. *)
Fixpoint match_braces (text : jstring) : option jstring :=
  match text with
  | [] => None
  | c :: r =>
      if (c =? 123)%N then
        match upto_last_rbrace r with
        | Some p => Some (c :: p)
        | None => None
        end
      else match_braces r
  end.

Definition k_issue_type : jstring := str "issue_type".
Definition k_assigned_authority : jstring := str "assigned_authority".
Definition k_error : jstring := str "error".

(** The result for a reply that carries an [error]. *)
Definition not_civic (e : value) : value :=
  JObj [ (k_issue_type, JStr (str "Not a civic issue"));
         (k_assigned_authority, JStr (str "none"));
         (k_error, e) ].

(** The result of the [catch] branch. *)
Definition fallback : value :=
  JObj [ (k_issue_type, JStr (str "other"));
         (k_assigned_authority, JStr (str "head")) ].

(** The body of the [try] block. *)
Definition classify_try (up : Upstream) (imageUrl description : value) :
  throws value :=
  described <- ToString description ;;
  let prompt := prompt described in
  imageResp <- fetch up imageUrl ;;
  text <- generateContent up prompt imageResp ;;
  match match_braces text with
  | None => throw (Error "Could not parse AI response as JSON")
  | Some jsonMatch =>
      resultJson <- Json.parse jsonMatch ;;
      err <- read resultJson k_error ;;
      if truthy err then ret (not_civic err) else ret resultJson
  end.

Definition classifyIssue (up : Upstream) (imageUrl description : value) :
  throws value :=
  try_catch (classify_try up imageUrl description) (fun _ => ret fallback).

End Gemini.

(* ================================================================== *)
(** * The hosted table store *)
(* ================================================================== *)

(** The controller reaches the tables [issues] and [issue_logs] through
    the hosted store's client. The store is not code of this repository;
    this is the reference behaviour the controller relies on: an insert
    appends the row it is sent, an update merges the patch into the rows
    whose [id] matches and leaves every other row alone, and any call may
    be refused (an [error] in the reply) or fail outright (a rejected
    promise). *)

Module Store.

Definition row := props.

Record tables := {
  issues : list row;
  issue_logs : list row
}.

(** The calls the controller makes. *)
Inductive call :=
| InsertIssue (payload : props)
| SelectIssue (id : value)
| UpdateIssue (patch : props) (id : value)
| DeleteIssue (id : value)
| DeleteIssues (ids : list value)
| InsertLog (payload : props).

(** How the store takes a call. *)
Inductive fault :=
| Healthy
| Rejects (error : props)
| Crashes (e : exn).

Record Backend := {
  fault_of : call -> fault;
  new_id : tables -> value;
  created_at : jstring
}.

(** The [{ data, error }] a call resolves to. *)
Record reply := { data : value; error : value }.

Definition k_id : jstring := str "id".
Definition k_created_at : jstring := str "created_at".

Definition is_undefined (v : value) : bool :=
  match v with JUndefined => true | _ => false end.

(** The request body is JSON: properties whose value is [undefined] are
    not sent. *)
Definition to_row (payload : props) : row :=
  filter (fun kv => negb (is_undefined (snd kv))) payload.

Definition with_default (r : row) (k : jstring) (v : value) : row :=
  if has_key r k then r else r ++ [(k, v)].

(** [.eq('id', id)] *)
Definition matches (id : value) (r : row) : bool :=
  jeqb (String_ (lookup r k_id)) (String_ id).

Definition refused (e : props) : reply := {| data := JNull; error := JObj e |}.

Definition rows (l : list row) : reply :=
  {| data := JArr (map JObj l); error := JNull |}.

(** [.single()]: exactly one row, or an error. *)
Definition single (l : list row) : reply :=
  match l with
  | [r] => {| data := JObj r; error := JNull |}
  | _ =>
      refused [ (str "code", JStr (str "PGRST116"));
                (str "message",
                 JStr (str "JSON object requested, multiple (or no) rows returned")) ]
  end.

Definition stored (b : Backend) (t : tables) (payload : props) : row :=
  with_default (with_default (to_row payload) k_id (new_id b t))
    k_created_at (JStr (created_at b)).

Definition patched (patch : props) (id : value) (r : row) : row :=
  if matches id r then assign r (to_row patch) else r.

(** The effect of a call the store accepts, and the rows it returns. *)
Definition apply (b : Backend) (c : call) (t : tables) : list row * tables :=
  match c with
  | InsertIssue payload =>
      let r := stored b t payload in
      ([r], {| issues := issues t ++ [r]; issue_logs := issue_logs t |})
  | SelectIssue id => (filter (matches id) (issues t), t)
  | UpdateIssue patch id =>
      let t' := {| issues := map (patched patch id) (issues t);
                   issue_logs := issue_logs t |} in
      (map (patched patch id) (filter (matches id) (issues t)), t')
  | DeleteIssue id =>
      ([], {| issues := filter (fun r => negb (matches id r)) (issues t);
              issue_logs := issue_logs t |})
  | DeleteIssues ids =>
      ([], {| issues :=
                filter (fun r => negb (existsb (fun id => matches id r) ids))
                  (issues t);
              issue_logs := issue_logs t |})
  | InsertLog payload =>
      let r := stored b t payload in
      ([r], {| issues := issues t; issue_logs := issue_logs t ++ [r] |})
  end.

(** One call: [shape] is [rows] for [.select()] and [single] for
    [.single()]. *)
Definition run (b : Backend) (shape : list row -> reply) (c : call)
  (t : tables) : throws reply * tables :=
  match fault_of b c with
  | Healthy => let '(l, t') := apply b c t in (ret (shape l), t')
  | Rejects e => (ret (refused e), t)
  | Crashes e => (throw e, t)
  end.

End Store.

(* ================================================================== *)
(** * controllers/issueController *)
(* ================================================================== *)

Module IssueController.

Import Store.
Local Open Scope string_scope.
Local Open Scope list_scope.

(** Everything outside the process. *)
Record World := {
  upstream : Gemini.Upstream;
  backend : Backend;
  (** The number [Number(v)] gives when it returns (see [Number_]). *)
  toNumber : value -> value;
  (** [new Date().toISOString()] *)
  now : jstring
}.

(** What a handler is given: [req.user], [req.body] (the parsed JSON
    object) and [req.params.id]. *)
Record request := {
  user : value;
  body : props;
  params_id : value
}.

(** [res.status(code).json(payload)] and [res.status(code).send()] *)
Inductive response :=
| Json (code : nat) (payload : value)
| Sent (code : nat).

(** What a handler did outside itself, in order: a call of
    [classifyIssue], a call of the store. *)
Inductive event :=
| Classifier (imageUrl description : value)
| Db (c : call).

Record state := { db : tables; trace : list event }.

(** A handler step: it may throw, and it may change the tables and
    extend the trace. *)
Definition action (A : Type) := state -> throws A * state.

Definition pure {A} (a : A) : action A := fun s => (inr a, s).
Definition raise {A} (e : exn) : action A := fun s => (inl e, s).
Definition lift {A} (m : throws A) : action A := fun s => (m, s).
Definition and_then {A B} (m : action A) (f : A -> action B) : action B :=
  fun s =>
    match m s with
    | (inl e, s') => (inl e, s')
    | (inr a, s') => f a s'
    end.

(** [try { m } catch (e) { }] *)
Definition swallow {A} (m : action A) : action unit :=
  fun s => (inr tt, snd (m s)).

Definition classify (w : World) (imageUrl description : value) : action value :=
  fun s =>
    (Gemini.classifyIssue (upstream w) imageUrl description,
     {| db := db s; trace := trace s ++ [Classifier imageUrl description] |}).

Definition store (w : World) (shape : list row -> reply) (c : call) :
  action reply :=
  fun s =>
    let '(r, t) := run (backend w) shape c (db s) in
    (r, {| db := t; trace := trace s ++ [Db c] |}).

(** A request starts with nothing done yet. *)
Definition start (t : tables) : state := {| db := t; trace := [] |}.

Definition obj (l : list (string * value)) : value :=
  JObj (map (fun kv => (str (fst kv), snd kv)) l).

Definition text (s : string) : value := JStr (str s).

Definition field (ps : props) (k : string) : value := lookup ps (str k).

(** [a === b] against a string literal. *)
Definition is_string (v : value) (s : string) : bool :=
  match v with JStr t => jeqb t (str s) | _ => false end.

(** [v === true] *)
Definition is_true (v : value) : bool :=
  match v with JBool true => true | _ => false end.

(** Whether the text of [v] is more than white space. *)
Definition not_blank (v : value) : bool :=
  match trim (String_ v) with [] => false | _ :: _ => true end.

(** [!data || data.length === 0] *)
Definition no_rows (data : value) : bool :=
  negb (truthy data) || match data with JArr [] => true | _ => false end.

(** [data[0]] *)
Definition first (data : value) : value :=
  match data with JArr (r :: _) => r | _ => JUndefined end.

(** A thrown store error: [throw error]. *)
Definition thrown (error : value) : exn :=
  {| ex_message := member error (str "message"); ex_status := None;
     ex_hint := member error (str "hint"); ex_code := member error (str "code") |}.

Notation "x <~ m ;; k" := (and_then m (fun x => k))
  (at level 61, m at next level, right associativity) : js_scope.

(** ** POST /issues *)

(** [String(v).trim() !== ''] as the handler evaluates it: [String(v)]
    may throw. *)
Definition has_text (v : value) : throws bool :=
  s <- ToString v ;;
  ret (match trim s with [] => false | _ :: _ => true end).

(** [isManual]: [a || b] and [a && b] evaluate their right side only
    when the left side does not decide, so a manual field is converted
    only when the flag is not [true], the field is truthy and, for the
    category, the department did not already make the report manual. *)
Definition isManual (is_manual_submission manual_department
  manual_issue_type : value) : throws bool :=
  if is_true is_manual_submission then ret true
  else
    department <-
      (if truthy manual_department then has_text manual_department
       else ret false) ;;
    if department then ret true
    else if truthy manual_issue_type then has_text manual_issue_type
    else ret false.

(** [Number(v)]: it throws for a value without a primitive form. *)
Definition Number_ (w : World) (v : value) : throws value :=
  if printable v then ret (toNumber w v)
  else throw (TypeError (str "Cannot convert object to primitive value")).

(** [issueData], given the two coordinates as [Number] returned them. *)
Definition issueData (citizen_id image_url description
  location_lat location_lng finalIssueType finalDepartment aiResult : value)
  (isManual : bool) : props :=
  [ (str "citizen_id", citizen_id);
    (str "image_url", image_url);
    (str "description", description);
    (str "location_lat", location_lat);
    (str "location_lng", location_lng);
    (str "issue_type", finalIssueType);
    (str "assigned_authority", finalDepartment);
    (str "department", finalDepartment);
    (str "ai_analysis",
     JObj (set_prop (own_props aiResult) (str "is_manual") (JBool isManual)));
    (str "status", text "reported") ].

(** The body of the [try] block of [createIssue]. *)
Definition createIssue_try (w : World) (req : request) : action response :=
  let image_url := field (body req) "image_url" in
  let description := field (body req) "description" in
  let location_lat := field (body req) "location_lat" in
  let location_lng := field (body req) "location_lng" in
  let manual_department := field (body req) "manual_department" in
  let manual_issue_type := field (body req) "manual_issue_type" in
  let is_manual_submission := field (body req) "is_manual_submission" in
  if negb (truthy image_url) then
    pure (Json 400 (obj [("error", text "Missing field: image_url")]))
  else if negb (truthy description) then
    pure (Json 400 (obj [("error", text "Missing field: description")]))
  else if nullish location_lat then
    pure (Json 400 (obj [("error", text "Missing field: location_lat")]))
  else if nullish location_lng then
    pure (Json 400 (obj [("error", text "Missing field: location_lng")]))
  else
    let citizen_id := opt_member (user req) (str "id") in
    if negb (truthy citizen_id) then
      pure (Json 401 (obj [("error", text "User session invalid")]))
    else
      aiResult <~ classify w image_url description ;;
      aiError <~ lift (read aiResult (str "error")) ;;
      if truthy aiError then
        pure (Json 400
                (obj [("error", text "Submission not related to civic issues");
                      ("details", aiError)]))
      else
        let finalDepartment :=
          or_else manual_department (member aiResult (str "assigned_authority")) in
        let finalIssueType :=
          or_else manual_issue_type (member aiResult (str "issue_type")) in
        isManual <~
          lift (isManual is_manual_submission manual_department
                  manual_issue_type) ;;
        lat <~ lift (Number_ w location_lat) ;;
        lng <~ lift (Number_ w location_lng) ;;
        let issueData :=
          issueData citizen_id image_url description lat lng finalIssueType
            finalDepartment aiResult isManual in
        inserted <~ store w rows (InsertIssue issueData) ;;
        let issue := data inserted in
        let issueError := error inserted in
        if truthy issueError then
          pure (Json 400
                  (obj [("error", text "Database insert failed");
                        ("details", member issueError (str "message"));
                        ("hint", member issueError (str "hint"));
                        ("code", member issueError (str "code"))]))
        else if no_rows issue then
          raise (Error "Failed to save issue - no data returned")
        else pure (Json 201 (first issue)).

(** [error.status || 500] *)
Definition status_or_500 (e : exn) : nat :=
  match ex_status e with
  | Some (S n) => S n
  | _ => 500
  end.

Definition createIssue (w : World) (req : request) (s : state) :
  response * state :=
  match createIssue_try w req s with
  | (inr r, s') => (r, s')
  | (inl e, s') =>
      (Json (status_or_500 e)
         (obj [("error", text "Failed to report issue");
               ("details", or_else (ex_message e) (text "Internal Server Error"));
               ("hint", ex_hint e);
               ("code", ex_code e)]), s')
  end.

(** ** PATCH /issues/:id/status *)

(** [['reported', 'in_progress', 'resolved'].includes(status)] *)
Definition valid_status (status : value) : bool :=
  is_string status "reported" || is_string status "in_progress"
  || is_string status "resolved".

(** [status === 'resolved' && resolved_image_url] *)
Definition resolving (status resolved_image_url : value) : bool :=
  is_string status "resolved" && truthy resolved_image_url.

(** [updateData] *)
Definition updateData (w : World) (status resolved_image_url : value) : props :=
  (str "status", status)
  :: (if resolving status resolved_image_url then
        [ (str "resolved_image_url", resolved_image_url);
          (str "resolved_at", JStr (now w)) ]
      else []).

(** [logData] *)
Definition logData (id old_status status changed_by resolved_image_url : value) :
  props :=
  [ (str "issue_id", id);
    (str "old_status", old_status);
    (str "new_status", status);
    (str "changed_by", changed_by) ]
  ++ (if resolving status resolved_image_url then
        [ (str "resolved_image_url", resolved_image_url) ]
      else []).

Definition updateStatus_try (w : World) (req : request) : action response :=
  let id := params_id req in
  let status := field (body req) "status" in
  let resolved_image_url := field (body req) "resolved_image_url" in
  changed_by <~ lift (read (user req) (str "id")) ;;
  if negb (valid_status status) then
    pure (Json 400 (obj [("error", text "Invalid status")]))
  else
    fetched <~ store w single (SelectIssue id) ;;
    let oldIssue := data fetched in
    let fetchError := error fetched in
    if truthy fetchError || negb (truthy oldIssue) then
      pure (Json 404 (obj [("error", text "Issue not found")]))
    else
      let updateData := updateData w status resolved_image_url in
      updated <~ store w rows (UpdateIssue updateData id) ;;
      let updatedIssue := data updated in
      let updateError := error updated in
      if truthy updateError then
        pure (Json 500
                (obj [("error", text "Database update failed");
                      ("message", member updateError (str "message"))]))
      else if no_rows updatedIssue then
        pure (Json 404 (obj [("error", text "Issue not found")]))
      else
        let finalResult := first updatedIssue in
        _ <~ swallow
               (old_status <~ lift (read oldIssue (str "status")) ;;
                store w rows
                  (InsertLog
                     (logData id old_status status changed_by resolved_image_url))) ;;
        pure (Json 200 finalResult).

Definition updateStatus (w : World) (req : request) (s : state) :
  response * state :=
  match updateStatus_try w req s with
  | (inr r, s') => (r, s')
  | (inl e, s') =>
      (Json 500
         (obj [("error", text "Failed to update status");
               ("details", or_else (ex_message e) (text "Internal Server Error"))]),
       s')
  end.

(** ** PATCH /issues/:id/reassign *)

Definition reassignIssue_try (w : World) (req : request) : action response :=
  let id := params_id req in
  let assigned_authority := field (body req) "assigned_authority" in
  updated <~ store w single
    (UpdateIssue [ (str "assigned_authority", assigned_authority);
                   (str "department", assigned_authority) ] id) ;;
  let updatedIssue := data updated in
  if truthy (error updated) then raise (thrown (error updated))
  else pure (Json 200 updatedIssue).

Definition reassignIssue (w : World) (req : request) (s : state) :
  response * state :=
  match reassignIssue_try w req s with
  | (inr r, s') => (r, s')
  | (inl e, s') =>
      (Json 500
         (obj [("error", text "Failed to reassign issue");
               ("details", or_else (ex_message e) (text "Internal Server Error"))]),
       s')
  end.

(** ** DELETE /issues/:id *)

Definition deleteIssue_try (w : World) (req : request) : action response :=
  let id := params_id req in
  deleted <~ store w rows (DeleteIssue id) ;;
  if truthy (error deleted) then
    pure (Json 500
            (obj [("error", text "Database error");
                  ("details", member (error deleted) (str "message"))]))
  else pure (Sent 204).

Definition deleteIssue (w : World) (req : request) (s : state) :
  response * state :=
  match deleteIssue_try w req s with
  | (inr r, s') => (r, s')
  | (inl _, s') => (Json 500 (obj [("error", text "Failed to delete issue")]), s')
  end.

(** ** POST /issues/bulk-delete *)

Definition bulkDeleteIssues_try (w : World) (req : request) : action response :=
  let issueIds := field (body req) "issueIds" in
  match issueIds with
  | JArr (id :: ids) =>
      deleted <~ store w rows (DeleteIssues (id :: ids)) ;;
      if truthy (error deleted) then
        pure (Json 500
                (obj [("error", text "Database error");
                      ("details", member (error deleted) (str "message"))]))
      else pure (Sent 204)
  | _ =>
      pure (Json 400
              (obj [("error", text "Invalid or empty array of issue IDs provided")]))
  end.

Definition bulkDeleteIssues (w : World) (req : request) (s : state) :
  response * state :=
  match bulkDeleteIssues_try w req s with
  | (inr r, s') => (r, s')
  | (inl _, s') =>
      (Json 500 (obj [("error", text "Failed to bulk delete issues")]), s')
  end.

(** ** routes/issueRoutes: the routes that write *)

(** The listing and lookup routes ([/public], [/my], [/authority],
    [/:id]) only read the tables. *)
Inductive route :=
| PostIssue
| PatchStatus
| PatchReassign
| DeleteOne
| PostBulkDelete.

Definition handler (r : route) : World -> request -> state -> response * state :=
  match r with
  | PostIssue => createIssue
  | PatchStatus => updateStatus
  | PatchReassign => reassignIssue
  | DeleteOne => deleteIssue
  | PostBulkDelete => bulkDeleteIssues
  end.

End IssueController.

(* ================================================================== *)
(** * Sample worlds and requests *)
(* ================================================================== *)

Module Sample.

Import Store IssueController.
Local Open Scope string_scope.
Local Open Scope list_scope.

(** An upstream whose image download works and whose model answers
    [reply]. *)
Definition answering (reply : jstring) : Gemini.Upstream :=
  {| Gemini.fetch := fun _ => ret [255%N; 216%N; 255%N];
     Gemini.generateContent := fun _ _ => ret reply |}.

(** An upstream whose model call rejects. *)
Definition failing : Gemini.Upstream :=
  {| Gemini.fetch := fun _ => ret [255%N; 216%N; 255%N];
     Gemini.generateContent := fun _ _ => throw (Error "503 Service Unavailable") |}.

(** A store that accepts every call; ids count the rows of both tables. *)
Definition healthy : Backend :=
  {| fault_of := fun _ => Healthy;
     new_id := fun t =>
       JNum (int (Z.of_nat (List.length (issues t) + List.length (issue_logs t) + 1)));
     created_at := str "2024-01-01T00:00:00.000Z" |}.

(** The same store, except that writes to [issue_logs] are refused. *)
Definition logless : Backend :=
  {| fault_of := fun c =>
       match c with
       | InsertLog _ => Rejects [(str "message", text "permission denied")]
       | _ => Healthy
       end;
     new_id := new_id healthy;
     created_at := created_at healthy |}.

Definition world (up : Gemini.Upstream) (b : Backend) : World :=
  {| upstream := up; backend := b;
     toNumber := fun v => v;
     now := str "2024-01-02T03:04:05.000Z" |}.

Definition pothole_reply : jstring :=
  strq "{~issue_type~: ~pothole~, ~assigned_authority~: ~road~}".

(** The same answer the way models tend to send it, fenced as markdown. *)
Definition fenced_reply : jstring :=
  str "```json" ++ [10%N] ++ pothole_reply ++ [10%N] ++ str "```".

(** A world in which everything works and the model sees a pothole. *)
Definition office : World := world (answering pothole_reply) healthy.

(** A reply that pairs a category with another department than the
    prompt's rule for it. *)
Definition mislabelled_reply : jstring :=
  strq "{~issue_type~: ~pothole~, ~assigned_authority~: ~garbage~}".

Definition rejected_reply : jstring :=
  strq "{~error~: ~Image/description not related to civic issues.~}".

Definition citizen : value := obj [("id", text "u-1"); ("role", text "citizen")].
Definition officer : value := obj [("id", text "u-9"); ("role", text "head_authority")].

Definition report (extra : list (string * value)) : request :=
  {| user := citizen;
     body := own_props
       (obj ([ ("image_url", text "https://cdn.example/p.jpg");
               ("description", text "hole in the road");
               ("location_lat", JNum {| mant := 1297; expo := -2 |});
               ("location_lng", JNum {| mant := 7759; expo := -2 |}) ] ++ extra));
     params_id := JUndefined |}.

Definition status_change (id : string) (fields : list (string * value)) : request :=
  {| user := officer; body := own_props (obj fields); params_id := text id |}.

Definition an_issue (id status : string) : row :=
  own_props
    (obj [ ("id", text id); ("citizen_id", text "u-1");
           ("image_url", text "https://cdn.example/p.jpg");
           ("description", text "hole in the road");
           ("issue_type", text "pothole");
           ("assigned_authority", text "road"); ("department", text "road");
           ("status", text status) ]).

Definition one_issue : tables :=
  {| issues := [an_issue "i-1" "reported"]; issue_logs := [] |}.

Definition empty : tables := {| issues := []; issue_logs := [] |}.

End Sample.

(* ================================================================== *)
(** * The properties, as the specification words them *)
(* ================================================================== *)

Module Spec.

Import Store IssueController.
Local Open Scope string_scope.
Local Open Scope list_scope.

(** ** Roles *)

Definition head_names : list jstring :=
  [str "headauthority"; str "authorityhead"; str "admin"].

(** Lower-cased, with hyphens, underscores and spaces removed. *)
Definition squeezed (s : jstring) : jstring :=
  Auth.strip_separators (toLowerCase s).

(** The role that the squeezed form alone would give. *)
Definition role_of_squeezed (s : jstring) : jstring :=
  if existsb (jeqb (squeezed s)) head_names then str "head_authority"
  else str "citizen".

(** The role that the squeezed and then trimmed form gives. *)
Definition role_of_trimmed (s : jstring) : jstring :=
  if existsb (jeqb (trim (squeezed s))) head_names then str "head_authority"
  else str "citizen".

(** ** Classification *)

(** A result pairs each of the five categories with the department of the
    prompt's rule for it. *)
Definition follows_rules (r : value) : Prop :=
  forall category department,
    In (category, department) Gemini.authority_rules ->
    member r Gemini.k_issue_type = text category ->
    member r Gemini.k_assigned_authority = text department.

(** Some stretch of the reply that opens with a brace parses as JSON. *)
Definition parseable_object_in (reply : jstring) : Prop :=
  exists pre m post o,
    reply = pre ++ (123%N :: m) ++ post /\ Json.parse (123%N :: m) = inr o.

(** ** Issue creation *)

(** The required fields in the order they are checked, each with what
    counts as missing: the image reference and the description when they
    are absent or empty (falsy), a coordinate when it is absent or null. *)
Definition required : list (string * (value -> bool)) :=
  [ ("image_url", fun v => negb (truthy v));
    ("description", fun v => negb (truthy v));
    ("location_lat", nullish);
    ("location_lng", nullish) ].

Fixpoint first_missing (fields : list (string * (value -> bool))) (b : props) :
  option string :=
  match fields with
  | [] => None
  | (k, missing) :: r =>
      if missing (field b k) then Some k else first_missing r b
  end.

(** The request passes validation and carries a citizen id: the
    classifier is consulted. *)
Definition reaches_classifier (req : request) : bool :=
  match first_missing required (body req) with
  | None => truthy (opt_member (user req) (str "id"))
  | Some _ => false
  end.

(** A manual field given as a non-empty string. *)
Definition nonempty (v : value) : bool :=
  match v with JStr (_ :: _) => true | _ => false end.

(** A manual field given with text that is not blank. *)
Definition supplied (v : value) : bool :=
  truthy v && printable v && not_blank v.

(** The report counts as manual: the flag is [true], or a manual field
    was given with text that is not blank. *)
Definition manual (req : request) : bool :=
  is_true (field (body req) "is_manual_submission")
  || supplied (field (body req) "manual_department")
  || supplied (field (body req) "manual_issue_type").

(** Every conversion that [createIssue] makes on the way to the insert
    returns: [String] of the manual fields it converts (none when the
    flag is [true]; the department when it is truthy; the category when
    it is truthy and the department is absent, empty or blank), and
    [Number] of the two coordinates. *)
Definition converts (req : request) : bool :=
  let manual_department := field (body req) "manual_department" in
  let manual_issue_type := field (body req) "manual_issue_type" in
  (is_true (field (body req) "is_manual_submission")
   || (negb (truthy manual_department) || printable manual_department)
      && (supplied manual_department || negb (truthy manual_issue_type)
          || printable manual_issue_type))
  && printable (field (body req) "location_lat")
  && printable (field (body req) "location_lng").

(** The payload of the insert: [issueData] as [createIssue] fills it
    when it gets there. *)
Definition payload_of (w : World) (req : request) (ai : value) : props :=
  issueData (opt_member (user req) (str "id"))
    (field (body req) "image_url") (field (body req) "description")
    (toNumber w (field (body req) "location_lat"))
    (toNumber w (field (body req) "location_lng"))
    (or_else (field (body req) "manual_issue_type") (member ai (str "issue_type")))
    (or_else (field (body req) "manual_department")
       (member ai (str "assigned_authority")))
    ai
    (manual req).

(** ** Records *)

(** The department and its duplicate agree. *)
Definition mirrored (r : row) : Prop :=
  lookup r (str "department") = lookup r (str "assigned_authority").

(** The tables the service can bring about, from empty ones, by any
    requests in any worlds. *)
Inductive reachable : tables -> Prop :=
| reach_empty : reachable {| issues := []; issue_logs := [] |}
| reach_step (r : route) (w : World) (req : request) (t : tables) :
    reachable t -> reachable (db (snd (handler r w req (start t)))).

(** The attributes a status update may write. *)
Definition status_keys : list jstring :=
  [str "status"; str "resolved_image_url"; str "resolved_at"].

(** [new] is [old] except possibly at [keys]. *)
Definition same_outside (keys : list jstring) (old new : row) : Prop :=
  forall k, existsb (jeqb k) keys = false -> lookup new k = lookup old k.

Definition is_update (e : event) : bool :=
  match e with Db (UpdateIssue _ _) => true | _ => false end.

Definition is_log_write (e : event) : bool :=
  match e with Db (InsertLog _) => true | _ => false end.

(** The world [w], except that the store takes writes to [issue_logs]
    as [f] says. *)
Definition with_log_fault (f : fault) (w : World) : World :=
  {| upstream := upstream w;
     backend :=
       {| fault_of := fun c =>
            match c with
            | InsertLog _ => f
            | _ => fault_of (backend w) c
            end;
          new_id := new_id (backend w);
          created_at := created_at (backend w) |};
     toNumber := toNumber w;
     now := now w |}.

End Spec.

(* ================================================================== *)
(** * middlewares/auth: authenticate and authorize *)
(* ================================================================== *)

Module Middleware.

Import IssueController.
Local Open Scope string_scope.
Local Open Scope list_scope.

(** The identity provider and the profile table, as [authenticate]
    consults them: [supabase.auth.getUser(token)] resolves to a user and
    an error, the [profiles] query ([maybeSingle]) to a profile and an
    error; either promise may reject. *)
Record Identity := {
  getUser : value -> throws (value * value);
  fetchProfile : value -> throws (value * value)
}.

(** What the middleware asked of the provider, in order. The write of
    [updateUserById] is not awaited and its rejection is caught and
    dropped, so it has no answer to model. *)
Inductive call :=
| VerifyToken (token : value)
| FetchProfile (id : value)
| SyncMetadata (id : value) (user_metadata : props).

(** A middleware answers the request or hands it on ([next()]) with the
    [req.user] it attached. *)
Inductive verdict :=
| Reply (r : response)
| Next (user : value).

(** [s.split(' ')] *)
Fixpoint split_space (s : jstring) : list jstring :=
  match s with
  | [] => [[]]
  | c :: r =>
      if (c =? 32)%N then [] :: split_space r
      else
        match split_space r with
        | p :: ps => (c :: p) :: ps
        | [] => [[c]]
        end
  end.

(** [authHeader.split(' ')[1]] *)
Definition bearer_token (authHeader : jstring) : value :=
  match nth_error (split_space authHeader) 1 with
  | Some t => JStr t
  | None => JUndefined
  end.

(** The decimal text of an array index. *)
Definition index_key (i : nat) : jstring :=
  str (NilZero.string_of_uint (Nat.to_uint i)).

Fixpoint indexed {A} (f : A -> value) (i : nat) (l : list A) : props :=
  match l with
  | [] => []
  | x :: r => (index_key i, f x) :: indexed f (S i) r
  end.

(** The own enumerable properties [{...v}] copies: those of an object,
    the indices of an array or of a string, none of anything else. *)
Definition spread (v : value) : props :=
  match v with
  | JObj ps => ps
  | JArr items => indexed (fun x => x) 0 items
  | JStr s => indexed (fun c => JStr [c]) 0 s
  | _ => []
  end.

(** Equality of the values two decimals stand for. *)
Definition num_eqb (a b : num) : bool :=
  let e := Z.min (expo a) (expo b) in
  (mant a * 10 ^ (expo a - e) =? mant b * 10 ^ (expo b - e))%Z.

(** [a === b] for values that reached the comparison by different ways:
    primitives compare by value, two objects or arrays are never the
    same one. *)
Definition strict_eq (a b : value) : bool :=
  match a, b with
  | JUndefined, JUndefined => true
  | JNull, JNull => true
  | JBool x, JBool y => Bool.eqb x y
  | JNum x, JNum y => num_eqb x y
  | JStr x, JStr y => jeqb x y
  | _, _ => false
  end.

(** Step 3 of [authenticate]: the role and the department, and whether
    the department is [metadata.department] itself (it is when taken from
    [metadata.department || null] with a truthy left side). *)
Definition resolve_role (profile metadata : value) :
  throws (jstring * value * bool) :=
  if truthy profile && truthy (member profile (str "role")) then
    finalRole <- Auth.normalizeRole (member profile (str "role")) ;;
    ret (finalRole, member profile (str "department"), false)
  else
    finalRole <- Auth.normalizeRole (member metadata (str "role")) ;;
    ret (finalRole, or_else (member metadata (str "department")) JNull,
         truthy (member metadata (str "department"))).

(** [metadata.role !== finalRole || metadata.department !== userDepartment] *)
Definition stale (metadata : value) (finalRole : jstring)
  (userDepartment : value) (aliased : bool) : bool :=
  negb (strict_eq (member metadata (str "role")) (JStr finalRole))
  || negb (aliased || strict_eq (member metadata (str "department")) userDepartment).

(** [{ ...metadata, role: finalRole, department: userDepartment }] *)
Definition synced (metadata : value) (finalRole : jstring)
  (userDepartment : value) : props :=
  set_prop (set_prop (spread metadata) (str "role") (JStr finalRole))
    (str "department") userDepartment.

(** [{ ...user, ...profile, role: finalRole, department: userDepartment }] *)
Definition attached (user profile : value) (finalRole : jstring)
  (userDepartment : value) : value :=
  JObj (set_prop
          (set_prop (assign (spread user) (spread profile)) (str "role")
             (JStr finalRole))
          (str "department") userDepartment).

(** The body of the [try] block, with the calls made up to the point
    where it returns or throws. The line logged before [next()] is a
    template literal over [user.email] and the department: it throws
    when one of them has no primitive form, after the update of the
    metadata was issued. *)
Definition authenticate_try (idp : Identity) (token : value) :
  list call * throws verdict :=
  match getUser idp token with
  | inl e => ([VerifyToken token], throw e)
  | inr (user, authError) =>
      if truthy authError || negb (truthy user) then
        ([VerifyToken token],
         ret (Reply (Json 401
                       (obj [("error", text "Invalid or expired token");
                             ("details", opt_member authError (str "message"))]))))
      else
        let id := member user (str "id") in
        match fetchProfile idp id with
        | inl e => ([VerifyToken token; FetchProfile id], throw e)
        | inr (profile, profileError) =>
            let metadata := or_else (member user (str "user_metadata")) (JObj []) in
            match resolve_role profile metadata with
            | inl e => ([VerifyToken token; FetchProfile id], throw e)
            | inr (finalRole, userDepartment, aliased) =>
                ([VerifyToken token; FetchProfile id]
                 ++ (if stale metadata finalRole userDepartment aliased then
                       [SyncMetadata id (synced metadata finalRole userDepartment)]
                     else []),
                 _ <- ToString (member user (str "email")) ;;
                 _ <- ToString userDepartment ;;
                 ret (Next (attached user profile finalRole userDepartment)))
            end
        end
  end.

(** [authenticate], given [req.headers.authorization] (a string when
    the header is present). *)
Definition authenticate (idp : Identity) (authHeader : option jstring) :
  list call * verdict :=
  match authHeader with
  | None | Some [] =>
      ([], Reply (Json 401 (obj [("error", text "No authorization header provided")])))
  | Some (c :: r) =>
      let token := bearer_token (c :: r) in
      match authenticate_try idp token with
      | (calls, inr v) => (calls, v)
      | (calls, inl _) =>
          (calls, Reply (Json 500 (obj [("error", text "Authentication failed")])))
      end
  end.

(** [allowedRoles.includes(req.user.role)] *)
Definition includes (allowedRoles : list string) (role : value) : bool :=
  existsb (is_string role) allowedRoles.

(** [authorize(allowedRoles)]: [None] is [next()]. *)
Definition authorize (allowedRoles : list string) (user : value) :
  option response :=
  if negb (truthy user) || negb (includes allowedRoles (member user (str "role")))
  then
    Some (Json 403
            (obj [("error",
                   JStr (str "Unauthorized: Role '"
                         ++ String_ (or_else (opt_member user (str "role"))
                                       (text "unknown"))
                         ++ str "' does not have access."))]))
  else None.

End Middleware.

(* ================================================================== *)
(** * controllers/issueController: the routes that read *)
(* ================================================================== *)

Module Listing.

Import Store IssueController.
Local Open Scope string_scope.
Local Open Scope list_scope.

(** ** GET /issues/:id *)

(** The lookup is the [.select('*').eq('id', id)] of the store, without
    [.single()]. *)
Definition getIssueById_try (w : World) (req : request) : action response :=
  let id := params_id req in
  fetched <~ store w rows (SelectIssue id) ;;
  let issues := data fetched in
  if truthy (error fetched) then
    pure (Json 500
            (obj [("error", text "Database error");
                  ("details", member (error fetched) (str "message"))]))
  else if no_rows issues then
    pure (Json 404 (obj [("error", text "Issue not found")]))
  else pure (Json 200 (first issues)).

Definition getIssueById (w : World) (req : request) (s : state) :
  response * state :=
  match getIssueById_try w req s with
  | (inr r, s') => (r, s')
  | (inl _, s') =>
      (Json 500 (obj [("error", text "Failed to fetch issue details")]), s')
  end.

(** ** The listings *)

(** The three listings only read: each takes the tables as they are and
    gives the answer. *)

(** A listing query on [issues] as the query builder sends it:
    [.select('*')], at most one [.eq(column, value)], an optional
    [.limit(n)], and [.order('created_at', { ascending: false })]. *)
Record query := {
  where_eq : option (string * value);
  at_most : option Z
}.

(** The read side of the store: how it takes a listing query, and the
    order that [created_at], newest first, puts rows in. *)
Record Reader := {
  read_fault : query -> fault;
  by_newest : list row -> list row
}.

(** [.eq(column, v)], compared as [Store.matches] compares ids. *)
Definition holds (column : string) (v : value) (r : row) : bool :=
  jeqb (String_ (lookup r (str column))) (String_ v).

(** The rows a listing query selects when the store accepts it. What a
    store serves for a negative limit is not part of this model: it
    refuses such a query through [read_fault], and here none is served. *)
Definition select (rd : Reader) (q : query) (t : tables) : list row :=
  let filtered :=
    match where_eq q with
    | Some (column, v) => filter (holds column v) (issues t)
    | None => issues t
    end in
  match at_most q with
  | None => by_newest rd filtered
  | Some n => firstn (Z.to_nat n) (by_newest rd filtered)
  end.

Definition run_query (rd : Reader) (q : query) (t : tables) : throws reply :=
  match read_fault rd q with
  | Healthy => ret (rows (select rd q t))
  | Rejects e => ret (refused e)
  | Crashes e => throw e
  end.

(** The digits [parseInt] reads in radix 10 and 16. *)
Definition digit_in (radix : Z) (c : N) : option Z :=
  (if (48 <=? c) && (c <=? 57) then Some (Z.of_N (c - 48))
   else if Z.eqb radix 16 && (97 <=? c) && (c <=? 102) then Some (Z.of_N (c - 87))
   else if Z.eqb radix 16 && (65 <=? c) && (c <=? 70) then Some (Z.of_N (c - 55))
   else None)%N.

(** The value of the longest run of digits at the head of [s], on top of
    [acc]; [seen] tells whether a digit was read. *)
Fixpoint digits_in (radix : Z) (s : jstring) (acc : Z) (seen : bool) : option Z :=
  match s with
  | [] => if seen then Some acc else None
  | c :: r =>
      match digit_in radix c with
      | Some d => digits_in radix r (radix * acc + d)%Z true
      | None => if seen then Some acc else None
      end
  end.

(** [parseInt(v)] with no radix given; [None] is [NaN]. Leading white
    space is skipped, a sign is read, [0x] or [0X] switches to radix 16,
    and the digits that follow are read up to the first other character.
    The result is exact, as [parseInt]'s is up to 2^53. *)
Definition parseInt (v : value) : option Z :=
  let s := trimStart (String_ v) in
  let '(negative, s1) :=
    match s with
    | c :: r =>
        if (c =? 45)%N then (true, r)
        else if (c =? 43)%N then (false, r) else (false, s)
    | [] => (false, s)
    end in
  let '(radix, s2) :=
    match s1 with
    | z :: x :: r =>
        if ((z =? 48) && ((x =? 120) || (x =? 88)))%N then (16%Z, r)
        else (10%Z, s1)
    | _ => (10%Z, s1)
    end in
  match digits_in radix s2 0 false with
  | Some n => Some (if negative then (- n)%Z else n)
  | None => None
  end.

(** [res.json(issues)] after [if (error) throw error], inside a [try]
    whose [catch] answers 500 with [message]. *)
Definition listing (message : string) (r : throws reply) : response :=
  match r with
  | inl _ => Json 500 (obj [("error", text message)])
  | inr answer =>
      if truthy (error answer) then Json 500 (obj [("error", text message)])
      else Json 200 (data answer)
  end.

(** ** GET /issues/my *)

Definition my_query (id : value) : query :=
  {| where_eq := Some ("citizen_id", id); at_most := None |}.

Definition getMyIssues (rd : Reader) (req : request) (t : tables) : response :=
  listing "Failed to fetch issues"
    (id <- read (user req) (str "id") ;; run_query rd (my_query id) t).

(** ** GET /issues/authority *)

(** [limit && !isNaN(parseInt(limit))] decides whether [.limit] is
    called, and with what. *)
Definition authority_query (limit : value) : query :=
  {| where_eq := None;
     at_most := if truthy limit then parseInt limit else None |}.

(** [req.query.limit] is given beside the request. *)
Definition getAuthorityIssues (rd : Reader) (limit : value) (t : tables) :
  response :=
  listing "Failed to fetch issues" (run_query rd (authority_query limit) t).

(** ** GET /issues/public *)

Definition public_query : query := {| where_eq := None; at_most := None |}.

Definition getAllIssues (rd : Reader) (t : tables) : response :=
  listing "Failed to fetch transparency wall issues" (run_query rd public_query t).

End Listing.

(* ================================================================== *)
(** * routes/issueRoutes: every route with its guards *)
(* ================================================================== *)

Module Router.

Import Store IssueController Middleware Listing.
Local Open Scope string_scope.
Local Open Scope list_scope.

(** The nine routes mounted under [/issues]: the four that read, and
    the five that write. *)
Inductive endpoint :=
| GetPublic
| GetMy
| GetAuthority
| GetById
| Write (r : route).

(** [authenticate, authorize([...])] where the route has them. *)
Definition guard (ep : endpoint) : option (list string) :=
  match ep with
  | GetPublic | GetById => None
  | GetMy | Write PostIssue => Some ["citizen"]
  | GetAuthority | Write _ => Some ["head_authority"]
  end.

(** Everything outside the process. *)
Record Service := {
  world : World;
  identity : Identity;
  reader : Reader
}.

(** The request as it arrives: the [Authorization] header, the body,
    [params.id] and [query.limit]. *)
Record inbound := {
  authorization : option jstring;
  content : props;
  path_id : value;
  query_limit : value
}.

(** What serving a request did: the answer, the controller's state, and
    the calls of the middleware. *)
Record served := {
  answer : response;
  final : state;
  asked : list Middleware.call
}.

(** The controller of a route, given the [req.user] the middleware
    attached ([undefined] on the routes without one). *)
Definition controller (sv : Service) (ep : endpoint) (i : inbound)
  (user : value) (s : state) : response * state :=
  let req := {| user := user; body := content i; params_id := path_id i |} in
  match ep with
  | GetPublic => (getAllIssues (reader sv) (db s), s)
  | GetMy => (getMyIssues (reader sv) req (db s), s)
  | GetAuthority => (getAuthorityIssues (reader sv) (query_limit i) (db s), s)
  | GetById => getIssueById (world sv) req s
  | Write r => handler r (world sv) req s
  end.

(** A route's chain: the guards in order, then the controller. *)
Definition serve (sv : Service) (ep : endpoint) (i : inbound) (t : tables) :
  served :=
  match guard ep with
  | None =>
      let '(r, s) := controller sv ep i JUndefined (start t) in
      {| answer := r; final := s; asked := [] |}
  | Some allowedRoles =>
      match authenticate (identity sv) (authorization i) with
      | (calls, Reply r) => {| answer := r; final := start t; asked := calls |}
      | (calls, Next user) =>
          match authorize allowedRoles user with
          | Some r => {| answer := r; final := start t; asked := calls |}
          | None =>
              let '(r, s) := controller sv ep i user (start t) in
              {| answer := r; final := s; asked := calls |}
          end
      end
  end.

End Router.

(* ================================================================== *)
(** * Requests in sequence, and more sample data *)
(* ================================================================== *)

Module Scenario.

Import Store IssueController Middleware Listing.
Local Open Scope string_scope.
Local Open Scope list_scope.

(** [DELETE /issues/:id] for one id after another, each on the tables
    the one before left. *)
Definition delete_each (w : World) (ids : list value) (t : tables) : tables :=
  fold_left
    (fun t id =>
       db (snd (deleteIssue w {| user := JUndefined; body := []; params_id := id |}
                  (start t))))
    ids t.

(** A store that refuses to take new issues. *)
Definition full : Backend :=
  {| fault_of := fun c =>
       match c with
       | InsertIssue _ =>
           Rejects [ (str "message", text "new row violates row-level security");
                     (str "code", text "42501") ]
       | _ => Healthy
       end;
     new_id := new_id Sample.healthy;
     created_at := created_at Sample.healthy |}.

(** An identity provider that knows one token, and a profile table that
    answers [profile] for every id. *)
Definition directory (account profile : value) : Identity :=
  {| getUser := fun token =>
       match token with
       | JStr t =>
           if jeqb t (str "tok-1") then ret (account, JNull)
           else ret (JNull, obj [("message", text "invalid JWT")])
       | _ => ret (JNull, obj [("message", text "invalid JWT")])
       end;
     fetchProfile := fun _ => ret (profile, JNull) |}.

(** An account that signed up as a citizen. *)
Definition resident : value :=
  obj [ ("id", text "u-1"); ("email", text "r@example.org");
        ("user_metadata", obj [("role", text "citizen")]) ].

(** The same account once its metadata carries what the profile says. *)
Definition promoted : value :=
  obj [ ("id", text "u-1"); ("email", text "r@example.org");
        ("user_metadata",
         obj [("role", text "head_authority"); ("department", text "road")]) ].

Definition road_head : value :=
  obj [("id", text "u-1"); ("role", text "Head-Authority"); ("department", text "road")].

Definition no_profile : value := JNull.

(** A profile whose role column holds a number. *)
Definition numbered : value := obj [("id", text "u-1"); ("role", JNum (int 2))].

(** A store that answers every listing, the latest row first. *)
Definition shelf : Reader :=
  {| read_fault := fun _ => Healthy; by_newest := @rev row |}.

Definition desk (account profile : value) : Router.Service :=
  {| Router.world := Sample.office;
     Router.identity := directory account profile;
     Router.reader := shelf |}.

(** A request that carries the known token. *)
Definition signed (content : list (string * value)) (id : string) : Router.inbound :=
  {| Router.authorization := Some (str "Bearer tok-1");
     Router.content := own_props (obj content);
     Router.path_id := text id;
     Router.query_limit := JUndefined |}.

End Scenario.

Import Store IssueController.
Local Open Scope string_scope.
Local Open Scope list_scope.

(* ================================================================== *)
(** * Proof steps *)
(* ================================================================== *)

(** Unfolds the records and the list plumbing of a handler run. *)
Ltac tidy :=
  cbn [fst snd db trace data error apply rows refused single truthy negb orb
       andb app issues issue_logs start first no_rows map] in *.

(** Case analysis on every [match] of a hypothesis, dropping the cases
    it contradicts. *)
Ltac split_match H :=
  repeat match type of H with
         | context [match ?x with _ => _ end] =>
             destruct x eqn:?; try discriminate H
         end.

(* ================================================================== *)
(** * Strings and objects *)
(* ================================================================== *)

Lemma jeqb_refl (a : jstring) : jeqb a a = true.
Proof.
  induction a as [|x a IH]; simpl; [reflexivity|].
  now rewrite N.eqb_refl, IH.
Qed.

Lemma jeqb_eq (a b : jstring) : jeqb a b = true <-> a = b.
Proof.
  split; [|intros ->; apply jeqb_refl].
  revert b; induction a as [|x a IH]; intros [|y b]; simpl; try discriminate; auto.
  intros H. apply andb_prop in H as [Hx Hr].
  apply N.eqb_eq in Hx. apply IH in Hr. congruence.
Qed.

Lemma jeqb_neq (a b : jstring) : jeqb a b = false <-> a <> b.
Proof.
  split.
  - intros H E. apply jeqb_eq in E. congruence.
  - intros H. destruct (jeqb a b) eqn:E; [|reflexivity].
    apply jeqb_eq in E. contradiction.
Qed.

Lemma jeqb_sym (a b : jstring) : jeqb a b = jeqb b a.
Proof.
  destruct (jeqb a b) eqn:E.
  - apply jeqb_eq in E. subst. symmetry. apply jeqb_refl.
  - symmetry. apply jeqb_neq. apply jeqb_neq in E. congruence.
Qed.

(* ================================================================== *)
(** * Objects and the store *)
(* ================================================================== *)

Lemma lookup_absent (ps : props) (k : jstring) :
  has_key ps k = false -> lookup ps k = JUndefined.
Proof.
  induction ps as [|[k0 v0] r IH]; simpl; [reflexivity|].
  intros H. apply orb_false_elim in H as [-> H]. auto.
Qed.

Lemma lookup_set_prop (ps : props) (k k' : jstring) (v : value) :
  lookup (set_prop ps k v) k' = if jeqb k k' then v else lookup ps k'.
Proof.
  induction ps as [|[k0 v0] r IH]; simpl; [reflexivity|].
  destruct (jeqb k0 k) eqn:E; simpl.
  - apply jeqb_eq in E. subst k0. destruct (jeqb k k'); reflexivity.
  - rewrite IH. destruct (jeqb k0 k') eqn:E0; [|reflexivity].
    apply jeqb_eq in E0. subst k0. now rewrite jeqb_sym, E.
Qed.

Create Rewrite HintDb objects.
#[local] Hint Rewrite lookup_set_prop jeqb_refl : objects.

Lemma lookup_assign_absent (q r : props) (k : jstring) :
  has_key q k = false -> lookup (assign r q) k = lookup r k.
Proof.
  unfold assign. revert r; induction q as [|[k0 v0] q IH]; simpl; intros r H;
    [reflexivity|].
  apply orb_false_elim in H as [E H].
  rewrite IH by exact H. now rewrite lookup_set_prop, E.
Qed.

Lemma has_key_to_row (p : props) (k : jstring) :
  has_key p k = false -> has_key (to_row p) k = false.
Proof.
  induction p as [|[k0 v0] r IH]; simpl; [reflexivity|].
  intros H. apply orb_false_elim in H as [E H].
  destruct (is_undefined v0); simpl; [auto|]. now rewrite E, IH.
Qed.

Lemma lookup_to_row (p : props) (k : jstring) :
  distinct_keys p = true -> lookup (to_row p) k = lookup p k.
Proof.
  induction p as [|[k0 v0] r IH]; simpl; [reflexivity|].
  intros H. apply andb_prop in H as [Hk Hd]. apply negb_true_iff in Hk.
  destruct (is_undefined v0) eqn:U; simpl.
  - rewrite IH by exact Hd.
    destruct (jeqb k0 k) eqn:E; [|reflexivity].
    apply jeqb_eq in E. subst k0.
    rewrite (lookup_absent _ _ Hk). now destruct v0.
  - now rewrite IH.
Qed.

Lemma lookup_app (a b : props) (k : jstring) :
  lookup (a ++ b) k = if has_key a k then lookup a k else lookup b k.
Proof.
  induction a as [|[k0 v0] r IH]; simpl; [reflexivity|].
  destruct (jeqb k0 k); simpl; auto.
Qed.

Lemma lookup_with_default (r : row) (k k' : jstring) (v : value) :
  jeqb k k' = false -> lookup (with_default r k v) k' = lookup r k'.
Proof.
  intros E. unfold with_default. destruct (has_key r k); [reflexivity|].
  rewrite lookup_app. simpl. rewrite E.
  destruct (has_key r k') eqn:H; [reflexivity|].
  symmetry. now apply lookup_absent.
Qed.

(** The row the store keeps answers like the payload it was sent, at
    every attribute but the two the store fills in. *)
Lemma lookup_stored (b : Backend) (t : tables) (payload : props) (k : jstring) :
  distinct_keys payload = true ->
  jeqb k_id k = false -> jeqb k_created_at k = false ->
  lookup (stored b t payload) k = lookup payload k.
Proof.
  intros D E1 E2. unfold stored.
  rewrite lookup_with_default by exact E2.
  rewrite lookup_with_default by exact E1.
  now apply lookup_to_row.
Qed.

Lemma lookup_patched_absent (patch : props) (id : value) (r : row) (k : jstring) :
  has_key patch k = false -> lookup (patched patch id r) k = lookup r k.
Proof.
  intros H. unfold patched. destruct (matches id r); [|reflexivity].
  apply lookup_assign_absent. now apply has_key_to_row.
Qed.

Lemma patched_other (patch : props) (id : value) (r : row) :
  matches id r = false -> patched patch id r = r.
Proof. unfold patched. now intros ->. Qed.

Lemma is_string_eq (v : value) (s : string) :
  is_string v s = true <-> v = text s.
Proof.
  unfold is_string, text. destruct v; try (split; [discriminate|intros [=]]).
  rewrite jeqb_eq. split; [now intros ->|now intros [=]].
Qed.

(** What one call to the store does to the handler's state. *)
Lemma store_run (w : World) (shape : list row -> reply) (c : call) (s : state) :
  store w shape c s =
  match fault_of (backend w) c with
  | Healthy =>
      (inr (shape (fst (apply (backend w) c (db s)))),
       {| db := snd (apply (backend w) c (db s)); trace := trace s ++ [Db c] |})
  | Rejects e => (inr (refused e), {| db := db s; trace := trace s ++ [Db c] |})
  | Crashes e => (inl e, {| db := db s; trace := trace s ++ [Db c] |})
  end.
Proof.
  unfold store, run. destruct (fault_of _ _); try reflexivity.
  destruct (apply _ _ _); reflexivity.
Qed.

(* ================================================================== *)
(** * JSON.parse: the fuel is enough *)
(* ================================================================== *)

Lemma skip_ws_length (s : jstring) : List.length (Json.skip_ws s) <= List.length s.
Proof.
  induction s as [|c r IH]; simpl; [lia|]. destruct (Json.is_ws c); simpl; lia.
Qed.

Lemma strip_prefix_length (p s r : jstring) :
  Json.strip_prefix p s = Some r -> List.length r + List.length p = List.length s.
Proof.
  revert s; induction p as [|x p IH]; intros [|y s]; simpl; intros H;
    try discriminate H.
  - injection H as <-. simpl. lia.
  - injection H as <-. simpl. lia.
  - destruct (x =? y)%N; [|discriminate H]. apply IH in H. lia.
Qed.

Lemma string_body_length (n : nat) :
  forall s t rest,
    List.length s <= n -> Json.string_body s = Some (t, rest) ->
    List.length rest < List.length s.
Proof.
  induction n as [|n IH]; intros s t rest Hn H.
  - destruct s; [discriminate H|simpl in Hn; lia].
  - destruct s as [|c r]; [discriminate H|]. cbn [Json.string_body] in H.
    simpl in Hn. unfold Json.push in H. split_match H;
      try (injection H as <- <-); subst; simpl in *;
      repeat match goal with
             | E : Json.string_body ?x = Some (_, ?y) |- _ =>
                 apply IH in E; [|simpl; lia]
             end; try lia.
Qed.

Lemma digits_length (s : jstring) :
  forall acc n m n' rest,
    Json.digits s acc n = (m, n', rest) -> List.length rest + n' = List.length s + n.
Proof.
  induction s as [|c r IH]; simpl; intros acc n m n' rest H.
  - injection H as <- <- <-. reflexivity.
  - destruct (Json.digit c).
    + apply IH in H. lia.
    + injection H as <- <- <-. simpl. lia.
Qed.


Ltac lengths :=
  repeat match goal with
         | E : (_, _) = (_, _) |- _ => injection E as <- <-
         | E : Some _ = Some _ |- _ => injection E as <- <-
         | E : Json.digits _ _ _ = _ |- _ => apply digits_length in E
         end; simpl in *; try lia.

Lemma int_part_length (s : jstring) (i : Z) (rest : jstring) :
  Json.int_part s = Some (i, rest) -> List.length rest < List.length s.
Proof.
  unfold Json.int_part. intros H. split_match H; injection H as <- <-; lengths.
Qed.

Lemma frac_part_length (m : Z) (s : jstring) (m' k : Z) (rest : jstring) :
  Json.frac_part m s = Some (m', k, rest) -> List.length rest <= List.length s.
Proof.
  unfold Json.frac_part. intros H. split_match H; injection H as <- <- <-; lengths.
Qed.

Lemma exp_part_length (s : jstring) (e : Z) (rest : jstring) :
  Json.exp_part s = Some (e, rest) -> List.length rest <= List.length s.
Proof.
  unfold Json.exp_part, Json.exp_digits. intros H.
  split_match H; injection H as <- <-; lengths.
Qed.

Lemma number_length (s : jstring) (x : num) (rest : jstring) :
  Json.number s = Some (x, rest) -> List.length rest < List.length s.
Proof.
  unfold Json.number. intros H.
  destruct s as [|c r]; [discriminate H|].
  destruct (c =? 45)%N; split_match H; injection H as <- <-;
    repeat match goal with
           | E : Json.int_part _ = Some _ |- _ => apply int_part_length in E
           | E : Json.frac_part _ _ = Some _ |- _ => apply frac_part_length in E
           | E : Json.exp_part _ = Some _ |- _ => apply exp_part_length in E
           end; simpl in *; lia.
Qed.

Lemma literal_length (s : jstring) (v : value) (rest : jstring) :
  Json.literal s = Some (v, rest) -> List.length rest < List.length s.
Proof.
  unfold Json.literal. intros H.
  split_match H; injection H as <- <-;
    repeat match goal with
           | E : Json.strip_prefix _ _ = Some _ |- _ => apply strip_prefix_length in E
           | E : Json.number _ = Some _ |- _ => apply number_length in E
           end; simpl in *; lia.
Qed.

(** With fuel to spare, the three parsers answer alike. *)
Lemma parse_fuel (f : nat) :
  (forall s v rest,
      Json.parse_value f s = Some (v, rest) ->
      List.length rest < List.length s
      /\ forall g, List.length s - List.length rest <= g ->
                   Json.parse_value g s = Some (v, rest))
  /\ (forall s acc v rest,
         Json.parse_members f s acc = Some (v, rest) ->
         List.length rest < List.length s
         /\ forall g, List.length s - List.length rest <= g ->
                      Json.parse_members g s acc = Some (v, rest))
  /\ (forall s acc v rest,
         Json.parse_elements f s acc = Some (v, rest) ->
         List.length rest < List.length s
         /\ forall g, List.length s - List.length rest <= g ->
                      Json.parse_elements g s acc = Some (v, rest)).
Proof.
  induction f as [|f (IHv & IHm & IHe)];
    [repeat split; intros; discriminate|].
  split; [|split].
  - intros s v rest H. cbn [Json.parse_value] in H.
    destruct s as [|c r]; [discriminate H|].
    destruct (c =? 123)%N eqn:E1.
    { destruct (Json.skip_ws r) as [|c1 r1] eqn:W; [discriminate H|].
      pose proof (skip_ws_length r) as L. rewrite W in L. simpl in L.
      destruct (c1 =? 125)%N eqn:E2.
      - injection H as <- <-. split; [cbn [List.length] in *; lia|].
        intros [|g] Hg; [cbn [List.length] in *; lia|].
        cbn [Json.parse_value]. now rewrite E1, W, E2.
      - destruct (IHm _ _ _ _ H) as [Hl Hg']. split; [cbn [List.length] in *; lia|].
        intros [|g] Hg; [cbn [List.length] in *; lia|].
        cbn [Json.parse_value]. rewrite E1, W, E2. apply Hg'. cbn [List.length] in *. lia. }
    destruct (c =? 91)%N eqn:E3.
    { destruct (Json.skip_ws r) as [|c1 r1] eqn:W; [discriminate H|].
      pose proof (skip_ws_length r) as L. rewrite W in L. simpl in L.
      destruct (c1 =? 93)%N eqn:E2.
      - injection H as <- <-. split; [cbn [List.length] in *; lia|].
        intros [|g] Hg; [cbn [List.length] in *; lia|].
        cbn [Json.parse_value]. now rewrite E1, E3, W, E2.
      - destruct (IHe _ _ _ _ H) as [Hl Hg']. split; [cbn [List.length] in *; lia|].
        intros [|g] Hg; [cbn [List.length] in *; lia|].
        cbn [Json.parse_value]. rewrite E1, E3, W, E2. apply Hg'. cbn [List.length] in *. lia. }
    destruct (c =? 34)%N eqn:E4.
    { destruct (Json.string_body r) as [[t rest']|] eqn:B; [|discriminate H].
      injection H as <- <-.
      apply (string_body_length (List.length r)) in B as L; [|lia].
      split; [cbn [List.length] in *; lia|].
      intros [|g] Hg; [cbn [List.length] in *; lia|].
      cbn [Json.parse_value]. now rewrite E1, E3, E4, B. }
    apply literal_length in H as L. split; [exact L|].
    intros [|g] Hg; [lia|].
    cbn [Json.parse_value]. now rewrite E1, E3, E4.
  - intros s acc v rest H. cbn [Json.parse_members] in H.
    destruct s as [|c r]; [discriminate H|].
    destruct (c =? 34)%N eqn:E1; [|discriminate H].
    destruct (Json.string_body r) as [[k r1]|] eqn:B; [|discriminate H].
    apply (string_body_length (List.length r)) in B as L1; [|lia].
    destruct (Json.skip_ws r1) as [|c2 r2] eqn:W1; [discriminate H|].
    pose proof (skip_ws_length r1) as L2. rewrite W1 in L2. simpl in L2.
    destruct (c2 =? 58)%N eqn:E2; [|discriminate H].
    destruct (Json.parse_value f (Json.skip_ws r2)) as [[v1 r3]|] eqn:V; [|discriminate H].
    destruct (IHv _ _ _ V) as [L3 G3].
    pose proof (skip_ws_length r2) as L4.
    destruct (Json.skip_ws r3) as [|c4 r4] eqn:W3; [discriminate H|].
    pose proof (skip_ws_length r3) as L5. rewrite W3 in L5. simpl in L5.
    destruct (c4 =? 44)%N eqn:E3.
    + destruct (IHm _ _ _ _ H) as [L6 G6].
      pose proof (skip_ws_length r4) as L7.
      split; [cbn [List.length] in *; lia|].
      intros [|g] Hg; [cbn [List.length] in *; lia|].
      cbn [Json.parse_members]. rewrite E1, B, W1, E2.
      rewrite (G3 g) by (cbn [List.length] in *; lia). rewrite W3, E3.
      apply G6. cbn [List.length] in *. lia.
    + destruct (c4 =? 125)%N eqn:E5; [|discriminate H].
      injection H as <- <-. split; [cbn [List.length] in *; lia|].
      intros [|g] Hg; [cbn [List.length] in *; lia|].
      cbn [Json.parse_members]. rewrite E1, B, W1, E2.
      rewrite (G3 g) by (cbn [List.length] in *; lia). now rewrite W3, E3, E5.
  - intros s acc v rest H. cbn [Json.parse_elements] in H.
    destruct (Json.parse_value f s) as [[v1 r1]|] eqn:V; [|discriminate H].
    destruct (IHv _ _ _ V) as [L1 G1].
    destruct (Json.skip_ws r1) as [|c r2] eqn:W1; [discriminate H|].
    pose proof (skip_ws_length r1) as L2. rewrite W1 in L2. simpl in L2.
    destruct (c =? 44)%N eqn:E1.
    + destruct (IHe _ _ _ _ H) as [L3 G3].
      pose proof (skip_ws_length r2) as L4.
      split; [cbn [List.length] in *; lia|].
      intros [|g] Hg; [cbn [List.length] in *; lia|].
      cbn [Json.parse_elements]. rewrite (G1 g) by (cbn [List.length] in *; lia).
      rewrite W1, E1. apply G3. cbn [List.length] in *. lia.
    + destruct (c =? 93)%N eqn:E2; [|discriminate H].
      injection H as <- <-. split; [cbn [List.length] in *; lia|].
      intros [|g] Hg; [cbn [List.length] in *; lia|].
      cbn [Json.parse_elements]. rewrite (G1 g) by (cbn [List.length] in *; lia).
      now rewrite W1, E1, E2.
Qed.

(** [JSON.parse] does not fail for want of fuel: a value that some amount
    of fuel finds is found with the fuel [parse] gives. *)
Lemma parse_fuel_enough (s : jstring) (f : nat) (v : value) (rest : jstring) :
  Json.parse_value f (Json.skip_ws s) = Some (v, rest) ->
  Json.parse_value (S (List.length s)) (Json.skip_ws s) = Some (v, rest).
Proof.
  intros H. destruct (parse_fuel f) as (Hv & _).
  destruct (Hv _ _ _ H) as [_ G]. apply G.
  pose proof (skip_ws_length s). lia.
Qed.

(** [JSON.parse] succeeds exactly when some amount of fuel finds a value
    that is followed by white space only. *)
Lemma parse_iff (s : jstring) (v : value) :
  Json.parse s = inr v
  <-> exists f rest,
        Json.parse_value f (Json.skip_ws s) = Some (v, rest)
        /\ Json.skip_ws rest = [].
Proof.
  unfold Json.parse. split.
  - intros H.
    destruct (Json.parse_value _ _) as [[v' rest]|] eqn:E; [|discriminate H].
    destruct (Json.skip_ws rest) eqn:W; [|discriminate H].
    injection H as <-. eauto.
  - intros (f & rest & E & W).
    now rewrite (parse_fuel_enough s f v rest E), W.
Qed.

(* ================================================================== *)
(** * Role normalisation *)
(* ================================================================== *)

(** C3 as worded, refuted: the wording decides the role from the lower-cased
    form with hyphens, underscores and spaces removed; [normalizeRole] also
    trims that form, so "admin" followed by a line feed is a head
    authority although its squeezed form is none of the three names. *)
Lemma normalizeRole_trailing_newline :
  Spec.role_of_squeezed (str "admin" ++ [10%N]) = str "citizen"
  /\ Auth.normalizeRole (JStr (str "admin" ++ [10%N])) = inr (str "head_authority").
Proof. split; vm_compute; reflexivity. Qed.

(** C3, amended: [normalizeRole] never throws on a string, [null] or a
    missing role, its result is [citizen] or [head_authority], and it is
    [head_authority] exactly for the strings whose lower-cased form, with
    hyphens, underscores and spaces removed and then trimmed of white
    space, is [headauthority], [authorityhead] or [admin]; the six
    examples of the specification come out as it says. *)
Theorem normalizeRole_total :
  Auth.normalizeRole JUndefined = inr (str "citizen")
  /\ Auth.normalizeRole JNull = inr (str "citizen")
  /\ (forall s, Auth.normalizeRole (JStr s) = inr (Spec.role_of_trimmed s))
  /\ (forall s, Spec.role_of_trimmed s = str "citizen"
                \/ Spec.role_of_trimmed s = str "head_authority")
  /\ (forall s, Spec.role_of_trimmed s = str "head_authority"
                <-> In (trim (Spec.squeezed s)) Spec.head_names)
  /\ Auth.normalizeRole (JStr (str "Admin")) = inr (str "head_authority")
  /\ Auth.normalizeRole (JStr (str "head-authority")) = inr (str "head_authority")
  /\ Auth.normalizeRole (JStr (str "Authority Head")) = inr (str "head_authority")
  /\ Auth.normalizeRole (JStr (str "")) = inr (str "citizen")
  /\ Auth.normalizeRole (JStr (str "resident")) = inr (str "citizen").
Proof.
  repeat split; try reflexivity.
  - intros s. unfold Auth.normalizeRole, Spec.role_of_trimmed, Spec.squeezed.
    destruct s as [|c s]; [reflexivity|].
    cbn [truthy negb existsb Spec.head_names].
    rewrite orb_false_r, orb_assoc.
    destruct (_ || _ || _); reflexivity.
  - intros s. unfold Spec.role_of_trimmed.
    destruct (existsb _ _); [right|left]; reflexivity.
  - unfold Spec.role_of_trimmed.
    destruct (existsb _ _) eqn:E; [|discriminate].
    intros _. apply existsb_exists in E as (x & Hx & Ex).
    apply jeqb_eq in Ex. now subst.
  - intros H. unfold Spec.role_of_trimmed.
    destruct (existsb _ _) eqn:E; [reflexivity|].
    assert (existsb (jeqb (trim (Spec.squeezed s))) Spec.head_names = true) as E'.
    { apply existsb_exists. eexists; split; [exact H|apply jeqb_refl]. }
    congruence.
Qed.

Lemma normalizeRole_total_witness :
  Auth.normalizeRole (JStr (str " Authority_HEAD" ++ [9%N]))
  = inr (str "head_authority").
Proof.
  destruct normalizeRole_total as (_ & _ & Hrole & _ & Hhead & _).
  rewrite Hrole. apply f_equal. apply Hhead. vm_compute. auto.
Defined.

(* ================================================================== *)
(** * The classifier *)
(* ================================================================== *)

Lemma upto_last_rbrace_none (s : jstring) :
  Gemini.upto_last_rbrace s = None -> ~ In 125%N s.
Proof.
  induction s as [|c r IH]; simpl; [tauto|].
  destruct (Gemini.upto_last_rbrace r); [discriminate|].
  destruct (N.eqb_spec c 125); [discriminate|].
  intros _ [H|H]; [congruence|now apply IH].
Qed.

Lemma upto_last_rbrace_last (s p : jstring) :
  Gemini.upto_last_rbrace s = Some p ->
  exists mid post, p = mid ++ [125%N] /\ s = p ++ post /\ ~ In 125%N post.
Proof.
  revert p; induction s as [|c r IH]; simpl; intros p H; [discriminate|].
  destruct (Gemini.upto_last_rbrace r) as [q|] eqn:E.
  - injection H as <-. destruct (IH q eq_refl) as (mid & post & -> & -> & Hn).
    exists (c :: mid), post. repeat split; auto.
  - destruct (N.eqb_spec c 125) as [->|_]; [|discriminate].
    injection H as <-. exists [], r. repeat split.
    now apply upto_last_rbrace_none.
Qed.

(** The regular expression is greedy: the match runs from the first
    opening brace of the reply to its last closing brace. *)
Lemma match_braces_greedy (reply m : jstring) :
  Gemini.match_braces reply = Some m ->
  exists pre mid post,
    reply = pre ++ m ++ post /\ m = 123%N :: mid ++ [125%N]
    /\ ~ In 123%N pre /\ ~ In 125%N post.
Proof.
  induction reply as [|c r IH]; simpl; intros H; [discriminate|].
  destruct (N.eqb_spec c 123) as [->|Hc].
  - destruct (Gemini.upto_last_rbrace r) as [p|] eqn:E; [|discriminate].
    injection H as <-.
    destruct (upto_last_rbrace_last _ _ E) as (mid & post & -> & -> & Hn).
    exists [], mid, post. repeat split; auto.
  - destruct (IH H) as (pre & mid & post & -> & -> & Hp & Hn).
    exists (c :: pre), mid, post. repeat split; auto.
    intros [Hin|Hin]; [congruence|contradiction].
Qed.

(** The body of [classifyIssue] for a description that has a text. *)
Lemma classify_try_described (up : Gemini.Upstream) (imageUrl description : value) :
  printable description = true ->
  Gemini.classify_try up imageUrl description
  = (imageResp <- Gemini.fetch up imageUrl ;;
     text <- Gemini.generateContent up (Gemini.prompt (String_ description))
               imageResp ;;
     match Gemini.match_braces text with
     | None => throw (Error "Could not parse AI response as JSON")
     | Some jsonMatch =>
         resultJson <- Json.parse jsonMatch ;;
         err <- read resultJson Gemini.k_error ;;
         if truthy err then ret (Gemini.not_civic err) else ret resultJson
     end).
Proof.
  intros H. unfold Gemini.classify_try, ToString. now rewrite H.
Qed.

(** A description without a text ends in the fallback before anything is
    fetched or asked. *)
Lemma classifyIssue_undescribed (up : Gemini.Upstream) (imageUrl description : value) :
  printable description = false ->
  Gemini.classifyIssue up imageUrl description = inr Gemini.fallback.
Proof.
  intros H. unfold Gemini.classifyIssue, Gemini.classify_try, ToString.
  now rewrite H.
Qed.

(** [classifyIssue] never throws. *)
Lemma classifyIssue_returns (up : Gemini.Upstream) (imageUrl description : value) :
  exists r, Gemini.classifyIssue up imageUrl description = inr r.
Proof.
  unfold Gemini.classifyIssue, try_catch.
  destruct (Gemini.classify_try _ _ _); eauto.
Qed.

(** Where each result of [classifyIssue] comes from. *)
Lemma classifyIssue_cases (up : Gemini.Upstream) (imageUrl description r : value) :
  Gemini.classifyIssue up imageUrl description = inr r ->
  r = Gemini.fallback
  \/ exists bytes reply jsonMatch o,
       Gemini.fetch up imageUrl = inr bytes
       /\ Gemini.generateContent up (Gemini.prompt (String_ description)) bytes
          = inr reply
       /\ Gemini.match_braces reply = Some jsonMatch
       /\ Json.parse jsonMatch = inr o
       /\ (truthy (member o Gemini.k_error) = true
           /\ r = Gemini.not_civic (member o Gemini.k_error)
           \/ truthy (member o Gemini.k_error) = false /\ r = o).
Proof.
  destruct (printable description) eqn:Pd;
    [|rewrite (classifyIssue_undescribed _ _ _ Pd); intros [= <-]; now left].
  unfold Gemini.classifyIssue. rewrite (classify_try_described _ _ _ Pd).
  unfold try_catch, bind, ret.
  destruct (Gemini.fetch _ _) as [e|bytes] eqn:F; [intros [= <-]; now left|].
  destruct (Gemini.generateContent _ _ _) as [e|reply] eqn:G;
    [intros [= <-]; now left|].
  destruct (Gemini.match_braces reply) as [m|] eqn:M; [|intros [= <-]; now left].
  destruct (Json.parse m) as [e|o] eqn:P; [intros [= <-]; now left|].
  unfold read.
  destruct (nullish o) eqn:Nu; [intros [= <-]; now left|]. cbn [throw ret].
  destruct (truthy (member o Gemini.k_error)) eqn:T; intros [= <-]; right;
    exists bytes, reply, m, o; intuition.
Qed.

(** The not-a-civic-issue signal: a reply whose object carries a truthy
    [error] is answered with the special category and authority and that
    [error], which is truthy in the result as well. *)
Lemma classifyIssue_signal (up : Gemini.Upstream) (imageUrl description : value)
  (bytes reply jsonMatch : jstring) (o : value) :
  printable description = true ->
  Gemini.fetch up imageUrl = inr bytes ->
  Gemini.generateContent up (Gemini.prompt (String_ description)) bytes
  = inr reply ->
  Gemini.match_braces reply = Some jsonMatch ->
  Json.parse jsonMatch = inr o ->
  truthy (member o Gemini.k_error) = true ->
  Gemini.classifyIssue up imageUrl description
  = inr (JObj [ (str "issue_type", JStr (str "Not a civic issue"));
                (str "assigned_authority", JStr (str "none"));
                (str "error", member o Gemini.k_error) ])
  /\ truthy (member (Gemini.not_civic (member o Gemini.k_error)) Gemini.k_error)
     = true.
Proof.
  intros Pd F G M P T.
  unfold Gemini.classifyIssue. rewrite (classify_try_described _ _ _ Pd).
  unfold try_catch, bind, ret.
  rewrite F, G, M, P. unfold read.
  destruct o; try discriminate T. cbn [nullish ret throw]. rewrite T.
  split; [reflexivity|exact T].
Qed.

Lemma fallback_follows_rules : Spec.follows_rules Gemini.fallback.
Proof.
  intros c d Hin Hc. simpl in Hin.
  repeat (destruct Hin as [[= <- <-]|Hin]; [try discriminate Hc; try reflexivity|]).
  contradiction.
Qed.

Lemma not_civic_follows_rules (e : value) : Spec.follows_rules (Gemini.not_civic e).
Proof.
  intros c d Hin Hc. simpl in Hin.
  repeat (destruct Hin as [[= <- <-]|Hin]; [discriminate Hc|]).
  contradiction.
Qed.

(** The classifier's results are objects: reading a property of one does
    not throw. *)
Lemma read_member (v : value) (k : jstring) :
  nullish v = false -> read v k = inr (member v k).
Proof. unfold read. now intros ->. Qed.

(** The members of an object parse to an object. *)
Lemma parse_members_object (fuel : nat) :
  forall s acc v rest,
    Json.parse_members fuel s acc = Some (v, rest) -> exists ps, v = JObj ps.
Proof.
  induction fuel as [|f IH]; intros s acc v rest H; [discriminate H|].
  cbn [Json.parse_members] in H. split_match H.
  - eapply IH; eassumption.
  - injection H as <- _. eauto.
Qed.

(** [JSON.parse] of a text that opens with a brace gives an object. *)
Lemma parse_brace_object (m : jstring) (o : value) :
  Json.parse (123%N :: m) = inr o -> exists ps, o = JObj ps.
Proof.
  unfold Json.parse. cbn [Json.skip_ws]. change (Json.is_ws 123) with false.
  cbn [Json.parse_value]. change (123 =? 123)%N with true. cbv iota.
  intros H. split_match H. injection H as <-.
  match goal with E : _ = Some (v, _) |- _ => rename E into Hv end.
  split_match Hv.
  - injection Hv as <- _. eauto.
  - eapply parse_members_object; eassumption.
Qed.

(** [classifyIssue] always returns an object. *)
Lemma classifyIssue_object (up : Gemini.Upstream) (imageUrl description r : value) :
  Gemini.classifyIssue up imageUrl description = inr r -> exists ps, r = JObj ps.
Proof.
  intros H.
  destruct (classifyIssue_cases _ _ _ _ H)
    as [->|(bytes & reply & m & o & _ & _ & M & P & [[_ ->]|[_ ->]])].
  - unfold Gemini.fallback. eauto.
  - unfold Gemini.not_civic. eauto.
  - destruct (match_braces_greedy _ _ M) as (pre & mid & post & _ & -> & _).
    eapply parse_brace_object; eassumption.
Qed.

(** C1 as worded, refuted: a reply that pairs [pothole] with [garbage] is
    returned as it is, against the rule [pothole -> road]. *)
Lemma classifyIssue_returns_mislabelled :
  Gemini.classifyIssue (Sample.answering Sample.mislabelled_reply)
    (IssueController.text "https://cdn.example/p.jpg")
    (IssueController.text "hole in the road")
  = inr (IssueController.obj [ ("issue_type", IssueController.text "pothole");
                               ("assigned_authority", IssueController.text "garbage") ]%string)
  /\ ~ Spec.follows_rules
         (IssueController.obj [ ("issue_type", IssueController.text "pothole");
                                ("assigned_authority", IssueController.text "garbage") ]%string).
Proof.
  split; [vm_compute; reflexivity|].
  intros H. specialize (H "pothole"%string "road"%string).
  assert (In ("pothole"%string, "road"%string) Gemini.authority_rules) as Hin
    by (simpl; auto).
  specialize (H Hin eq_refl). vm_compute in H. discriminate H.
Qed.

(** C1, amended: the category-to-department rules are stated in the
    prompt and not applied by [classifyIssue], which returns the object of
    the model's reply unchanged when it carries no [error], whatever
    department the object pairs with its category; every result is the
    fallback, the not-a-civic-issue result or such an object, so a result
    pairs the five categories with the departments of the rules whenever
    the object of the reply does, and the fallback result ([other],
    [head]) and the not-a-civic-issue result always do. *)
Theorem classifyIssue_rules_from_reply (up : Gemini.Upstream)
  (imageUrl description : value) :
  (forall rule, In rule Gemini.authority_rules ->
     exists pre post,
       Gemini.prompt (String_ description) = pre ++ Gemini.rule_line rule ++ post)
  /\ (forall bytes reply jsonMatch o,
        printable description = true ->
        Gemini.fetch up imageUrl = inr bytes ->
        Gemini.generateContent up (Gemini.prompt (String_ description)) bytes
        = inr reply ->
        Gemini.match_braces reply = Some jsonMatch ->
        Json.parse jsonMatch = inr o ->
        truthy (member o Gemini.k_error) = false ->
        Gemini.classifyIssue up imageUrl description = inr o)
  /\ (forall r,
        Gemini.classifyIssue up imageUrl description = inr r ->
        r = Gemini.fallback
        \/ (exists e, r = Gemini.not_civic e)
        \/ exists bytes reply jsonMatch,
             Gemini.fetch up imageUrl = inr bytes
             /\ Gemini.generateContent up
                  (Gemini.prompt (String_ description)) bytes = inr reply
             /\ Gemini.match_braces reply = Some jsonMatch
             /\ Json.parse jsonMatch = inr r)
  /\ ((forall bytes reply jsonMatch o,
          Gemini.fetch up imageUrl = inr bytes ->
          Gemini.generateContent up (Gemini.prompt (String_ description)) bytes
          = inr reply ->
          Gemini.match_braces reply = Some jsonMatch ->
          Json.parse jsonMatch = inr o ->
          Spec.follows_rules o) ->
      forall r,
        Gemini.classifyIssue up imageUrl description = inr r ->
        Spec.follows_rules r)
  /\ Spec.follows_rules Gemini.fallback
  /\ (forall e, Spec.follows_rules (Gemini.not_civic e)).
Proof.
  split; [|split; [|split; [|split; [|split]]]].
  - intros rule Hin. unfold Gemini.prompt.
    apply in_split in Hin as (l1 & l2 & ->).
    rewrite map_app, concat_app. cbn [map List.concat].
    exists (Gemini.prompt_head ++ String_ description ++ Gemini.prompt_tasks
            ++ List.concat (map Gemini.rule_line l1)),
           (List.concat (map Gemini.rule_line l2) ++ Gemini.prompt_tail).
    now rewrite <- !app_assoc.
  - intros bytes reply m o Pd F G M P T.
    unfold Gemini.classifyIssue. rewrite (classify_try_described _ _ _ Pd).
    unfold try_catch, bind, ret. rewrite F, G, M, P.
    destruct (match_braces_greedy _ _ M) as (pre & mid & post & _ & -> & _).
    destruct (parse_brace_object _ _ P) as [ps ->].
    rewrite read_member by reflexivity. now rewrite T.
  - intros r Hr.
    destruct (classifyIssue_cases _ _ _ _ Hr)
      as [->|(bytes & reply & m & o & F & G & M & P & [[T ->]|[T ->]])].
    + now left.
    + right; left; eauto.
    + right; right. exists bytes, reply, m. auto.
  - intros Hreply r Hr.
    destruct (classifyIssue_cases _ _ _ _ Hr)
      as [->|(bytes & reply & m & o & F & G & M & P & [[T ->]|[T ->]])].
    + apply fallback_follows_rules.
    + apply not_civic_follows_rules.
    + eapply Hreply; eauto.
  - apply fallback_follows_rules.
  - apply not_civic_follows_rules.
Qed.

Lemma classifyIssue_rules_from_reply_witness :
  Gemini.classifyIssue (Sample.answering Sample.pothole_reply)
    (IssueController.text "https://cdn.example/p.jpg")
    (IssueController.text "hole in the road")
  = inr (IssueController.obj [ ("issue_type", IssueController.text "pothole");
                               ("assigned_authority", IssueController.text "road") ]%string)
  /\ Gemini.classifyIssue (Sample.answering Sample.mislabelled_reply)
       (IssueController.text "https://cdn.example/p.jpg")
       (IssueController.text "hole in the road")
     = inr (IssueController.obj [ ("issue_type", IssueController.text "pothole");
                                  ("assigned_authority", IssueController.text "garbage") ]%string).
Proof.
  split.
  - apply (proj1 (proj2 (classifyIssue_rules_from_reply
                           (Sample.answering Sample.pothole_reply)
                           (IssueController.text "https://cdn.example/p.jpg")
                           (IssueController.text "hole in the road")))
             [255%N; 216%N; 255%N] Sample.pothole_reply Sample.pothole_reply);
      vm_compute; reflexivity.
  - apply (proj1 (proj2 (classifyIssue_rules_from_reply
                           (Sample.answering Sample.mislabelled_reply)
                           (IssueController.text "https://cdn.example/p.jpg")
                           (IssueController.text "hole in the road")))
             [255%N; 216%N; 255%N] Sample.mislabelled_reply
             Sample.mislabelled_reply);
      vm_compute; reflexivity.
Defined.

(** C2: when the image download rejects, the model call rejects, or no
    stretch of the reply parses as a JSON object, [classifyIssue] returns
    (it does not throw) exactly
    [{issue_type: "other", assigned_authority: "head"}]. *)
Theorem classifyIssue_fallback (up : Gemini.Upstream)
  (imageUrl description : value) :
  ((exists e, Gemini.fetch up imageUrl = inl e)
   \/ (exists bytes e,
         Gemini.fetch up imageUrl = inr bytes
         /\ Gemini.generateContent up (Gemini.prompt (String_ description)) bytes
            = inl e)
   \/ (exists bytes reply,
         Gemini.fetch up imageUrl = inr bytes
         /\ Gemini.generateContent up (Gemini.prompt (String_ description)) bytes
            = inr reply
         /\ ~ Spec.parseable_object_in reply)) ->
  Gemini.classifyIssue up imageUrl description
  = inr (JObj [ (str "issue_type", JStr (str "other"));
                (str "assigned_authority", JStr (str "head")) ]).
Proof.
  destruct (printable description) eqn:Pd;
    [|intros _; exact (classifyIssue_undescribed _ _ _ Pd)].
  unfold Gemini.classifyIssue. rewrite (classify_try_described _ _ _ Pd).
  unfold try_catch, bind, ret.
  intros [(e & F)|[(bytes & e & F & G)|(bytes & reply & F & G & Hno)]];
    rewrite F; try reflexivity; rewrite G; try reflexivity.
  destruct (Gemini.match_braces reply) as [m|] eqn:M; [|reflexivity].
  destruct (Json.parse m) as [e|o] eqn:P; [reflexivity|].
  exfalso. apply Hno.
  destruct (match_braces_greedy _ _ M) as (pre & mid & post & -> & -> & _).
  now exists pre, (mid ++ [125%N]), post, o.
Qed.

Lemma classifyIssue_fallback_witness :
  Gemini.classifyIssue (Sample.answering (str "Sorry, I cannot see an image."))
    (IssueController.text "https://cdn.example/p.jpg")
    (IssueController.text "hole in the road")
  = inr (JObj [ (str "issue_type", JStr (str "other"));
                (str "assigned_authority", JStr (str "head")) ]).
Proof.
  apply classifyIssue_fallback. right; right.
  exists [255%N; 216%N; 255%N], (str "Sorry, I cannot see an image.").
  split; [reflexivity|]. split; [reflexivity|].
  intros (pre & m & post & o & E & _).
  assert (In 123%N (str "Sorry, I cannot see an image.")) as Hin.
  { rewrite E. apply in_or_app. right. now left. }
  simpl in Hin.
  repeat (destruct Hin as [Hin|Hin]; [discriminate Hin|]).
  contradiction.
Defined.

(* ================================================================== *)
(** * Creating an issue *)
(* ================================================================== *)

(** C6: a request in which [image_url], [description], [location_lat] or
    [location_lng] is missing is answered 400 with the message
    [Missing field: f], [f] being the first missing one in that order;
    nothing else happens: the classifier is not invoked and the store is
    not called (the state, trace included, is as before). *)
Theorem createIssue_missing_field (w : World) (req : request) (s : state)
  (f : string) :
  Spec.first_missing Spec.required (body req) = Some f ->
  createIssue w req s
  = (Json 400 (obj [("error", text (String.append "Missing field: " f))]), s).
Proof.
  unfold createIssue, createIssue_try, Spec.required. cbn [Spec.first_missing].
  destruct (negb (truthy (field (body req) "image_url")));
    [intros [= <-]; reflexivity|].
  destruct (negb (truthy (field (body req) "description")));
    [intros [= <-]; reflexivity|].
  destruct (nullish (field (body req) "location_lat"));
    [intros [= <-]; reflexivity|].
  destruct (nullish (field (body req) "location_lng"));
    [intros [= <-]; reflexivity|].
  discriminate.
Qed.

Lemma createIssue_missing_field_witness :
  createIssue Sample.office
    {| user := Sample.citizen;
       body := [ (str "image_url", text "https://cdn.example/p.jpg");
                 (str "location_lng", JNum (int 77)) ];
       params_id := JUndefined |}
    (start Sample.empty)
  = (Json 400 (obj [("error", text "Missing field: description")]),
     start Sample.empty).
Proof.
  apply (createIssue_missing_field
           Sample.office
           {| user := Sample.citizen;
              body := [ (str "image_url", text "https://cdn.example/p.jpg");
                        (str "location_lng", JNum (int 77)) ];
              params_id := JUndefined |}
           (start Sample.empty) "description").
  reflexivity.
Defined.

(** A request that lacks one of the four keys altogether has a first
    missing field. *)
Lemma absent_key_is_missing (b : props) (k : string) :
  In k ["image_url"; "description"; "location_lat"; "location_lng"] ->
  has_key b (str k) = false ->
  Spec.first_missing Spec.required b <> None.
Proof.
  intros Hin Hk. apply lookup_absent in Hk.
  unfold Spec.required. cbn [Spec.first_missing]. unfold field.
  simpl in Hin.
  destruct Hin as [<-|[<-|[<-|[<-|[]]]]]; rewrite Hk; cbn [truthy negb nullish];
    repeat match goal with
           | |- context [if ?c then _ else _] => destruct c
           end; discriminate.
Qed.

(** [String(v).trim() !== ''] returns for a value that has a text, and
    throws otherwise. *)
Lemma has_text_value (v : value) :
  has_text v
  = if printable v then inr (not_blank v)
    else inl (TypeError (str "Cannot convert object to primitive value")).
Proof.
  unfold has_text, ToString, not_blank, bind, ret, throw.
  destruct (printable v); reflexivity.
Qed.

(** When [isManual] returns, and what. *)
Lemma isManual_value (f d t : value) :
  isManual f d t
  = if is_true f
       || (negb (truthy d) || printable d)
          && (Spec.supplied d || negb (truthy t) || printable t)
    then inr (is_true f || Spec.supplied d || Spec.supplied t)
    else inl (TypeError (str "Cannot convert object to primitive value")).
Proof.
  unfold isManual, Spec.supplied, bind, ret. rewrite !has_text_value.
  destruct (is_true f), (truthy d), (printable d), (not_blank d), (truthy t),
    (printable t), (not_blank t); reflexivity.
Qed.

Section Classified.

(** A request that reached the classifier, and the classifier's answer. *)
Variables (w : World) (req : request) (s : state) (ai : value).
Hypothesis reached : Spec.reaches_classifier req = true.
Hypothesis classified :
  Gemini.classifyIssue (upstream w) (field (body req) "image_url")
    (field (body req) "description") = inr ai.

(** What [createIssue] does once the classifier has answered [ai]. *)
Lemma createIssue_classified :
  createIssue_try w req s
  = (aiError <~ lift (read ai (str "error")) ;;
     if truthy aiError then
       pure (Json 400
               (obj [("error", text "Submission not related to civic issues");
                     ("details", aiError)]))
     else
       isManual <~
         lift (isManual (field (body req) "is_manual_submission")
                 (field (body req) "manual_department")
                 (field (body req) "manual_issue_type")) ;;
       lat <~ lift (Number_ w (field (body req) "location_lat")) ;;
       lng <~ lift (Number_ w (field (body req) "location_lng")) ;;
       let payload :=
         issueData (opt_member (user req) (str "id"))
           (field (body req) "image_url") (field (body req) "description")
           lat lng
           (or_else (field (body req) "manual_issue_type")
              (member ai (str "issue_type")))
           (or_else (field (body req) "manual_department")
              (member ai (str "assigned_authority")))
           ai isManual in
       inserted <~ store w rows (InsertIssue payload) ;;
       if truthy (error inserted) then
         pure (Json 400
                 (obj [("error", text "Database insert failed");
                       ("details", member (error inserted) (str "message"));
                       ("hint", member (error inserted) (str "hint"));
                       ("code", member (error inserted) (str "code"))]))
       else if no_rows (data inserted) then
         raise (Error "Failed to save issue - no data returned")
       else pure (Json 201 (first (data inserted))))
      {| db := db s;
         trace := trace s ++ [Classifier (field (body req) "image_url")
                                (field (body req) "description")] |}.
Proof.
  generalize reached.
  unfold Spec.reaches_classifier, Spec.required, createIssue_try.
  cbn [Spec.first_missing].
  destruct (negb (truthy (field (body req) "image_url"))); [discriminate|].
  destruct (negb (truthy (field (body req) "description"))); [discriminate|].
  destruct (nullish (field (body req) "location_lat")); [discriminate|].
  destruct (nullish (field (body req) "location_lng")); [discriminate|].
  intros ->. cbn [negb].
  unfold and_then at 1. unfold classify. rewrite classified. reflexivity.
Qed.

(** The state after a request whose classification carries an [error]:
    the classifier was called and nothing else. *)
Lemma createIssue_refused :
  truthy (member ai Gemini.k_error) = true ->
  snd (createIssue w req s)
  = {| db := db s;
       trace := trace s ++ [Classifier (field (body req) "image_url")
                              (field (body req) "description")] |}.
Proof.
  intros Herr. unfold createIssue. rewrite createIssue_classified.
  unfold and_then, lift. rewrite read_member.
  - change (str "error") with Gemini.k_error. now rewrite Herr.
  - destruct ai; try reflexivity; discriminate Herr.
Qed.

(** C5: for a request that reached the classifier, when the
    classifier's result [ai] carries an [error] (a truthy one, as the
    not-a-civic-issue signal always does), the request is answered 400
    with the fixed message and the classifier's error as [details], and
    the store is not called: the tables are as before and the trace holds
    the classifier call only. *)
Theorem createIssue_not_civic :
  truthy (member ai Gemini.k_error) = true ->
  createIssue w req s
  = (Json 400
       (obj [("error", text "Submission not related to civic issues");
             ("details", member ai Gemini.k_error)]),
     {| db := db s;
        trace := trace s ++ [Classifier (field (body req) "image_url")
                               (field (body req) "description")] |}).
Proof.
  intros Herr. unfold createIssue. rewrite createIssue_classified.
  unfold and_then, lift. rewrite read_member.
  - change (str "error") with Gemini.k_error. now rewrite Herr.
  - destruct ai; try reflexivity; discriminate Herr.
Qed.

(** What [createIssue] does with a classification that carries no
    [error]: a conversion that throws ends the request before the
    insert; otherwise the insert is issued, and the store decides. *)
Lemma createIssue_civic :
  truthy (member ai Gemini.k_error) = false ->
  let payload := Spec.payload_of w req ai in
  let classified_only :=
    trace s ++ [ Classifier (field (body req) "image_url")
                   (field (body req) "description") ] in
  let called := classified_only ++ [Db (InsertIssue payload)] in
  createIssue w req s
  = if Spec.converts req then
      match fault_of (backend w) (InsertIssue payload) with
      | Healthy =>
          (Json 201 (JObj (stored (backend w) (db s) payload)),
           {| db := {| issues := issues (db s) ++ [stored (backend w) (db s) payload];
                       issue_logs := issue_logs (db s) |};
              trace := called |})
      | Rejects e =>
          (Json 400
             (obj [("error", text "Database insert failed");
                   ("details", lookup e (str "message"));
                   ("hint", lookup e (str "hint"));
                   ("code", lookup e (str "code"))]),
           {| db := db s; trace := called |})
      | Crashes e =>
          (Json (status_or_500 e)
             (obj [("error", text "Failed to report issue");
                   ("details", or_else (ex_message e) (text "Internal Server Error"));
                   ("hint", ex_hint e);
                   ("code", ex_code e)]),
           {| db := db s; trace := called |})
      end
    else
      (Json 500
         (obj [("error", text "Failed to report issue");
               ("details", text "Cannot convert object to primitive value");
               ("hint", JUndefined);
               ("code", JUndefined)]),
       {| db := db s; trace := classified_only |}).
Proof.
  intros Herr payload classified_only called.
  unfold createIssue. rewrite createIssue_classified.
  unfold and_then at 1. unfold lift.
  rewrite read_member
    by (destruct (classifyIssue_object _ _ _ _ classified) as [ps ->];
        reflexivity).
  change (str "error") with Gemini.k_error. rewrite Herr.
  unfold and_then at 1. rewrite isManual_value. unfold Spec.converts.
  destruct (is_true _ || _); cbn [andb]; [|reflexivity].
  unfold and_then at 1. unfold Number_ at 1.
  destruct (printable (field (body req) "location_lat")); cbn [andb];
    [|reflexivity].
  unfold and_then at 1. unfold Number_.
  destruct (printable (field (body req) "location_lng")); [|reflexivity].
  cbn [ret]. cbv zeta.
  fold (Spec.manual req). fold (Spec.payload_of w req ai). fold payload.
  unfold and_then. rewrite store_run. subst called classified_only.
  destruct (fault_of _ _); tidy; cbn [member]; reflexivity.
Qed.

(** The same, for a request whose conversions return. *)
Lemma createIssue_accepted :
  truthy (member ai Gemini.k_error) = false ->
  Spec.converts req = true ->
  let payload := Spec.payload_of w req ai in
  let called :=
    trace s ++ [ Classifier (field (body req) "image_url")
                   (field (body req) "description");
                 Db (InsertIssue payload) ] in
  createIssue w req s
  = match fault_of (backend w) (InsertIssue payload) with
    | Healthy =>
        (Json 201 (JObj (stored (backend w) (db s) payload)),
         {| db := {| issues := issues (db s) ++ [stored (backend w) (db s) payload];
                     issue_logs := issue_logs (db s) |};
            trace := called |})
    | Rejects e =>
        (Json 400
           (obj [("error", text "Database insert failed");
                 ("details", lookup e (str "message"));
                 ("hint", lookup e (str "hint"));
                 ("code", lookup e (str "code"))]),
         {| db := db s; trace := called |})
    | Crashes e =>
        (Json (status_or_500 e)
           (obj [("error", text "Failed to report issue");
                 ("details", or_else (ex_message e) (text "Internal Server Error"));
                 ("hint", ex_hint e);
                 ("code", ex_code e)]),
         {| db := db s; trace := called |})
    end.
Proof.
  intros Herr Hconv payload called. rewrite (createIssue_civic Herr), Hconv.
  cbv zeta. subst called. rewrite <- !app_assoc. reflexivity.
Qed.

(** C4, amended: a request that reached the classifier, whose result
    [ai] carries no [error], reaches the insert exactly when the
    conversions on the way return ([String] of a manual field, [Number]
    of a coordinate: they throw for an object with an own [toString]);
    otherwise it is answered 500 and the store is not called. For every
    request that reaches the insert, a [manual_department] given with text
    that is not blank is stored as [department] and [assigned_authority]
    in place of the classifier's department, and a [manual_issue_type]
    given with text that is not blank is stored as [issue_type] in place
    of the classifier's category; where the manual field is absent or
    empty the classifier's value is stored (the [is_manual_submission]
    flag changes neither). The stored [ai_analysis] is the classifier's
    result together with a boolean [is_manual], which is true exactly
    when [is_manual_submission] is [true] or a manual field was given
    with text that is not blank. *)
Theorem createIssue_manual_override :
  truthy (member ai Gemini.k_error) = false ->
  (Spec.converts req = false ->
   createIssue w req s
   = (Json 500
        (obj [("error", text "Failed to report issue");
              ("details", text "Cannot convert object to primitive value");
              ("hint", JUndefined);
              ("code", JUndefined)]),
      {| db := db s;
         trace := trace s ++ [ Classifier (field (body req) "image_url")
                                 (field (body req) "description") ] |}))
  /\ (Spec.converts req = true ->
      exists payload analysis,
        trace (snd (createIssue w req s))
        = trace s ++ [ Classifier (field (body req) "image_url")
                         (field (body req) "description");
                       Db (InsertIssue payload) ]
        /\ lookup payload (str "ai_analysis") = JObj analysis
        /\ lookup analysis (str "is_manual")
           = JBool (is_true (field (body req) "is_manual_submission")
                    || Spec.supplied (field (body req) "manual_department")
                    || Spec.supplied (field (body req) "manual_issue_type"))
        /\ (forall k, k <> str "is_manual" -> lookup analysis k = member ai k)
        /\ (Spec.supplied (field (body req) "manual_department") = true ->
            lookup payload (str "department") = field (body req) "manual_department"
            /\ lookup payload (str "assigned_authority")
               = field (body req) "manual_department")
        /\ (truthy (field (body req) "manual_department") = false ->
            lookup payload (str "department") = member ai Gemini.k_assigned_authority
            /\ lookup payload (str "assigned_authority")
               = member ai Gemini.k_assigned_authority)
        /\ (Spec.supplied (field (body req) "manual_issue_type") = true ->
            lookup payload (str "issue_type") = field (body req) "manual_issue_type")
        /\ (truthy (field (body req) "manual_issue_type") = false ->
            lookup payload (str "issue_type") = member ai Gemini.k_issue_type)
        /\ (fault_of (backend w) (InsertIssue payload) = Healthy ->
            exists stored_row,
              issues (db (snd (createIssue w req s))) = issues (db s) ++ [stored_row]
              /\ Forall (fun k => lookup stored_row (str k) = lookup payload (str k))
                   ["department"; "assigned_authority"; "issue_type"; "ai_analysis"])).
Proof.
  intros Herr. split.
  { intros Hconv. rewrite (createIssue_civic Herr), Hconv. reflexivity. }
  intros Hconv. rewrite (createIssue_accepted Herr Hconv).
  destruct (classifyIssue_object _ _ _ _ classified) as [ps Eai].
  exists (Spec.payload_of w req ai).
  exists (set_prop (own_props ai) (str "is_manual") (JBool (Spec.manual req))).
  split; [|split; [|split; [|split; [|split; [|split; [|split; [|split]]]]]]].
  - destruct (fault_of _ _); reflexivity.
  - reflexivity.
  - autorewrite with objects. reflexivity.
  - intros k Hk. rewrite lookup_set_prop.
    apply not_eq_sym in Hk. apply jeqb_neq in Hk. now rewrite Hk, Eai.
  - unfold Spec.supplied. intros H. apply andb_prop in H as [H _].
    apply andb_prop in H as [H _].
    change (lookup (Spec.payload_of w req ai) (str "department"))
      with (or_else (field (body req) "manual_department")
              (member ai (str "assigned_authority"))).
    change (lookup (Spec.payload_of w req ai) (str "assigned_authority"))
      with (or_else (field (body req) "manual_department")
              (member ai (str "assigned_authority"))).
    unfold or_else. now rewrite H.
  - intros H.
    change (lookup (Spec.payload_of w req ai) (str "department"))
      with (or_else (field (body req) "manual_department")
              (member ai (str "assigned_authority"))).
    change (lookup (Spec.payload_of w req ai) (str "assigned_authority"))
      with (or_else (field (body req) "manual_department")
              (member ai (str "assigned_authority"))).
    unfold or_else. now rewrite H.
  - unfold Spec.supplied. intros H. apply andb_prop in H as [H _].
    apply andb_prop in H as [H _].
    change (lookup (Spec.payload_of w req ai) (str "issue_type"))
      with (or_else (field (body req) "manual_issue_type")
              (member ai (str "issue_type"))).
    unfold or_else. now rewrite H.
  - intros H.
    change (lookup (Spec.payload_of w req ai) (str "issue_type"))
      with (or_else (field (body req) "manual_issue_type")
              (member ai (str "issue_type"))).
    unfold or_else. now rewrite H.
  - intros ->. cbn [snd db issues]. eexists. split; [reflexivity|].
    repeat constructor; apply lookup_stored; reflexivity.
Qed.

End Classified.

Lemma createIssue_not_civic_witness :
  createIssue (Sample.world (Sample.answering Sample.rejected_reply) Sample.healthy)
    (Sample.report []) (start Sample.empty)
  = (Json 400
       (obj [("error", text "Submission not related to civic issues");
             ("details", text "Image/description not related to civic issues.")]),
     {| db := Sample.empty;
        trace := [Classifier (text "https://cdn.example/p.jpg")
                    (text "hole in the road")] |}).
Proof.
  apply (createIssue_not_civic
           (Sample.world (Sample.answering Sample.rejected_reply) Sample.healthy)
           (Sample.report []) (start Sample.empty)
           (Gemini.not_civic
              (text "Image/description not related to civic issues."))).
  - reflexivity.
  - vm_compute. reflexivity.
  - reflexivity.
Defined.

(** C4 as worded, refuted: a [manual_department] of one space is a
    non-empty override and is stored as the department in place of the
    classifier's [road], yet [is_manual] is stored as [false]. *)
Lemma createIssue_blank_department_unflagged :
  Spec.nonempty (text " ") = true
  /\ exists payload analysis,
       trace (snd (createIssue
                     Sample.office
                     (Sample.report [("manual_department", text " ")])
                     (start Sample.empty)))
       = [ Classifier (text "https://cdn.example/p.jpg") (text "hole in the road");
           Db (InsertIssue payload) ]
       /\ lookup payload (str "department") = text " "
       /\ lookup payload (str "ai_analysis") = JObj analysis
       /\ lookup analysis (str "assigned_authority") = text "road"
       /\ lookup analysis (str "is_manual") = JBool false.
Proof.
  split; [reflexivity|].
  eexists. eexists. vm_compute. repeat split; reflexivity.
Qed.

Lemma createIssue_manual_override_witness :
  (exists payload analysis,
      trace (snd (createIssue
                    Sample.office
                    (Sample.report [("manual_department", text "drainage")])
                    (start Sample.empty)))
      = [ Classifier (text "https://cdn.example/p.jpg") (text "hole in the road");
          Db (InsertIssue payload) ]
      /\ lookup payload (str "department") = text "drainage"
      /\ lookup payload (str "ai_analysis") = JObj analysis
      /\ lookup analysis (str "assigned_authority") = text "road"
      /\ lookup analysis (str "is_manual") = JBool true)
  /\ createIssue Sample.office
       (Sample.report [("manual_department", obj [("toString", JNum (int 1))])])
       (start Sample.one_issue)
     = (Json 500
          (obj [("error", text "Failed to report issue");
                ("details", text "Cannot convert object to primitive value");
                ("hint", JUndefined);
                ("code", JUndefined)]),
        {| db := Sample.one_issue;
           trace := [ Classifier (text "https://cdn.example/p.jpg")
                        (text "hole in the road") ] |}).
Proof.
  split.
  - destruct (proj2 (createIssue_manual_override
                       Sample.office
                       (Sample.report [("manual_department", text "drainage")])
                       (start Sample.empty)
                       (obj [("issue_type", text "pothole");
                             ("assigned_authority", text "road")])
                       eq_refl eq_refl eq_refl) eq_refl)
      as (payload & analysis & Htrace & Hblob & Hflag & Hrest & Hdep & _).
    exists payload, analysis.
    split; [exact Htrace|]. split; [apply Hdep; reflexivity|].
    split; [exact Hblob|]. split; [|exact Hflag].
    rewrite Hrest; [reflexivity|discriminate].
  - apply (proj1 (createIssue_manual_override
                    Sample.office
                    (Sample.report
                       [("manual_department", obj [("toString", JNum (int 1))])])
                    (start Sample.one_issue)
                    (obj [("issue_type", text "pothole");
                          ("assigned_authority", text "road")])
                    eq_refl eq_refl eq_refl)).
    reflexivity.
Defined.

(* ================================================================== *)
(** * Updating a status *)
(* ================================================================== *)

(** Every path of [updateStatus], from a fresh request state. *)
Lemma updateStatus_run (w : World) (req : request) (t : tables) :
  let id := params_id req in
  let status := field (body req) "status" in
  let url := field (body req) "resolved_image_url" in
  let patch := updateData w status url in
  let t1 := {| issues := map (patched patch id) (issues t);
               issue_logs := issue_logs t |} in
  let failed e :=
    Json 500
      (obj [("error", text "Failed to update status");
            ("details", or_else (ex_message e) (text "Internal Server Error"))]) in
  let not_found := Json 404 (obj [("error", text "Issue not found")]) in
  updateStatus w req (start t)
  = match read (user req) (str "id") with
    | inl e => (failed e, start t)
    | inr changed_by =>
        if negb (valid_status status) then
          (Json 400 (obj [("error", text "Invalid status")]), start t)
        else
          let s1 := {| db := t; trace := [Db (SelectIssue id)] |} in
          match fault_of (backend w) (SelectIssue id) with
          | Crashes e => (failed e, s1)
          | Rejects _ => (not_found, s1)
          | Healthy =>
              match filter (matches id) (issues t) with
              | [old] =>
                  let s2 := {| db := t1;
                               trace := [ Db (SelectIssue id);
                                          Db (UpdateIssue patch id) ] |} in
                  match fault_of (backend w) (UpdateIssue patch id) with
                  | Crashes e =>
                      (failed e, {| db := t; trace := trace s2 |})
                  | Rejects e =>
                      (Json 500
                         (obj [("error", text "Database update failed");
                               ("message", lookup e (str "message"))]),
                       {| db := t; trace := trace s2 |})
                  | Healthy =>
                      let entry :=
                        logData id (lookup old (str "status")) status
                          changed_by url in
                      (Json 200 (JObj (patched patch id old)),
                       {| db :=
                            match fault_of (backend w) (InsertLog entry) with
                            | Healthy =>
                                {| issues := issues t1;
                                   issue_logs :=
                                     issue_logs t
                                     ++ [stored (backend w) t1 entry] |}
                            | _ => t1
                            end;
                          trace := trace s2 ++ [Db (InsertLog entry)] |})
                  end
              | _ => (not_found, s1)
              end
          end
    end.
Proof.
  intros id status url patch t1 failed not_found.
  unfold updateStatus, updateStatus_try, and_then, lift, swallow, pure.
  fold id status url.
  destruct (read (user req) (str "id")) as [e|changed_by]; [reflexivity|].
  destruct (negb (valid_status status)); [reflexivity|].
  rewrite store_run.
  destruct (fault_of _ (SelectIssue id)); tidy; try reflexivity.
  destruct (filter (matches id) (issues t)) as [|old [|]] eqn:Sel; tidy;
    try reflexivity.
  fold patch. rewrite store_run.
  destruct (fault_of _ (UpdateIssue patch id)); tidy; try reflexivity.
  rewrite Sel. tidy. rewrite read_member by reflexivity. cbn [member].
  rewrite store_run. tidy. fold t1.
  destruct (fault_of _ (InsertLog _)); reflexivity.
Qed.

(** What [updateData] holds. *)
Lemma updateData_fields (w : World) (status url : value) :
  let patch := updateData w status url in
  lookup patch (str "status") = status
  /\ has_key patch (str "resolved_image_url") = resolving status url
  /\ has_key patch (str "resolved_at") = resolving status url
  /\ (resolving status url = true ->
      lookup patch (str "resolved_image_url") = url
      /\ lookup patch (str "resolved_at") = JStr (now w))
  /\ (forall k, existsb (jeqb k) Spec.status_keys = false -> has_key patch k = false)
  /\ (resolving status url = false ->
      forall k, jeqb k (str "status") = false -> has_key patch k = false).
Proof.
  unfold updateData. destruct (resolving status url); cbn zeta;
    (split; [reflexivity|]); (split; [reflexivity|]); (split; [reflexivity|]);
    (split; [try discriminate; now intros _|]); split.
  - intros k H. cbn [existsb Spec.status_keys] in H.
    apply orb_false_elim in H as [H1 H]. apply orb_false_elim in H as [H2 H].
    apply orb_false_elim in H as [H3 _].
    cbn [has_key]. now rewrite (jeqb_sym _ k), H1, (jeqb_sym _ k), H2, (jeqb_sym _ k), H3.
  - discriminate.
  - intros k H. cbn [existsb Spec.status_keys] in H.
    apply orb_false_elim in H as [H1 _].
    cbn [has_key]. now rewrite (jeqb_sym _ k), H1.
  - intros _ k H. cbn [has_key]. now rewrite (jeqb_sym _ k), H.
Qed.

Lemma Forall2_map_right {A : Type} (P : A -> A -> Prop) (f : A -> A) (l : list A) :
  (forall x, P x (f x)) -> Forall2 P l (map f l).
Proof. intros H. induction l; simpl; constructor; auto. Qed.

Lemma Forall2_same {A : Type} (P : A -> A -> Prop) (l : list A) :
  (forall x, P x x) -> Forall2 P l l.
Proof. intros H. induction l; constructor; auto. Qed.

Lemma Forall_Forall2 {A : Type} (P : A -> Prop) (R : A -> A -> Prop)
  (l l' : list A) :
  (forall x y, P x -> R x y -> P y) ->
  Forall P l -> Forall2 R l l' -> Forall P l'.
Proof.
  intros H Hl H2. induction H2 as [|x y l l' Hxy _ IH]; [constructor|].
  inversion Hl; subst. constructor; eauto.
Qed.

(** The issue rows after [updateStatus] are the rows before, or the rows
    before with the patch merged into those of the given id. *)
Lemma updateStatus_issues (w : World) (req : request) (t : tables) :
  let patch :=
    updateData w (field (body req) "status")
      (field (body req) "resolved_image_url") in
  let after := snd (updateStatus w req (start t)) in
  issues (db after) = issues t
  \/ issues (db after) = map (patched patch (params_id req)) (issues t).
Proof.
  intros patch after. subst after. rewrite updateStatus_run. cbv zeta.
  repeat match goal with
         | |- context [match ?x with _ => _ end] => destruct x
         end; cbn [snd db issues start]; auto.
Qed.

(** What a status update may change in the issue rows: in the rows of
    the given id the attributes its patch names, and nothing else. *)
Lemma updateStatus_rows (w : World) (req : request) (t : tables) :
  let status := field (body req) "status" in
  let url := field (body req) "resolved_image_url" in
  Forall2
    (fun old new =>
       Spec.same_outside
         (if resolving status url then Spec.status_keys else [str "status"])
         old new
       /\ (matches (params_id req) old = false -> new = old))
    (issues t) (issues (db (snd (updateStatus w req (start t))))).
Proof.
  intros status url.
  destruct (updateData_fields w status url) as (_ & _ & _ & _ & Hout & Hno).
  assert (forall k,
             existsb (jeqb k)
               (if resolving status url then Spec.status_keys else [str "status"])
             = false ->
             has_key (updateData w status url) k = false) as Hkeys.
  { intros k Hk. destruct (resolving status url).
    - now apply Hout.
    - apply Hno; [reflexivity|]. cbn [existsb] in Hk.
      now apply orb_false_elim in Hk as [-> _]. }
  destruct (updateStatus_issues w req t) as [E|E]; cbv zeta in E; rewrite E.
  - apply Forall2_same. intros r. split; [now intros k _|reflexivity].
  - apply Forall2_map_right. intros r. split.
    + intros k Hk. apply lookup_patched_absent. now apply Hkeys.
    + apply patched_other.
Qed.

(** C10: a status update leaves every attribute of every issue row as it
    was, except [status] and, when the update resolves with an image,
    [resolved_image_url] and [resolved_at]; rows of another id are not
    touched at all. In particular [citizen_id], [image_url],
    [description], [location_lat], [location_lng], [issue_type],
    [assigned_authority], [department], [ai_analysis] and [created_at]
    are as before. *)
Theorem updateStatus_frame (w : World) (req : request) (t : tables) :
  let status := field (body req) "status" in
  let url := field (body req) "resolved_image_url" in
  let after := snd (updateStatus w req (start t)) in
  Forall2
    (fun old new =>
       Spec.same_outside
         (if resolving status url then Spec.status_keys else [str "status"])
         old new
       /\ Forall (fun k => lookup new (str k) = lookup old (str k))
            [ "citizen_id"; "image_url"; "description"; "location_lat";
              "location_lng"; "issue_type"; "assigned_authority"; "department";
              "ai_analysis"; "created_at" ]
       /\ (matches (params_id req) old = false /\ new = old
           \/ matches (params_id req) old = true))
    (issues t) (issues (db after)).
Proof.
  intros status url after.
  eapply Forall2_impl; [|exact (updateStatus_rows w req t)].
  cbv zeta. fold status url. intros old new [Hsame Hother].
  split; [exact Hsame|]. split.
  - repeat constructor; apply Hsame; destruct (resolving status url); reflexivity.
  - destruct (matches (params_id req) old); [now right|left; auto].
Qed.

Lemma updateStatus_frame_witness :
  exists row,
    issues (db (snd (updateStatus Sample.office
                       (Sample.status_change "i-1"
                          [ ("status", text "resolved");
                            ("resolved_image_url", text "https://cdn.example/fixed.jpg") ])
                       (start Sample.one_issue)))) = [row]
    /\ lookup row (str "department") = text "road"
    /\ lookup row (str "citizen_id") = text "u-1"
    /\ lookup row (str "description") = text "hole in the road".
Proof.
  pose proof (updateStatus_frame Sample.office
                (Sample.status_change "i-1"
                   [ ("status", text "resolved");
                     ("resolved_image_url", text "https://cdn.example/fixed.jpg") ])
                Sample.one_issue) as F.
  cbv zeta in F.
  destruct (issues (db (snd (updateStatus _ _ _)))) as [|row [|]] eqn:E;
    try (vm_compute in E; discriminate E).
  exists row. split; [reflexivity|].
  change (issues Sample.one_issue) with [Sample.an_issue "i-1" "reported"] in F.
  apply Forall2_cons_iff in F as [(Hsame & _) _].
  repeat split; (rewrite Hsame; [reflexivity|vm_compute; reflexivity]).
Defined.

(** The store calls of a status update that are updates: none, or the one
    that sends [updateData] for the given id. *)
Lemma updateStatus_updates (w : World) (req : request) (t : tables) :
  let patch :=
    updateData w (field (body req) "status")
      (field (body req) "resolved_image_url") in
  let after := snd (updateStatus w req (start t)) in
  filter Spec.is_update (trace after) = []
  \/ filter Spec.is_update (trace after)
     = [Db (UpdateIssue patch (params_id req))].
Proof.
  intros patch after. subst after. rewrite updateStatus_run. cbv zeta.
  repeat match goal with
         | |- context [match ?x with _ => _ end] => destruct x
         end; cbn [snd trace start filter Spec.is_update app]; auto.
Qed.

(** C7: the one write of a status update carries [resolved_image_url]
    and [resolved_at] together or not at all, and carries them only when
    the new status is [resolved] and an image reference is given. With an
    image reference both are set in that write ([resolved_at] to the
    current time); without one the write has neither, and every row keeps
    the [resolved_at] and [resolved_image_url] it had. *)
Theorem updateStatus_resolution_fields (w : World) (req : request) (t : tables)
  (patch : props) (id : value) :
  let status := field (body req) "status" in
  let url := field (body req) "resolved_image_url" in
  let after := snd (updateStatus w req (start t)) in
  In (Db (UpdateIssue patch id)) (trace after) ->
  filter Spec.is_update (trace after) = [Db (UpdateIssue patch id)]
  /\ lookup patch (str "status") = status
  /\ has_key patch (str "resolved_image_url") = has_key patch (str "resolved_at")
  /\ (has_key patch (str "resolved_at") = true ->
      status = text "resolved" /\ truthy url = true)
  /\ (status = text "resolved" -> truthy url = true ->
      lookup patch (str "resolved_image_url") = url
      /\ lookup patch (str "resolved_at") = JStr (now w))
  /\ (truthy url = false ->
      has_key patch (str "resolved_image_url") = false
      /\ has_key patch (str "resolved_at") = false
      /\ Forall2
           (fun old new =>
              lookup new (str "resolved_at") = lookup old (str "resolved_at")
              /\ lookup new (str "resolved_image_url")
                 = lookup old (str "resolved_image_url"))
           (issues t) (issues (db after))).
Proof.
  intros status url after Hin.
  assert (patch = updateData w status url
          /\ filter Spec.is_update (trace after) = [Db (UpdateIssue patch id)])
    as [-> Hone].
  { assert (In (Db (UpdateIssue patch id)) (filter Spec.is_update (trace after)))
      as Hf by (apply filter_In; split; [exact Hin|reflexivity]).
    destruct (updateStatus_updates w req t) as [E|E]; fold after in E;
      rewrite E in Hf |- *; cbn [In] in Hf; [contradiction|].
    destruct Hf as [[= <- <-]|[]]. split; reflexivity. }
  destruct (updateData_fields w status url) as (Hs & Hu & Ha & Hset & _ & _).
  cbv zeta in Hs, Hu, Ha, Hset.
  split; [exact Hone|]. split; [exact Hs|]. split; [now rewrite Hu, Ha|].
  split; [|split].
  - rewrite Ha. unfold resolving. intros H. apply andb_prop in H as [H1 H2].
    apply is_string_eq in H1. now split.
  - intros E T. apply Hset. unfold resolving. rewrite T.
    apply andb_true_intro. split; [now apply is_string_eq|reflexivity].
  - intros T.
    assert (resolving status url = false) as R
      by (unfold resolving; rewrite T; apply andb_false_r).
    rewrite Hu, Ha, R. split; [reflexivity|]. split; [reflexivity|].
    pose proof (updateStatus_rows w req t) as F. cbv zeta in F.
    fold status url in F. fold after in F. rewrite R in F.
    eapply Forall2_impl; [|exact F].
    intros old new (Hsame & _). split; apply Hsame; reflexivity.
Qed.

Lemma updateStatus_resolution_fields_witness :
  exists patch,
    filter Spec.is_update
      (trace (snd (updateStatus Sample.office
                     (Sample.status_change "i-1"
                        [ ("status", text "resolved");
                          ("resolved_image_url", text "https://cdn.example/fixed.jpg") ])
                     (start Sample.one_issue))))
    = [Db (UpdateIssue patch (text "i-1"))]
    /\ lookup patch (str "resolved_image_url") = text "https://cdn.example/fixed.jpg"
    /\ lookup patch (str "resolved_at") = JStr (str "2024-01-02T03:04:05.000Z").
Proof.
  exists (updateData Sample.office
            (text "resolved") (text "https://cdn.example/fixed.jpg")).
  destruct (updateStatus_resolution_fields
              Sample.office
              (Sample.status_change "i-1"
                 [ ("status", text "resolved");
                   ("resolved_image_url", text "https://cdn.example/fixed.jpg") ])
              Sample.one_issue
              (updateData Sample.office
                 (text "resolved") (text "https://cdn.example/fixed.jpg"))
              (text "i-1"))
    as (Hone & _ & _ & _ & Hset & _).
  - vm_compute. right. left. reflexivity.
  - split; [exact Hone|]. apply Hset; reflexivity.
Defined.

(** A status update answers 200 exactly on the path that found the one
    issue and had its update accepted. *)
Lemma updateStatus_ok_inv (w : World) (req : request) (t : tables)
  (payload : value) (after : state) :
  let id := params_id req in
  let status := field (body req) "status" in
  let url := field (body req) "resolved_image_url" in
  let patch := updateData w status url in
  updateStatus w req (start t) = (Json 200 payload, after) ->
  exists old changed_by,
    read (user req) (str "id") = inr changed_by
    /\ valid_status status = true
    /\ fault_of (backend w) (SelectIssue id) = Healthy
    /\ filter (matches id) (issues t) = [old]
    /\ fault_of (backend w) (UpdateIssue patch id) = Healthy
    /\ payload = JObj (patched patch id old)
    /\ after
       = {| db :=
              match
                fault_of (backend w)
                  (InsertLog (logData id (lookup old (str "status")) status
                                changed_by url))
              with
              | Healthy =>
                  {| issues := map (patched patch id) (issues t);
                     issue_logs :=
                       issue_logs t
                       ++ [stored (backend w)
                             {| issues := map (patched patch id) (issues t);
                                issue_logs := issue_logs t |}
                             (logData id (lookup old (str "status")) status
                                changed_by url)] |}
              | _ => {| issues := map (patched patch id) (issues t);
                        issue_logs := issue_logs t |}
              end;
            trace :=
              [ Db (SelectIssue id); Db (UpdateIssue patch id);
                Db (InsertLog (logData id (lookup old (str "status")) status
                                 changed_by url)) ] |}.
Proof.
  intros id status url patch. rewrite updateStatus_run. cbv zeta.
  fold id status url. fold patch.
  destruct (read (user req) (str "id")) as [e|changed_by]; [discriminate|].
  destruct (valid_status status); [|discriminate]. cbn [negb].
  destruct (fault_of _ (SelectIssue id)); try discriminate.
  destruct (filter (matches id) (issues t)) as [|old [|]]; try discriminate.
  destruct (fault_of _ (UpdateIssue patch id)); try discriminate.
  intros [= <- <-]. exists old, changed_by. repeat split; reflexivity.
Qed.

(** C8: a status update that succeeds has issued exactly one write to
    [issue_logs], whose entry records the issue, the old status, the new
    status, the acting user and, when resolving with an image, the image
    reference. The answer does not depend on how the store takes that
    write: refused or failed, the answer is the same success. When the
    store accepts the write the log table grows by exactly that entry;
    otherwise it is unchanged. *)
Theorem updateStatus_logs_once (w : World) (req : request) (t : tables)
  (payload : value) (after : state) :
  let id := params_id req in
  let status := field (body req) "status" in
  let url := field (body req) "resolved_image_url" in
  updateStatus w req (start t) = (Json 200 payload, after) ->
  exists old entry,
    filter (matches id) (issues t) = [old]
    /\ entry
       = [ (str "issue_id", id);
           (str "old_status", lookup old (str "status"));
           (str "new_status", status);
           (str "changed_by", member (user req) (str "id")) ]
         ++ (if is_string status "resolved" && truthy url
             then [(str "resolved_image_url", url)] else [])
    /\ filter Spec.is_log_write (trace after) = [Db (InsertLog entry)]
    /\ (forall f,
          fst (updateStatus (Spec.with_log_fault f w) req (start t))
          = Json 200 payload)
    /\ (fault_of (backend w) (InsertLog entry) = Healthy ->
        exists logged,
          issue_logs (db after) = issue_logs t ++ [logged]
          /\ Forall (fun k => lookup logged (str k) = lookup entry (str k))
               [ "issue_id"; "old_status"; "new_status"; "changed_by";
                 "resolved_image_url" ])
    /\ (fault_of (backend w) (InsertLog entry) <> Healthy ->
        issue_logs (db after) = issue_logs t).
Proof.
  intros id status url Hok.
  destruct (updateStatus_ok_inv w req t payload after Hok)
    as (old & changed_by & Hu & Hv & Hs & Hsel & Hupd & -> & ->).
  fold id status url in Hu, Hv, Hs, Hsel, Hupd |- *.
  assert (changed_by = member (user req) (str "id")) as ->.
  { unfold read in Hu. destruct (nullish (user req)); [discriminate|].
    now injection Hu as <-. }
  exists old, (logData id (lookup old (str "status")) status
                 (member (user req) (str "id")) url).
  split; [exact Hsel|]. split; [reflexivity|]. split; [reflexivity|].
  split; [|split].
  - intros f. rewrite updateStatus_run. cbv zeta. fold id status url.
    rewrite Hu, Hv. cbn [negb].
    change (fault_of (backend (Spec.with_log_fault f w)) (SelectIssue id))
      with (fault_of (backend w) (SelectIssue id)).
    rewrite Hs, Hsel.
    change (updateData (Spec.with_log_fault f w) status url)
      with (updateData w status url).
    change (fault_of (backend (Spec.with_log_fault f w))
              (UpdateIssue (updateData w status url) id))
      with (fault_of (backend w) (UpdateIssue (updateData w status url) id)).
    rewrite Hupd. reflexivity.
  - intros ->. cbn [db issue_logs]. eexists. split; [reflexivity|].
    unfold logData.
    destruct (resolving status url);
      repeat constructor; apply lookup_stored; reflexivity.
  - intros Hf. cbn [db].
    destruct (fault_of _ (InsertLog _)); [contradiction| |]; reflexivity.
Qed.

Lemma updateStatus_logs_once_witness :
  fst (updateStatus
         (Spec.with_log_fault (Crashes (Error "connection reset"))
            Sample.office)
         (Sample.status_change "i-1" [("status", text "in_progress")])
         (start Sample.one_issue))
  = fst (updateStatus Sample.office
           (Sample.status_change "i-1" [("status", text "in_progress")])
           (start Sample.one_issue)).
Proof.
  destruct (updateStatus_logs_once
              Sample.office
              (Sample.status_change "i-1" [("status", text "in_progress")])
              Sample.one_issue
              (match
                  fst (updateStatus Sample.office
                         (Sample.status_change "i-1"
                            [("status", text "in_progress")])
                         (start Sample.one_issue))
                with Json _ p => p | Sent _ => JUndefined end)
              (snd (updateStatus Sample.office
                      (Sample.status_change "i-1" [("status", text "in_progress")])
                      (start Sample.one_issue))))
    as (old & entry & _ & _ & _ & Hany & _ & _).
  - vm_compute. reflexivity.
  - rewrite (Hany (Crashes (Error "connection reset"))). vm_compute. reflexivity.
Defined.

(* ================================================================== *)
(** * The department and its duplicate *)
(* ================================================================== *)

(** A request that does not reach the classifier leaves the state as it
    was. *)
Lemma createIssue_turned_away (w : World) (req : request) (s : state) :
  Spec.reaches_classifier req = false -> snd (createIssue w req s) = s.
Proof.
  unfold Spec.reaches_classifier, Spec.required, createIssue, createIssue_try.
  cbn [Spec.first_missing].
  destruct (negb (truthy (field (body req) "image_url"))); [reflexivity|].
  destruct (negb (truthy (field (body req) "description"))); [reflexivity|].
  destruct (nullish (field (body req) "location_lat")); [reflexivity|].
  destruct (nullish (field (body req) "location_lng")); [reflexivity|].
  now intros ->.
Qed.

(** The state after [createIssue]: no store call, or the one insert of
    [issueData]. *)
Lemma createIssue_state (w : World) (req : request) (t : tables) :
  let after := snd (createIssue w req (start t)) in
  (db after = t /\ (forall c, ~ In (Db c) (trace after)))
  \/ exists ai,
       let payload := Spec.payload_of w req ai in
       (forall c, In (Db c) (trace after) -> c = InsertIssue payload)
       /\ (db after = t
           \/ db after
              = {| issues := issues t ++ [stored (backend w) t payload];
                   issue_logs := issue_logs t |}).
Proof.
  intros after. subst after.
  destruct (Spec.reaches_classifier req) eqn:R.
  - destruct (classifyIssue_returns (upstream w) (field (body req) "image_url")
                (field (body req) "description")) as [ai Hai].
    destruct (truthy (member ai Gemini.k_error)) eqn:E.
    + left. rewrite (createIssue_refused w req (start t) ai R Hai E).
      cbn [db trace start app]. split; [reflexivity|].
      intros c [H|[]]. discriminate H.
    + destruct (Spec.converts req) eqn:V.
      * right. exists ai. cbv zeta.
        rewrite (createIssue_accepted w req (start t) ai R Hai E V). cbv zeta.
        destruct (fault_of _ _); cbn [snd db trace start app]; (split; [|auto]);
          intros c [H|[H|[]]]; try discriminate H; now injection H as <-.
      * left. rewrite (createIssue_civic w req (start t) ai R Hai E), V.
        cbn [snd db trace start app]. split; [reflexivity|].
        intros c [H|[]]. discriminate H.
  - left. rewrite (createIssue_turned_away w req (start t) R).
    split; [reflexivity|]. intros c [].
Qed.

(** The state after [reassignIssue]: one update that writes the given
    value under both names. *)
Lemma reassignIssue_state (w : World) (req : request) (t : tables) :
  let v := field (body req) "assigned_authority" in
  let patch := [(str "assigned_authority", v); (str "department", v)] in
  snd (reassignIssue w req (start t))
  = {| db :=
         match fault_of (backend w) (UpdateIssue patch (params_id req)) with
         | Healthy =>
             {| issues := map (patched patch (params_id req)) (issues t);
                issue_logs := issue_logs t |}
         | _ => t
         end;
       trace := [Db (UpdateIssue patch (params_id req))] |}.
Proof.
  intros v patch.
  unfold reassignIssue, reassignIssue_try, and_then. fold v. fold patch.
  rewrite store_run.
  destruct (fault_of _ _); tidy; try reflexivity.
  destruct (truthy (error (single _))); reflexivity.
Qed.

(** A row keeps, or comes to have, a department equal to its duplicate
    when a value is written under both names. *)
Lemma patched_both_mirrored (v id : value) (r : row) :
  let patch := [(str "assigned_authority", v); (str "department", v)] in
  patched patch id r = r \/ Spec.mirrored (patched patch id r).
Proof.
  intros patch. unfold patched. destruct (matches id r); [|now left].
  subst patch. unfold to_row. cbn [filter snd].
  destruct (is_undefined v); cbn [negb]; [now left|right].
  unfold Spec.mirrored, assign. cbn [fold_left fst snd].
  autorewrite with objects. reflexivity.
Qed.

Lemma stored_issue_mirrored (w : World) (req : request) (t : tables) (ai : value) :
  Spec.mirrored (stored (backend w) t (Spec.payload_of w req ai)).
Proof.
  unfold Spec.mirrored. rewrite !lookup_stored by reflexivity. reflexivity.
Qed.

(** The issue rows after [createIssue]: the rows before, and at most one
    more, which has its department mirrored. *)
Lemma createIssue_rows (w : World) (req : request) (t : tables) :
  exists added,
    issues (db (snd (createIssue w req (start t)))) = issues t ++ added
    /\ Forall Spec.mirrored added.
Proof.
  destruct (createIssue_state w req t) as [[E _]|(ai & _ & [E|E])];
    cbv zeta in E; rewrite E.
  - exists []. now rewrite app_nil_r.
  - exists []. now rewrite app_nil_r.
  - eexists. split; [reflexivity|].
    constructor; [apply stored_issue_mirrored|constructor].
Qed.

(** The issue rows after [reassignIssue]: each is as before or has its
    department mirrored. *)
Lemma reassignIssue_rows (w : World) (req : request) (t : tables) :
  Forall2 (fun old new => new = old \/ Spec.mirrored new)
    (issues t) (issues (db (snd (reassignIssue w req (start t))))).
Proof.
  rewrite reassignIssue_state. cbv zeta. cbn [db].
  destruct (fault_of _ _); cbn [issues]; try (apply Forall2_same; now left).
  apply Forall2_map_right. intros r. apply patched_both_mirrored.
Qed.

(** The issue rows after a delete are some of the rows before. *)
Lemma deleteIssue_rows (w : World) (req : request) (t : tables) :
  incl (issues (db (snd (deleteIssue w req (start t))))) (issues t).
Proof.
  unfold deleteIssue, deleteIssue_try, and_then. rewrite store_run.
  destruct (fault_of _ _); tidy; try apply incl_refl.
  cbn [snd db issues]. apply incl_filter.
Qed.

Lemma bulkDeleteIssues_rows (w : World) (req : request) (t : tables) :
  incl (issues (db (snd (bulkDeleteIssues w req (start t))))) (issues t).
Proof.
  unfold bulkDeleteIssues, bulkDeleteIssues_try.
  destruct (field (body req) "issueIds") as [| | | | |[|id ids]|];
    try apply incl_refl.
  unfold and_then. rewrite store_run.
  destruct (fault_of _ _); tidy; try apply incl_refl.
  cbn [snd db issues]. apply incl_filter.
Qed.

(** Every route keeps the departments mirrored. *)
Lemma handler_keeps_mirrored (r : route) (w : World) (req : request) (t : tables) :
  Forall Spec.mirrored (issues t) ->
  Forall Spec.mirrored (issues (db (snd (handler r w req (start t))))).
Proof.
  intros Hall. destruct r; cbn [handler].
  - destruct (createIssue_rows w req t) as (added & -> & Hadded).
    apply Forall_app. now split.
  - eapply Forall_Forall2; [|exact Hall|exact (updateStatus_rows w req t)].
    intros old new Hold (Hsame & _). unfold Spec.mirrored in *.
    rewrite !Hsame; [exact Hold| |]; destruct (resolving _ _); reflexivity.
  - eapply Forall_Forall2; [|exact Hall|exact (reassignIssue_rows w req t)].
    intros old new Hold [->|Hnew]; assumption.
  - rewrite Forall_forall in *. intros x Hx.
    apply Hall. now apply (deleteIssue_rows w req t).
  - rewrite Forall_forall in *. intros x Hx.
    apply Hall. now apply (bulkDeleteIssues_rows w req t).
Qed.

(** C9: the two operations that write [assigned_authority] or
    [department] write the same value to both: the insert of
    [createIssue] and the update of [reassignIssue]; the update of
    [updateStatus] writes neither. So the row [createIssue] adds and every
    row [reassignIssue] changes has [department = assigned_authority], and
    so has every issue row of every table the service can bring about. *)
Theorem department_mirrored :
  (forall w req t,
      (forall payload,
          In (Db (InsertIssue payload))
            (trace (snd (createIssue w req (start t)))) ->
          has_key payload (str "department") = true
          /\ has_key payload (str "assigned_authority") = true
          /\ lookup payload (str "department")
             = lookup payload (str "assigned_authority"))
      /\ (forall patch id,
             In (Db (UpdateIssue patch id))
               (trace (snd (reassignIssue w req (start t)))) ->
             has_key patch (str "department") = true
             /\ has_key patch (str "assigned_authority") = true
             /\ lookup patch (str "department")
                = field (body req) "assigned_authority"
             /\ lookup patch (str "assigned_authority")
                = field (body req) "assigned_authority")
      /\ (forall patch id,
             In (Db (UpdateIssue patch id))
               (trace (snd (updateStatus w req (start t)))) ->
             has_key patch (str "department") = false
             /\ has_key patch (str "assigned_authority") = false)
      /\ (exists added,
             issues (db (snd (createIssue w req (start t)))) = issues t ++ added
             /\ Forall Spec.mirrored added)
      /\ Forall2 (fun old new => new = old \/ Spec.mirrored new)
           (issues t) (issues (db (snd (reassignIssue w req (start t))))))
  /\ (forall t, Spec.reachable t -> Forall Spec.mirrored (issues t)).
Proof.
  split.
  - intros w req t. split; [|split; [|split; [|split]]].
    + intros payload Hin.
      destruct (createIssue_state w req t) as [[_ Hno]|(ai & Hc & _)].
      * now apply Hno in Hin.
      * cbv zeta in Hc. apply Hc in Hin. injection Hin as ->.
        repeat split; reflexivity.
    + intros patch id Hin. rewrite reassignIssue_state in Hin. cbv zeta in Hin.
      cbn [trace In] in Hin. destruct Hin as [[= <- <-]|[]].
      repeat split; reflexivity.
    + intros patch id Hin.
      assert (In (Db (UpdateIssue patch id))
                (filter Spec.is_update
                   (trace (snd (updateStatus w req (start t))))))
        as Hf by (apply filter_In; split; [exact Hin|reflexivity]).
      destruct (updateStatus_updates w req t) as [E|E]; cbv zeta in E;
        rewrite E in Hf; cbn [In] in Hf; [contradiction|].
      destruct Hf as [[= <- <-]|[]].
      destruct (updateData_fields w (field (body req) "status")
                  (field (body req) "resolved_image_url"))
        as (_ & _ & _ & _ & Hout & _).
      split; apply Hout; reflexivity.
    + apply createIssue_rows.
    + apply reassignIssue_rows.
  - intros t Hreach. induction Hreach as [|r w req t _ IH].
    + constructor.
    + now apply handler_keeps_mirrored.
Qed.

Lemma department_mirrored_witness :
  Forall Spec.mirrored
    (issues (db (snd (reassignIssue Sample.office
                        (Sample.status_change "i-1"
                           [("assigned_authority", text "drainage")])
                        (start (db (snd (createIssue Sample.office
                                           (Sample.report [])
                                           (start Sample.empty))))))))).
Proof.
  apply (proj2 department_mirrored).
  apply (Spec.reach_step PatchReassign). apply (Spec.reach_step PostIssue).
  apply Spec.reach_empty.
Defined.

(* ================================================================== *)
(** * The classifier and the text around its answer *)
(* ================================================================== *)

Lemma upto_last_rbrace_absent (s : jstring) :
  ~ In 125%N s -> Gemini.upto_last_rbrace s = None.
Proof.
  induction s as [|c r IH]; [reflexivity|]. intros H. cbn [Gemini.upto_last_rbrace].
  rewrite IH by (intros Hin; apply H; now right).
  destruct (N.eqb_spec c 125) as [->|_]; [|reflexivity].
  exfalso. apply H. now left.
Qed.

Lemma upto_last_rbrace_spans (mid post : jstring) :
  ~ In 125%N post ->
  Gemini.upto_last_rbrace (mid ++ 125%N :: post) = Some (mid ++ [125%N]).
Proof.
  intros H. induction mid as [|c r IH]; cbn [app Gemini.upto_last_rbrace].
  - now rewrite upto_last_rbrace_absent.
  - now rewrite IH.
Qed.

(** The match is the stretch from the first opening brace to the last
    closing brace, whatever stands before and after. *)
Lemma match_braces_spans (pre mid post : jstring) :
  ~ In 123%N pre -> ~ In 125%N post ->
  Gemini.match_braces (pre ++ 123%N :: mid ++ 125%N :: post)
  = Some (123%N :: mid ++ [125%N]).
Proof.
  intros Hpre Hpost. induction pre as [|c r IH]; cbn [app Gemini.match_braces].
  - change (123 =? 123)%N with true. cbv iota.
    now rewrite upto_last_rbrace_spans.
  - destruct (N.eqb_spec c 123) as [->|_].
    + exfalso. apply Hpre. now left.
    + apply IH. intros Hin. apply Hpre. now right.
Qed.

(** X1: [classifyIssue] ignores what the model writes around the JSON
    object. A reply that wraps an object in any text without an opening
    brace before it and any text without a closing brace after it (a
    markdown fence, a sentence of introduction) is classified exactly as
    the bare object is. *)
Theorem classifyIssue_ignores_wrapping (up bare : Gemini.Upstream)
  (imageUrl description : value) (bytes pre mid post : jstring) :
  Gemini.fetch up imageUrl = inr bytes ->
  Gemini.fetch bare imageUrl = inr bytes ->
  Gemini.generateContent up (Gemini.prompt (String_ description)) bytes
  = inr (pre ++ 123%N :: mid ++ 125%N :: post) ->
  Gemini.generateContent bare (Gemini.prompt (String_ description)) bytes
  = inr (123%N :: mid ++ [125%N]) ->
  ~ In 123%N pre -> ~ In 125%N post ->
  Gemini.classifyIssue up imageUrl description
  = Gemini.classifyIssue bare imageUrl description.
Proof.
  intros F F' G G' Hpre Hpost.
  destruct (printable description) eqn:Pd;
    [|now rewrite !(classifyIssue_undescribed _ _ _ Pd)].
  unfold Gemini.classifyIssue. rewrite !(classify_try_described _ _ _ Pd).
  unfold bind. rewrite F, F', G, G'.
  rewrite (match_braces_spans pre mid post Hpre Hpost).
  change (123%N :: mid ++ [125%N]) with ([] ++ 123%N :: mid ++ 125%N :: []) at 2.
  rewrite (match_braces_spans [] mid []) by (intros []).
  reflexivity.
Qed.

Lemma classifyIssue_ignores_wrapping_witness :
  Gemini.classifyIssue (Sample.answering Sample.fenced_reply)
    (text "https://cdn.example/p.jpg") (text "hole in the road")
  = Gemini.classifyIssue (Sample.answering Sample.pothole_reply)
      (text "https://cdn.example/p.jpg") (text "hole in the road").
Proof.
  apply (classifyIssue_ignores_wrapping
           (Sample.answering Sample.fenced_reply)
           (Sample.answering Sample.pothole_reply)
           (text "https://cdn.example/p.jpg") (text "hole in the road")
           [255%N; 216%N; 255%N]
           (str "```json" ++ [10%N])
           (strq "~issue_type~: ~pothole~, ~assigned_authority~: ~road~")
           ([10%N] ++ str "```")); try reflexivity.
  - vm_compute. intuition discriminate.
  - vm_compute. intuition discriminate.
Defined.

(* ================================================================== *)
(** * Reports: what is stored, and what reading it back gives *)
(* ================================================================== *)



(** The store calls of [createIssue]: the insert of [issueData], for a
    request that reached the classifier. *)
Lemma createIssue_insert_only (w : World) (req : request) (t : tables) (c : call) :
  In (Db c) (trace (snd (createIssue w req (start t)))) ->
  Spec.reaches_classifier req = true
  /\ exists ai, c = InsertIssue (Spec.payload_of w req ai).
Proof.
  intros Hin.
  destruct (Spec.reaches_classifier req) eqn:R.
  - split; [reflexivity|].
    destruct (createIssue_state w req t) as [[_ Hno]|(ai & Hc & _)].
    + now apply Hno in Hin.
    + cbv zeta in Hc. apply Hc in Hin. eauto.
  - rewrite (createIssue_turned_away w req (start t) R) in Hin. destruct Hin.
Qed.

(** X3: [createIssue] writes nothing but the caller's own new report.
    Every store call of a request is an insert into [issues] of a record
    with exactly the ten attributes of [issueData], whose [citizen_id] is
    the id of the session (never a value of the body) and is not empty,
    whose [status] is [reported], and whose image reference and
    description are the body's. *)
Theorem createIssue_writes_own_report (w : World) (req : request) (t : tables)
  (c : call) :
  In (Db c) (trace (snd (createIssue w req (start t)))) ->
  exists payload,
    c = InsertIssue payload
    /\ map fst payload
       = map str [ "citizen_id"; "image_url"; "description"; "location_lat";
                   "location_lng"; "issue_type"; "assigned_authority";
                   "department"; "ai_analysis"; "status" ]
    /\ lookup payload (str "citizen_id") = opt_member (user req) (str "id")
    /\ truthy (lookup payload (str "citizen_id")) = true
    /\ lookup payload (str "status") = text "reported"
    /\ lookup payload (str "image_url") = field (body req) "image_url"
    /\ lookup payload (str "description") = field (body req) "description".
Proof.
  intros Hin. apply createIssue_insert_only in Hin as (R & ai & ->).
  eexists. split; [reflexivity|].
  unfold Spec.reaches_classifier in R.
  destruct (Spec.first_missing _ _); [discriminate|].
  repeat split; try reflexivity. exact R.
Qed.

Lemma createIssue_writes_own_report_witness :
  exists payload,
    InsertIssue (Spec.payload_of Sample.office
                   (Sample.report [("citizen_id", text "u-2");
                                   ("status", text "resolved")])
                   (obj [("issue_type", text "pothole");
                         ("assigned_authority", text "road")]))
    = InsertIssue payload
    /\ map fst payload
       = map str [ "citizen_id"; "image_url"; "description"; "location_lat";
                   "location_lng"; "issue_type"; "assigned_authority";
                   "department"; "ai_analysis"; "status" ]
    /\ lookup payload (str "citizen_id") = text "u-1"
    /\ truthy (lookup payload (str "citizen_id")) = true
    /\ lookup payload (str "status") = text "reported"
    /\ lookup payload (str "image_url") = text "https://cdn.example/p.jpg"
    /\ lookup payload (str "description") = text "hole in the road".
Proof.
  apply (createIssue_writes_own_report Sample.office
           (Sample.report [("citizen_id", text "u-2"); ("status", text "resolved")])
           Sample.empty).
  vm_compute. right. left. reflexivity.
Defined.

(** Every path of [getIssueById]. *)
Lemma getIssueById_run (w : World) (req : request) (s : state) :
  let id := params_id req in
  Listing.getIssueById w req s
  = (match fault_of (backend w) (SelectIssue id) with
     | Healthy =>
         match filter (matches id) (issues (db s)) with
         | [] => Json 404 (obj [("error", text "Issue not found")])
         | r :: _ => Json 200 (JObj r)
         end
     | Rejects e =>
         Json 500
           (obj [("error", text "Database error");
                 ("details", lookup e (str "message"))])
     | Crashes _ => Json 500 (obj [("error", text "Failed to fetch issue details")])
     end,
     {| db := db s; trace := trace s ++ [Db (SelectIssue id)] |}).
Proof.
  intros id. unfold Listing.getIssueById, Listing.getIssueById_try, and_then.
  fold id. rewrite store_run.
  destruct (fault_of _ _); tidy; try reflexivity.
  destruct (filter (matches id) (issues (db s))); reflexivity.
Qed.

Lemma filter_none {A : Type} (f : A -> bool) (l : list A) :
  (forall x, In x l -> f x = false) -> filter f l = [].
Proof.
  induction l as [|x l IH]; [reflexivity|]. intros H. cbn [filter].
  rewrite (H x) by (now left). apply IH. intros y Hy. apply H. now right.
Qed.

(** The session of a request that reached the classifier is not [null]
    or [undefined]. *)
Lemma reaches_classifier_session (req : request) :
  Spec.reaches_classifier req = true ->
  nullish (user req) = false
  /\ opt_member (user req) (str "id") = member (user req) (str "id").
Proof.
  unfold Spec.reaches_classifier. destruct (Spec.first_missing _ _); [discriminate|].
  unfold opt_member. destruct (nullish (user req)); [discriminate|]. auto.
Qed.

Section Filed.

(** A valid report whose classification [ai] carries no [error] and
    whose conversions return: no manual field that is converted and no
    coordinate is an object with an own [toString]. *)
Variables (w : World) (req : request) (t : tables) (ai : value).
Hypothesis reached : Spec.reaches_classifier req = true.
Hypothesis classified :
  Gemini.classifyIssue (upstream w) (field (body req) "image_url")
    (field (body req) "description") = inr ai.
Hypothesis civic : truthy (member ai Gemini.k_error) = false.
Hypothesis converted : Spec.converts req = true.

(** How [createIssue] ends for it, by how the store takes the insert. *)
Lemma createIssue_filed :
  let payload := Spec.payload_of w req ai in
  let called :=
    [ Classifier (field (body req) "image_url") (field (body req) "description");
      Db (InsertIssue payload) ] in
  createIssue w req (start t)
  = match fault_of (backend w) (InsertIssue payload) with
    | Healthy =>
        (Json 201 (JObj (stored (backend w) t payload)),
         {| db := {| issues := issues t ++ [stored (backend w) t payload];
                     issue_logs := issue_logs t |};
            trace := called |})
    | Rejects e =>
        (Json 400
           (obj [("error", text "Database insert failed");
                 ("details", lookup e (str "message"));
                 ("hint", lookup e (str "hint"));
                 ("code", lookup e (str "code"))]),
         {| db := t; trace := called |})
    | Crashes e =>
        (Json (status_or_500 e)
           (obj [("error", text "Failed to report issue");
                 ("details", or_else (ex_message e) (text "Internal Server Error"));
                 ("hint", ex_hint e);
                 ("code", ex_code e)]),
         {| db := t; trace := called |})
    end.
Proof.
  exact (createIssue_accepted w req (start t) ai reached classified civic
           converted).
Qed.

(** X4: a report that the store does not take is not stored and is
    answered by how the store failed. An insert the store refuses is
    answered 400 with the store's message, hint and code; an insert that
    throws is answered 500 when the thrown error carries no status (or
    zero), and with the status it carries when that is one a response can
    have (100 to 999). In all these cases the tables are as before. *)
Theorem createIssue_store_failure :
  let payload := Spec.payload_of w req ai in
  let outcome := createIssue w req (start t) in
  let failed e :=
    obj [("error", text "Failed to report issue");
         ("details", or_else (ex_message e) (text "Internal Server Error"));
         ("hint", ex_hint e);
         ("code", ex_code e)] in
  (forall e,
      fault_of (backend w) (InsertIssue payload) = Rejects e ->
      fst outcome
      = Json 400
          (obj [("error", text "Database insert failed");
                ("details", lookup e (str "message"));
                ("hint", lookup e (str "hint"));
                ("code", lookup e (str "code"))])
      /\ db (snd outcome) = t)
  /\ (forall e,
        fault_of (backend w) (InsertIssue payload) = Crashes e ->
        db (snd outcome) = t
        /\ (ex_status e = None \/ ex_status e = Some 0 ->
            fst outcome = Json 500 (failed e))
        /\ (forall n,
              ex_status e = Some n -> 100 <= n <= 999 ->
              fst outcome = Json n (failed e))).
Proof.
  intros payload outcome failed. subst outcome. rewrite createIssue_filed.
  cbv zeta. fold payload. split; intros e ->; cbn [fst snd db]; [auto|].
  repeat split.
  - unfold status_or_500. now intros [->| ->].
  - unfold status_or_500. intros n -> Hn. destruct n; [lia|reflexivity].
Qed.



End Filed.

Lemma createIssue_store_failure_witness :
  fst (createIssue (Sample.world (Sample.answering Sample.pothole_reply) Scenario.full)
         (Sample.report []) (start Sample.one_issue))
  = Json 400
      (obj [("error", text "Database insert failed");
            ("details", text "new row violates row-level security");
            ("hint", JUndefined);
            ("code", text "42501")])
  /\ db (snd (createIssue
                (Sample.world (Sample.answering Sample.pothole_reply) Scenario.full)
                (Sample.report []) (start Sample.one_issue)))
     = Sample.one_issue.
Proof.
  refine (proj1 (createIssue_store_failure
                   (Sample.world (Sample.answering Sample.pothole_reply) Scenario.full)
                   (Sample.report []) Sample.one_issue
                   (obj [("issue_type", text "pothole");
                         ("assigned_authority", text "road")]) _ _ _ _)
            [ (str "message", text "new row violates row-level security");
              (str "code", text "42501") ] _);
    vm_compute; reflexivity.
Defined.



(* ================================================================== *)
(** * Looking an issue up, before and after a change *)
(* ================================================================== *)

(** X7: [getIssueById] finds an issue exactly when the table has one.
    With a store that answers, it answers 404 if and only if no row has
    the requested id, answers 200 with the first row that has it
    otherwise, and leaves the tables as they were. *)
Theorem getIssueById_found_iff (w : World) (req : request) (s : state) :
  let id := params_id req in
  let answer := fst (Listing.getIssueById w req s) in
  fault_of (backend w) (SelectIssue id) = Healthy ->
  (answer = Json 404 (obj [("error", text "Issue not found")])
   <-> forall r, In r (issues (db s)) -> matches id r = false)
  /\ (forall r before rest,
        issues (db s) = before ++ r :: rest ->
        matches id r = true ->
        (forall r', In r' before -> matches id r' = false) ->
        answer = Json 200 (JObj r))
  /\ db (snd (Listing.getIssueById w req s)) = db s.
Proof.
  intros id answer Hok. subst answer. rewrite getIssueById_run. fold id.
  rewrite Hok. cbn [fst snd db]. repeat split.
  - destruct (filter (matches id) (issues (db s))) as [|r0 l] eqn:F;
      [|discriminate].
    intros _ r Hin. destruct (matches id r) eqn:M; [|reflexivity].
    assert (In r (filter (matches id) (issues (db s)))) as Hf
        by (apply filter_In; auto).
    rewrite F in Hf. destruct Hf.
  - intros Hnone. now rewrite (filter_none _ _ Hnone).
  - intros r before rest -> Hm Hbefore. rewrite filter_app. cbn [filter].
    now rewrite Hm, (filter_none _ _ Hbefore).
Qed.

Lemma getIssueById_found_iff_witness :
  fst (Listing.getIssueById Sample.office (Sample.status_change "i-1" [])
         (start Sample.one_issue))
  = Json 200 (JObj (Sample.an_issue "i-1" "reported")).
Proof.
  refine (proj1 (proj2 (getIssueById_found_iff Sample.office
                          (Sample.status_change "i-1" [])
                          (start Sample.one_issue) eq_refl))
            (Sample.an_issue "i-1" "reported") [] [] eq_refl eq_refl _).
  intros r' [].
Defined.

(** A patch that does not name the id leaves the id of every row. *)
Lemma matches_patched (patch : props) (id id' : value) (r : row) :
  has_key patch k_id = false ->
  matches id' (patched patch id r) = matches id' r.
Proof.
  intros H. unfold matches. now rewrite lookup_patched_absent.
Qed.

Lemma filter_map_patched (patch : props) (id : value) (l : list row) :
  has_key patch k_id = false ->
  filter (matches id) (map (patched patch id) l)
  = map (patched patch id) (filter (matches id) l).
Proof.
  intros H. induction l as [|r l IH]; [reflexivity|]. cbn [map filter].
  rewrite matches_patched by exact H.
  destruct (matches id r); cbn [map]; now rewrite IH.
Qed.

Lemma updateData_no_id (w : World) (status url : value) :
  has_key (updateData w status url) k_id = false.
Proof. unfold updateData. now destruct (resolving status url). Qed.

(** A patch that reaches no row leaves the table as it was. *)
Lemma map_patched_none (patch : props) (id : value) (l : list row) :
  filter (matches id) l = [] -> map (patched patch id) l = l.
Proof.
  induction l as [|r l IH]; [reflexivity|]. cbn [filter map].
  destruct (matches id r) eqn:M; [discriminate|].
  intros H. now rewrite IH, patched_other.
Qed.

(** X8: a status update changes the tables only when it answers 200.
    Whatever the request and however the store behaves, either the
    answer is a 200 or the tables are exactly as they were. *)
Theorem updateStatus_all_or_nothing (w : World) (req : request) (t : tables) :
  (exists payload, fst (updateStatus w req (start t)) = Json 200 payload)
  \/ db (snd (updateStatus w req (start t))) = t.
Proof.
  rewrite updateStatus_run. cbv zeta.
  repeat match goal with
         | |- context [match ?x with _ => _ end] => destruct x
         end; cbn [fst snd db start]; eauto.
Qed.

(** X9: what a successful status update answers is what the table then
    holds. After an update that answered 200 with some issue,
    [getIssueById] for the same id answers 200 with that same issue. *)
Theorem updateStatus_then_getIssueById (w : World) (req : request) (t : tables)
  (payload : value) (after : state) :
  updateStatus w req (start t) = (Json 200 payload, after) ->
  fst (Listing.getIssueById w req after) = Json 200 payload.
Proof.
  intros H. apply updateStatus_ok_inv in H.
  destruct H as (old & by_ & _ & _ & Hsel & Hone & _ & -> & ->).
  rewrite getIssueById_run. cbv zeta. rewrite Hsel. cbn [fst db].
  match goal with
  | |- context [issues (match ?f with
                        | Healthy => ?a | Rejects e => ?b | Crashes e' => ?c
                        end)] =>
      replace (issues (match f with
                       | Healthy => a | Rejects e => b | Crashes e' => c
                       end))
        with (map (patched (updateData w (field (body req) "status")
                              (field (body req) "resolved_image_url"))
                     (params_id req)) (issues t))
        by (destruct f; reflexivity)
  end.
  rewrite filter_map_patched by apply updateData_no_id.
  now rewrite Hone.
Qed.

Lemma updateStatus_then_getIssueById_witness :
  fst (Listing.getIssueById Sample.office
         (Sample.status_change "i-1" [("status", text "in_progress")])
         (snd (updateStatus Sample.office
                 (Sample.status_change "i-1" [("status", text "in_progress")])
                 (start Sample.one_issue))))
  = Json 200 (JObj (Sample.an_issue "i-1" "in_progress")).
Proof.
  apply (updateStatus_then_getIssueById Sample.office
           (Sample.status_change "i-1" [("status", text "in_progress")])
           Sample.one_issue).
  reflexivity.
Defined.

(** X10: reassigning an issue that does not exist is answered 500, not
    404. With a store that accepts the update, when no row has the given
    id the update reaches nothing, the single-row answer the handler asks
    for is an error, and the request is answered 500 with that error's
    message as [details]; the tables are as before. *)
Theorem reassignIssue_unknown_issue (w : World) (req : request) (t : tables) :
  let id := params_id req in
  let v := field (body req) "assigned_authority" in
  let patch := [(str "assigned_authority", v); (str "department", v)] in
  fault_of (backend w) (UpdateIssue patch id) = Healthy ->
  filter (matches id) (issues t) = [] ->
  reassignIssue w req (start t)
  = (Json 500
       (obj [("error", text "Failed to reassign issue");
             ("details", member (error (single [])) (str "message"))]),
     {| db := t; trace := [Db (UpdateIssue patch id)] |}).
Proof.
  intros id v patch Hok Hnone.
  unfold reassignIssue, reassignIssue_try, and_then. fold id v. fold patch.
  rewrite store_run, Hok. tidy.
  rewrite (map_patched_none patch id (issues t) Hnone), Hnone.
  cbn [map single error truthy refused raise]. destruct t; reflexivity.
Qed.

Lemma reassignIssue_unknown_issue_witness :
  fst (reassignIssue Sample.office
         (Sample.status_change "i-404" [("assigned_authority", text "garbage")])
         (start Sample.one_issue))
  = Json 500
      (obj [("error", text "Failed to reassign issue");
            ("details",
             text "JSON object requested, multiple (or no) rows returned")]).
Proof.
  rewrite (reassignIssue_unknown_issue Sample.office
             (Sample.status_change "i-404" [("assigned_authority", text "garbage")])
             Sample.one_issue eq_refl eq_refl).
  reflexivity.
Defined.

(* ================================================================== *)
(** * Deleting *)
(* ================================================================== *)

Lemma filter_filter_same {A : Type} (f : A -> bool) (l : list A) :
  filter f (filter f l) = filter f l.
Proof.
  induction l as [|x l IH]; [reflexivity|]. cbn [filter].
  destruct (f x) eqn:E; [cbn [filter]; now rewrite E, IH|exact IH].
Qed.

Lemma filter_true {A : Type} (l : list A) : filter (fun _ => true) l = l.
Proof. induction l as [|x l IH]; [reflexivity|]. cbn [filter]. now rewrite IH. Qed.

(** What a delete that the store accepts does. *)
Lemma deleteIssue_run (w : World) (req : request) (t : tables) :
  fault_of (backend w) (DeleteIssue (params_id req)) = Healthy ->
  deleteIssue w req (start t)
  = (Sent 204,
     {| db := {| issues :=
                   filter (fun r => negb (matches (params_id req) r)) (issues t);
                 issue_logs := issue_logs t |};
        trace := [Db (DeleteIssue (params_id req))] |}).
Proof.
  intros Hok. unfold deleteIssue, deleteIssue_try, and_then.
  rewrite store_run, Hok. reflexivity.
Qed.

(** X11: deleting is idempotent and exact. With a store that accepts the
    delete, the request is answered 204 whether or not an issue had the
    id; afterwards the issues are exactly those of before that do not
    have the id; and the same request again is answered 204 again and
    changes nothing more. *)
Theorem deleteIssue_idempotent (w : World) (req : request) (t : tables) :
  let id := params_id req in
  let once := deleteIssue w req (start t) in
  let twice := deleteIssue w req (start (db (snd once))) in
  fault_of (backend w) (DeleteIssue id) = Healthy ->
  fst once = Sent 204
  /\ fst twice = Sent 204
  /\ db (snd twice) = db (snd once)
  /\ (forall r, In r (issues (db (snd once)))
                <-> In r (issues t) /\ matches id r = false).
Proof.
  intros id once twice Hok. subst id once twice.
  rewrite !deleteIssue_run by exact Hok. cbn [fst snd db issues issue_logs].
  repeat split.
  - now rewrite filter_filter_same.
  - now apply filter_In in H.
  - apply filter_In in H. now destruct (matches (params_id req) r).
  - intros [Hin Hm]. apply filter_In. now rewrite Hm.
Qed.

Lemma deleteIssue_idempotent_witness :
  fst (deleteIssue Sample.office (Sample.status_change "i-7" [])
         (start Sample.one_issue)) = Sent 204
  /\ issues (db (snd (deleteIssue Sample.office (Sample.status_change "i-7" [])
                        (start Sample.one_issue))))
     = issues Sample.one_issue.
Proof.
  split.
  - apply (deleteIssue_idempotent Sample.office (Sample.status_change "i-7" [])
             Sample.one_issue eq_refl).
  - reflexivity.
Defined.



(** The tables after deleting the ids of a list one by one. *)
Lemma delete_each_issues (w : World) (ids : list value) :
  (forall id, In id ids -> fault_of (backend w) (DeleteIssue id) = Healthy) ->
  forall t,
    Scenario.delete_each w ids t
    = {| issues :=
           filter (fun r => negb (existsb (fun id => matches id r) ids)) (issues t);
         issue_logs := issue_logs t |}.
Proof.
  unfold Scenario.delete_each.
  induction ids as [|id ids IH]; intros Hok t; cbn [fold_left existsb].
  - cbn [negb]. rewrite filter_true. now destruct t.
  - rewrite deleteIssue_run by (apply Hok; now left). cbn [snd db params_id].
    rewrite IH by (intros i Hi; apply Hok; now right).
    cbn [issues issue_logs]. f_equal.
    generalize (issues t) as l.
    induction l as [|r l IHl]; [reflexivity|]. cbn [filter].
    destruct (matches id r); cbn [negb orb filter]; [exact IHl|].
    destruct (existsb _ ids); cbn [negb]; now rewrite IHl.
Qed.

(** X13: a bulk delete does what deleting its ids one by one does. With
    a store that accepts the deletes, the tables after
    [bulkDeleteIssues] with a list of ids are the tables after
    [deleteIssue] for each id of the list in turn. *)
Theorem bulkDeleteIssues_as_single_deletes (w : World) (req : request)
  (t : tables) (ids : list value) :
  field (body req) "issueIds" = JArr ids ->
  fault_of (backend w) (DeleteIssues ids) = Healthy ->
  (forall id, In id ids -> fault_of (backend w) (DeleteIssue id) = Healthy) ->
  db (snd (bulkDeleteIssues w req (start t))) = Scenario.delete_each w ids t.
Proof.
  intros Hids Hbulk Heach. rewrite delete_each_issues by exact Heach.
  unfold bulkDeleteIssues, bulkDeleteIssues_try. rewrite Hids.
  destruct ids as [|id ids].
  - cbn [snd pure db start existsb negb]. rewrite filter_true. now destruct t.
  - unfold and_then. rewrite store_run, Hbulk. reflexivity.
Qed.

Lemma bulkDeleteIssues_as_single_deletes_witness :
  db (snd (bulkDeleteIssues Sample.office
             {| user := Sample.officer;
                body := [(str "issueIds", JArr [text "i-1"; text "i-2"])];
                params_id := JUndefined |}
             (start Sample.one_issue)))
  = Scenario.delete_each Sample.office [text "i-1"; text "i-2"] Sample.one_issue.
Proof.
  apply (bulkDeleteIssues_as_single_deletes Sample.office
           {| user := Sample.officer;
              body := [(str "issueIds", JArr [text "i-1"; text "i-2"])];
              params_id := JUndefined |}
           Sample.one_issue [text "i-1"; text "i-2"]); reflexivity.
Defined.

(** X14: a bulk delete without ids never reaches the store. When
    [issueIds] is anything but an array with at least one element
    (absent, a single id, an object, an empty array), the request is
    answered 400 and nothing else happens. *)
Theorem bulkDeleteIssues_needs_ids (w : World) (req : request) (s : state) :
  let issueIds := field (body req) "issueIds" in
  (forall id ids, issueIds <> JArr (id :: ids)) ->
  bulkDeleteIssues w req s
  = (Json 400 (obj [("error", text "Invalid or empty array of issue IDs provided")]),
     s).
Proof.
  intros issueIds H. unfold bulkDeleteIssues, bulkDeleteIssues_try.
  fold issueIds. destruct issueIds as [| | | | |[|id ids]|]; try reflexivity.
  now destruct (H id ids).
Qed.

Lemma bulkDeleteIssues_needs_ids_witness :
  bulkDeleteIssues Sample.office
    {| user := Sample.officer; body := [(str "issueIds", text "i-1")];
       params_id := JUndefined |}
    (start Sample.one_issue)
  = (Json 400 (obj [("error", text "Invalid or empty array of issue IDs provided")]),
     start Sample.one_issue).
Proof.
  apply (bulkDeleteIssues_needs_ids Sample.office
           {| user := Sample.officer; body := [(str "issueIds", text "i-1")];
              params_id := JUndefined |}
           (start Sample.one_issue)).
  intros id ids. vm_compute. discriminate.
Defined.

(* ================================================================== *)
(** * The listings *)
(* ================================================================== *)

Section Listed.

(** A store whose ordering keeps the rows it is given. *)
Variables (rd : Listing.Reader) (t : tables).
Hypothesis keeps : forall l r, In r (Listing.by_newest rd l) <-> In r l.

(** X15: [getMyIssues] lists the caller's issues and no others. With a
    store that answers, the request of a session is answered 200 with a
    list whose issues are exactly the issues of the table whose
    [citizen_id] is the session's user id. *)
Theorem getMyIssues_own_rows (req : request) :
  let id := member (user req) (str "id") in
  nullish (user req) = false ->
  Listing.read_fault rd (Listing.my_query id) = Healthy ->
  exists listed,
    Listing.getMyIssues rd req t = Json 200 (JArr (map JObj listed))
    /\ (forall r, In r listed
                  <-> In r (issues t)
                      /\ String_ (lookup r (str "citizen_id")) = String_ id).
Proof.
  intros id Hu Hok. unfold Listing.getMyIssues. rewrite read_member by exact Hu.
  cbn [bind]. fold id. unfold Listing.run_query. rewrite Hok.
  cbn [ret Listing.listing rows error data truthy].
  eexists. split; [reflexivity|]. intros r.
  unfold Listing.select. cbn [Listing.my_query Listing.where_eq Listing.at_most].
  rewrite keeps, filter_In. unfold Listing.holds. now rewrite jeqb_eq.
Qed.

End Listed.

Lemma getMyIssues_own_rows_witness :
  exists listed,
    Listing.getMyIssues Scenario.shelf (Sample.report []) Sample.one_issue
    = Json 200 (JArr (map JObj listed))
    /\ (forall r, In r listed
                  <-> In r (issues Sample.one_issue)
                      /\ String_ (lookup r (str "citizen_id")) = str "u-1").
Proof.
  apply (getMyIssues_own_rows Scenario.shelf Sample.one_issue); try reflexivity.
  intros l r. symmetry. apply in_rev.
Defined.



(* ================================================================== *)
(** * Signing in *)
(* ================================================================== *)

Lemma normalizeRole_range (role : value) (r : jstring) :
  Auth.normalizeRole role = inr r ->
  r = str "citizen" \/ r = str "head_authority".
Proof.
  unfold Auth.normalizeRole. destruct (negb (truthy role)).
  - intros [= <-]. now left.
  - destruct role; try discriminate.
    destruct (_ || _ || _); intros [= <-]; auto.
Qed.

(** The two roles are their own normal forms. *)
Lemma normalizeRole_settled (r : jstring) :
  r = str "citizen" \/ r = str "head_authority" ->
  Auth.normalizeRole (JStr r) = inr r.
Proof. intros [->| ->]; vm_compute; reflexivity. Qed.

Lemma split_space_word (word rest : jstring) :
  ~ In 32%N word ->
  Middleware.split_space (word ++ 32%N :: rest)
  = word :: Middleware.split_space rest.
Proof.
  intros H. induction word as [|c w IH]; cbn [app Middleware.split_space].
  - reflexivity.
  - destruct (N.eqb_spec c 32) as [->|_].
    + exfalso. apply H. now left.
    + rewrite IH by (intros Hin; apply H; now right). reflexivity.
Qed.

Lemma split_space_last (word : jstring) :
  ~ In 32%N word -> Middleware.split_space word = [word].
Proof.
  intros H. induction word as [|c w IH]; cbn [Middleware.split_space];
    [reflexivity|].
  destruct (N.eqb_spec c 32) as [->|_].
  - exfalso. apply H. now left.
  - rewrite IH by (intros Hin; apply H; now right). reflexivity.
Qed.

(** The token is the second word of the header. *)
Lemma bearer_token_second_word (scheme token tail : jstring) :
  ~ In 32%N scheme -> ~ In 32%N token ->
  tail = [] \/ (exists rest, tail = 32%N :: rest) ->
  Middleware.bearer_token (scheme ++ 32%N :: token ++ tail) = JStr token.
Proof.
  intros Hs Ht Htail. unfold Middleware.bearer_token.
  rewrite split_space_word by exact Hs.
  destruct Htail as [->|[rest ->]].
  - rewrite app_nil_r, split_space_last by exact Ht. reflexivity.
  - rewrite split_space_word by exact Ht. reflexivity.
Qed.

(** The line logged before [next()]: it lets the verdict through when
    the e-mail address and the department have a text, and throws
    otherwise. *)
Lemma log_line_value (email department : value) (v : Middleware.verdict) :
  (_ <- ToString email ;; _ <- ToString department ;; ret v)
  = if printable email && printable department then inr v
    else inl (TypeError (str "Cannot convert object to primitive value")).
Proof.
  unfold ToString, bind, ret, throw.
  destruct (printable email), (printable department); reflexivity.
Qed.

(** The calls of [authenticate] start with the verification of the token
    it reads off the header. *)
Lemma authenticate_verifies (idp : Middleware.Identity) (header : jstring) :
  header <> [] ->
  exists more,
    fst (Middleware.authenticate idp (Some header))
    = Middleware.VerifyToken (Middleware.bearer_token header) :: more.
Proof.
  destruct header as [|c r]; [now intros []|]. intros _.
  unfold Middleware.authenticate, Middleware.authenticate_try.
  destruct (Middleware.getUser idp _) as [e|[user authError]]; [cbn; eauto|].
  destruct (truthy authError || negb (truthy user)); [cbn; eauto|].
  destruct (Middleware.fetchProfile idp _) as [e|[profile profileError]];
    [cbn; eauto|].
  destruct (Middleware.resolve_role _ _) as [e|[[finalRole userDepartment] aliased]];
    [cbn; eauto|].
  rewrite log_line_value. destruct (_ && _); cbn; eauto.
Qed.

(** X17: [authenticate] takes the second word of the header as the
    token, whatever the first word is. For a header made of a scheme
    word, a space and a token (and possibly more words), the identity
    provider is asked about exactly that token: the scheme is not
    checked, and [Bearer] is not required. *)
Theorem authenticate_ignores_scheme (idp : Middleware.Identity)
  (scheme token tail : jstring) :
  ~ In 32%N scheme -> ~ In 32%N token ->
  tail = [] \/ (exists rest, tail = 32%N :: rest) ->
  exists more,
    fst (Middleware.authenticate idp (Some (scheme ++ 32%N :: token ++ tail)))
    = Middleware.VerifyToken (JStr token) :: more.
Proof.
  intros Hs Ht Htail.
  rewrite <- (bearer_token_second_word scheme token tail Hs Ht Htail).
  apply authenticate_verifies. now destruct scheme.
Qed.

Lemma authenticate_ignores_scheme_witness :
  exists more,
    fst (Middleware.authenticate
           (Scenario.directory Scenario.resident Scenario.road_head)
           (Some (str "Basic tok-1")))
    = Middleware.VerifyToken (text "tok-1") :: more.
Proof.
  apply (authenticate_ignores_scheme
           (Scenario.directory Scenario.resident Scenario.road_head)
           (str "Basic") (str "tok-1") []).
  - vm_compute. intuition discriminate.
  - vm_compute. intuition discriminate.
  - now left.
Defined.

Lemma member_attached_role (user profile : value) (r : jstring) (d : value) :
  member (Middleware.attached user profile r d) (str "role") = JStr r.
Proof.
  unfold Middleware.attached. cbn [member]. now rewrite !lookup_set_prop.
Qed.

Lemma member_attached_department (user profile : value) (r : jstring) (d : value) :
  member (Middleware.attached user profile r d) (str "department") = d.
Proof.
  unfold Middleware.attached. cbn [member]. rewrite !lookup_set_prop.
  now rewrite jeqb_refl.
Qed.

(** What [authenticate] has done when it hands the request on. *)
Lemma authenticate_next_inv (idp : Middleware.Identity) (header : option jstring)
  (calls : list Middleware.call) (u : value) :
  Middleware.authenticate idp header = (calls, Middleware.Next u) ->
  exists h user authError profile profileError finalRole userDepartment aliased,
    header = Some h /\ h <> []
    /\ Middleware.getUser idp (Middleware.bearer_token h) = inr (user, authError)
    /\ truthy authError = false /\ truthy user = true
    /\ Middleware.fetchProfile idp (member user (str "id"))
       = inr (profile, profileError)
    /\ Middleware.resolve_role profile
         (or_else (member user (str "user_metadata")) (JObj []))
       = inr (finalRole, userDepartment, aliased)
    /\ u = Middleware.attached user profile finalRole userDepartment.
Proof.
  unfold Middleware.authenticate. destruct header as [[|c r]|]; try discriminate.
  unfold Middleware.authenticate_try.
  destruct (Middleware.getUser idp _) as [e|[user authError]] eqn:G;
    [discriminate|].
  destruct (truthy authError || negb (truthy user)) eqn:T; [discriminate|].
  apply orb_false_elim in T as [Ta Tu]. apply negb_false_iff in Tu.
  destruct (Middleware.fetchProfile idp _) as [e|[profile profileError]] eqn:P;
    [discriminate|].
  destruct (Middleware.resolve_role _ _)
    as [e|[[finalRole userDepartment] aliased]] eqn:R; [discriminate|].
  rewrite log_line_value. destruct (_ && _); [|discriminate].
  intros [= _ <-].
  exists (c :: r), user, authError, profile, profileError, finalRole,
    userDepartment, aliased.
  repeat split; try assumption. discriminate.
Qed.

Lemma resolve_role_range (profile metadata : value) (r : jstring) (d : value)
  (a : bool) :
  Middleware.resolve_role profile metadata = inr (r, d, a) ->
  r = str "citizen" \/ r = str "head_authority".
Proof.
  unfold Middleware.resolve_role, bind.
  destruct (truthy profile && _).
  - destruct (Auth.normalizeRole _) as [e|x] eqn:N; [discriminate|].
    intros [= <- _ _]. eapply normalizeRole_range; eassumption.
  - destruct (Auth.normalizeRole _) as [e|x] eqn:N; [discriminate|].
    intros [= <- _ _]. eapply normalizeRole_range; eassumption.
Qed.

(** X18: whoever passes [authenticate] has one of the two roles. When
    the middleware hands a request on, the [req.user] it attached is an
    object whose [role] is [citizen] or [head_authority], whatever the
    profile and the metadata said. *)
Theorem authenticate_role_closed (idp : Middleware.Identity)
  (header : option jstring) (calls : list Middleware.call) (u : value) :
  Middleware.authenticate idp header = (calls, Middleware.Next u) ->
  (member u (str "role") = text "citizen"
   \/ member u (str "role") = text "head_authority")
  /\ exists ps, u = JObj ps.
Proof.
  intros H. apply authenticate_next_inv in H.
  destruct H as (h & user & ae & profile & pe & fr & d & a & _ & _ & _ & _ & _
                 & _ & R & ->).
  apply resolve_role_range in R. rewrite member_attached_role.
  split; [destruct R as [->| ->]; auto|].
  unfold Middleware.attached. eauto.
Qed.

Lemma authenticate_role_closed_witness :
  member
    (match
       snd (Middleware.authenticate
              (Scenario.directory Scenario.resident Scenario.road_head)
              (Some (str "Bearer tok-1")))
     with
     | Middleware.Next u => u
     | Middleware.Reply _ => JUndefined
     end) (str "role") = text "citizen"
  \/ member
       (match
          snd (Middleware.authenticate
                 (Scenario.directory Scenario.resident Scenario.road_head)
                 (Some (str "Bearer tok-1")))
        with
        | Middleware.Next u => u
        | Middleware.Reply _ => JUndefined
        end) (str "role") = text "head_authority".
Proof.
  apply (authenticate_role_closed
           (Scenario.directory Scenario.resident Scenario.road_head)
           (Some (str "Bearer tok-1"))
           (fst (Middleware.authenticate
                   (Scenario.directory Scenario.resident Scenario.road_head)
                   (Some (str "Bearer tok-1"))))).
  vm_compute. reflexivity.
Defined.

(** What [authenticate] does with a verified user and the profile
    answer, once the role is resolved. *)
Lemma authenticate_resolved (idp : Middleware.Identity) (header : jstring)
  (user authError profile profileError : value) (r : jstring) (d : value)
  (a : bool) :
  let token := Middleware.bearer_token header in
  let id := member user (str "id") in
  let metadata := or_else (member user (str "user_metadata")) (JObj []) in
  header <> [] ->
  Middleware.getUser idp token = inr (user, authError) ->
  truthy authError = false -> truthy user = true ->
  Middleware.fetchProfile idp id = inr (profile, profileError) ->
  Middleware.resolve_role profile metadata = inr (r, d, a) ->
  Middleware.authenticate idp (Some header)
  = ([Middleware.VerifyToken token; Middleware.FetchProfile id]
     ++ (if Middleware.stale metadata r d a then
           [Middleware.SyncMetadata id (Middleware.synced metadata r d)]
         else []),
     if printable (member user (str "email")) && printable d then
       Middleware.Next (Middleware.attached user profile r d)
     else
       Middleware.Reply (Json 500 (obj [("error", text "Authentication failed")]))).
Proof.
  intros token id metadata Hh G Ta Tu P R.
  destruct header as [|c h]; [now destruct Hh|].
  unfold Middleware.authenticate, Middleware.authenticate_try.
  fold token. rewrite G, Ta, Tu.
  cbn [negb orb]. fold id. rewrite P. fold metadata. rewrite R.
  rewrite log_line_value. destruct (_ && _); reflexivity.
Qed.

(** X19: the role of the profile wins over the metadata. For a verified
    user whose profile row has a non-empty text as [role], and whose
    e-mail address and profile department can be written into the line
    logged before [next()] (neither is an object with an own
    [toString]), the request is handed on with the normalised profile
    role and the profile's department, whatever the account's metadata
    holds. *)
Theorem authenticate_profile_role_wins (idp : Middleware.Identity)
  (header : jstring) (user authError profile profileError : value)
  (role : jstring) :
  header <> [] ->
  Middleware.getUser idp (Middleware.bearer_token header) = inr (user, authError) ->
  truthy authError = false -> truthy user = true ->
  Middleware.fetchProfile idp (member user (str "id")) = inr (profile, profileError) ->
  member profile (str "role") = JStr role -> role <> [] ->
  printable (member user (str "email")) = true ->
  printable (member profile (str "department")) = true ->
  exists calls u,
    Middleware.authenticate idp (Some header) = (calls, Middleware.Next u)
    /\ Auth.normalizeRole (JStr role) = inr (String_ (member u (str "role")))
    /\ member u (str "department") = member profile (str "department").
Proof.
  intros Hh G Ta Tu P Hrole Hne He Hd.
  assert (truthy profile = true) as Tp
      by (destruct profile; try discriminate Hrole; reflexivity).
  assert (truthy (JStr role) = true) as Tr
      by (destruct role; [now destruct Hne|reflexivity]).
  destruct (Auth.normalizeRole (JStr role)) as [e|r] eqn:N.
  { unfold Auth.normalizeRole in N. rewrite Tr in N. cbn [negb] in N.
    destruct (_ || _ || _); discriminate N. }
  do 2 eexists. split.
  - rewrite (authenticate_resolved idp header user authError profile profileError
               r (member profile (str "department")) false Hh G Ta Tu P).
    + rewrite He, Hd. reflexivity.
    + unfold Middleware.resolve_role. rewrite Tp, Hrole, Tr. cbn [andb bind].
      now rewrite N.
  - now rewrite member_attached_role, member_attached_department.
Qed.

Lemma authenticate_profile_role_wins_witness :
  exists calls u,
    Middleware.authenticate
      (Scenario.directory Scenario.resident Scenario.road_head)
      (Some (str "Bearer tok-1"))
    = (calls, Middleware.Next u)
    /\ Auth.normalizeRole (text "Head-Authority")
       = inr (String_ (member u (str "role")))
    /\ member u (str "department") = text "road".
Proof.
  apply (authenticate_profile_role_wins
           (Scenario.directory Scenario.resident Scenario.road_head)
           (str "Bearer tok-1") Scenario.resident JNull Scenario.road_head JNull
           (str "Head-Authority")); try reflexivity; discriminate.
Defined.

(** X20: a role that is not text is an error, not a citizen. For a
    verified user whose profile row has a [role] that is truthy and not a
    string (a number, [true], an array, an object), the request is
    answered 500 with [Authentication failed]; the metadata is not
    consulted and nothing is synced. *)
Theorem authenticate_role_not_text (idp : Middleware.Identity)
  (header : jstring) (user authError profile profileError : value) :
  let role := member profile (str "role") in
  header <> [] ->
  Middleware.getUser idp (Middleware.bearer_token header) = inr (user, authError) ->
  truthy authError = false -> truthy user = true ->
  Middleware.fetchProfile idp (member user (str "id")) = inr (profile, profileError) ->
  truthy role = true -> (forall s, role <> JStr s) ->
  Middleware.authenticate idp (Some header)
  = ([Middleware.VerifyToken (Middleware.bearer_token header);
      Middleware.FetchProfile (member user (str "id"))],
     Middleware.Reply (Json 500 (obj [("error", text "Authentication failed")]))).
Proof.
  intros role Hh G Ta Tu P Tr Hns.
  assert (truthy profile = true) as Tp.
  { destruct profile; try reflexivity; discriminate Tr. }
  destruct header as [|c h]; [now destruct Hh|].
  unfold Middleware.authenticate, Middleware.authenticate_try.
  rewrite G, Ta, Tu. cbn [negb orb].
  rewrite P. unfold Middleware.resolve_role. fold role. rewrite Tp, Tr.
  cbn [andb bind].
  unfold Auth.normalizeRole. rewrite Tr. cbn [negb].
  destruct role; try reflexivity. now destruct (Hns s).
Qed.

Lemma authenticate_role_not_text_witness :
  snd (Middleware.authenticate
         (Scenario.directory Scenario.resident Scenario.numbered)
         (Some (str "Bearer tok-1")))
  = Middleware.Reply (Json 500 (obj [("error", text "Authentication failed")])).
Proof.
  rewrite (authenticate_role_not_text
             (Scenario.directory Scenario.resident Scenario.numbered)
             (str "Bearer tok-1") Scenario.resident JNull Scenario.numbered JNull);
    try reflexivity; discriminate.
Defined.

Lemma num_eqb_refl (n : num) : Middleware.num_eqb n n = true.
Proof. unfold Middleware.num_eqb. apply Z.eqb_refl. Qed.

(** A value that is not an array or an object is identical to itself. *)
Lemma strict_eq_refl (v : value) :
  (forall items, v <> JArr items) -> (forall ps, v <> JObj ps) ->
  Middleware.strict_eq v v = true.
Proof.
  intros Ha Ho. destruct v; cbn [Middleware.strict_eq]; try reflexivity.
  - now destruct b.
  - apply num_eqb_refl.
  - apply jeqb_refl.
  - now destruct (Ha items).
  - now destruct (Ho props0).
Qed.

Lemma or_else_null (v : value) :
  let d := or_else v JNull in
  or_else d JNull = d /\ (truthy d = true \/ d = JNull).
Proof.
  unfold or_else. destruct (truthy v) eqn:T.
  - rewrite T. auto.
  - cbn [truthy]. auto.
Qed.

(** The role and the department that a synced metadata resolves to. *)
Lemma resolve_role_synced (profile m : value) (r : jstring) (d : value) (a : bool) :
  Middleware.resolve_role profile m = inr (r, d, a) ->
  (forall items, d <> JArr items) -> (forall ps, d <> JObj ps) ->
  exists d' a',
    Middleware.resolve_role profile (JObj (Middleware.synced m r d))
    = inr (r, d', a')
    /\ Middleware.stale (JObj (Middleware.synced m r d)) r d' a' = false.
Proof.
  intros R Ha Ho. pose proof (resolve_role_range _ _ _ _ _ R) as Hr.
  assert (lookup (Middleware.synced m r d) (str "role") = JStr r) as Lr
      by (unfold Middleware.synced; now rewrite !lookup_set_prop).
  assert (lookup (Middleware.synced m r d) (str "department") = d) as Ld
      by (unfold Middleware.synced; rewrite !lookup_set_prop; now rewrite jeqb_refl).
  unfold Middleware.resolve_role, bind, ret in R |- *.
  destruct (truthy profile && truthy (member profile (str "role"))).
  - destruct (Auth.normalizeRole _) as [e|x]; [discriminate|].
    assert (x = r /\ member profile (str "department") = d) as [-> Hd]
        by (split; congruence).
    rewrite Hd. do 2 eexists. split; [reflexivity|].
    unfold Middleware.stale. cbn [member]. rewrite Lr, Ld.
    cbn [Middleware.strict_eq orb].
    now rewrite jeqb_refl, strict_eq_refl.
  - destruct (Auth.normalizeRole _) as [e|x]; [discriminate|].
    assert (x = r /\ or_else (member m (str "department")) JNull = d) as [-> Hd]
        by (split; congruence).
    cbn [member]. rewrite Lr, Ld, (normalizeRole_settled _ Hr).
    do 2 eexists. split; [reflexivity|].
    unfold Middleware.stale. cbn [member]. rewrite Lr, Ld.
    cbn [Middleware.strict_eq].
    rewrite jeqb_refl. cbn [negb orb].
    destruct (or_else_null (member m (str "department"))) as [E [T|N]];
      cbv zeta in *; rewrite Hd in *.
    + now rewrite T.
    + rewrite N. reflexivity.
Qed.

(** X21: syncing the metadata settles. When the account's metadata is
    what [authenticate] writes for it (the metadata [m] it had, with the
    role and the department resolved from the profile and [m]), and that
    department is not an array or object, the middleware verifies the
    token and fetches the profile and issues no further update. *)
Theorem authenticate_sync_settles (idp : Middleware.Identity) (header : jstring)
  (account : props) (authError profile profileError m : value) (r : jstring)
  (d : value) (a : bool) :
  let token := Middleware.bearer_token header in
  let id := lookup account (str "id") in
  header <> [] ->
  Middleware.getUser idp token = inr (JObj account, authError) ->
  truthy authError = false ->
  Middleware.fetchProfile idp id = inr (profile, profileError) ->
  Middleware.resolve_role profile m = inr (r, d, a) ->
  lookup account (str "user_metadata") = JObj (Middleware.synced m r d) ->
  (forall items, d <> JArr items) -> (forall ps, d <> JObj ps) ->
  fst (Middleware.authenticate idp (Some header))
  = [Middleware.VerifyToken token; Middleware.FetchProfile id].
Proof.
  intros token id Hh G Ta P R Hm Ha Ho.
  destruct (resolve_role_synced profile m r d a R Ha Ho) as (d' & a' & R' & S').
  rewrite (authenticate_resolved idp header (JObj account) authError profile
             profileError r d' a' Hh G Ta eq_refl P).
  - cbn [member]. rewrite Hm. cbn [or_else truthy]. rewrite S'. reflexivity.
  - cbn [member]. rewrite Hm. exact R'.
Qed.

Lemma authenticate_sync_settles_witness :
  (exists payload,
      fst (Middleware.authenticate
             (Scenario.directory Scenario.resident Scenario.road_head)
             (Some (str "Bearer tok-1")))
      = [ Middleware.VerifyToken (text "tok-1");
          Middleware.FetchProfile (text "u-1");
          Middleware.SyncMetadata (text "u-1") payload ]
      /\ member Scenario.promoted (str "user_metadata") = JObj payload)
  /\ fst (Middleware.authenticate
            (Scenario.directory Scenario.promoted Scenario.road_head)
            (Some (str "Bearer tok-1")))
     = [Middleware.VerifyToken (text "tok-1"); Middleware.FetchProfile (text "u-1")].
Proof.
  split.
  - eexists. split; vm_compute; reflexivity.
  - apply (authenticate_sync_settles
             (Scenario.directory Scenario.promoted Scenario.road_head)
             (str "Bearer tok-1") (own_props Scenario.promoted) JNull
             Scenario.road_head JNull (obj [("role", text "citizen")])
             (str "head_authority") (text "road") false);
      try reflexivity; discriminate.
Defined.

(** X22: what [authenticate] writes back is what it resolved. An update
    of the account's metadata is issued only for a verified user; it goes
    to that user's id, and it carries the resolved role and department,
    and every other entry of the metadata as it was. When the user's
    e-mail address and the department can be written into the line logged
    before [next()], the request is handed on with that role and that
    department attached; when one of them is an object with an own
    [toString], the request is answered 500 although the update was
    issued. *)
Theorem authenticate_sync_payload (idp : Middleware.Identity)
  (header : option jstring) (calls : list Middleware.call)
  (v : Middleware.verdict) (id : value) (payload : props) :
  Middleware.authenticate idp header = (calls, v) ->
  In (Middleware.SyncMetadata id payload) calls ->
  exists h user authError,
    header = Some h
    /\ Middleware.getUser idp (Middleware.bearer_token h) = inr (user, authError)
    /\ truthy authError = false /\ truthy user = true
    /\ id = member user (str "id")
    /\ (lookup payload (str "role") = text "citizen"
        \/ lookup payload (str "role") = text "head_authority")
    /\ (forall k,
          jeqb (str "role") k = false -> jeqb (str "department") k = false ->
          lookup payload k
          = lookup (Middleware.spread
                      (or_else (member user (str "user_metadata")) (JObj []))) k)
    /\ (printable (member user (str "email"))
        && printable (lookup payload (str "department")) = true ->
        exists u,
          v = Middleware.Next u
          /\ member u (str "role") = lookup payload (str "role")
          /\ member u (str "department") = lookup payload (str "department"))
    /\ (printable (member user (str "email"))
        && printable (lookup payload (str "department")) = false ->
        v = Middleware.Reply
              (Json 500 (obj [("error", text "Authentication failed")]))).
Proof.
  unfold Middleware.authenticate. destruct header as [[|c r]|].
  - intros [= <- _] [].
  - unfold Middleware.authenticate_try.
    destruct (Middleware.getUser idp _) as [e|[user authError]] eqn:G.
    { intros [= <- _] [H|[]]. discriminate H. }
    destruct (truthy authError || negb (truthy user)) eqn:T.
    { intros [= <- _] [H|[]]. discriminate H. }
    apply orb_false_elim in T as [Ta Tu]. apply negb_false_iff in Tu.
    destruct (Middleware.fetchProfile idp _) as [e|[profile profileError]].
    { intros [= <- _] [H|[H|[]]]; discriminate H. }
    destruct (Middleware.resolve_role _ _)
      as [e|[[finalRole userDepartment] aliased]] eqn:R.
    { intros [= <- _] [H|[H|[]]]; discriminate H. }
    rewrite log_line_value. intros Hv Hin.
    assert (calls
            = [Middleware.VerifyToken (Middleware.bearer_token (c :: r));
               Middleware.FetchProfile (member user (str "id"))]
              ++ (if Middleware.stale
                       (or_else (member user (str "user_metadata")) (JObj []))
                       finalRole userDepartment aliased
                  then
                    [Middleware.SyncMetadata (member user (str "id"))
                       (Middleware.synced
                          (or_else (member user (str "user_metadata")) (JObj []))
                          finalRole userDepartment)]
                  else [])) as Hcalls
        by (destruct (_ && _); now injection Hv as <- _).
    rewrite Hcalls in Hin.
    destruct (Middleware.stale _ _ _ _); cbn [app] in Hin.
    2: { destruct Hin as [H|[H|[]]]; discriminate H. }
    destruct Hin as [H|[H|[H|[]]]]; try discriminate H.
    assert (id = member user (str "id")
            /\ payload
               = Middleware.synced
                   (or_else (member user (str "user_metadata")) (JObj []))
                   finalRole userDepartment) as [-> ->]
        by (split; congruence).
    clear H.
    assert (lookup (Middleware.synced
                      (or_else (member user (str "user_metadata")) (JObj []))
                      finalRole userDepartment) (str "role") = JStr finalRole)
      as Lr by (unfold Middleware.synced; now rewrite !lookup_set_prop).
    assert (lookup (Middleware.synced
                      (or_else (member user (str "user_metadata")) (JObj []))
                      finalRole userDepartment) (str "department")
            = userDepartment)
      as Ld by (unfold Middleware.synced; rewrite !lookup_set_prop;
                now rewrite jeqb_refl).
    exists (c :: r), user, authError. rewrite Lr, Ld.
    split; [reflexivity|]. split; [exact G|]. split; [exact Ta|].
    split; [exact Tu|]. split; [reflexivity|]. split; [|split; [|split]].
    + apply resolve_role_range in R. destruct R as [->| ->]; auto.
    + intros k Hr Hd. unfold Middleware.synced. rewrite !lookup_set_prop.
      now rewrite Hr, Hd.
    + intros Hp. rewrite Hp in Hv. injection Hv as _ <-.
      eexists. split; [reflexivity|].
      now rewrite member_attached_role, member_attached_department.
    + intros Hp. rewrite Hp in Hv. now injection Hv as _ <-.
  - intros [= <- _] [].
Qed.

Lemma authenticate_sync_payload_witness :
  exists h user authError,
    Some (str "Bearer tok-1") = Some h
    /\ Middleware.getUser (Scenario.directory Scenario.resident Scenario.road_head)
         (Middleware.bearer_token h) = inr (user, authError)
    /\ truthy authError = false /\ truthy user = true
    /\ text "u-1" = member user (str "id")
    /\ (lookup [ (str "role", text "head_authority");
                 (str "department", text "road") ] (str "role") = text "citizen"
        \/ lookup [ (str "role", text "head_authority");
                    (str "department", text "road") ] (str "role")
           = text "head_authority")
    /\ (forall k,
          jeqb (str "role") k = false -> jeqb (str "department") k = false ->
          lookup [ (str "role", text "head_authority");
                   (str "department", text "road") ] k
          = lookup (Middleware.spread
                      (or_else (member user (str "user_metadata")) (JObj []))) k)
    /\ (printable (member user (str "email"))
        && printable (lookup [ (str "role", text "head_authority");
                               (str "department", text "road") ]
                        (str "department")) = true ->
        exists u,
          snd (Middleware.authenticate
                 (Scenario.directory Scenario.resident Scenario.road_head)
                 (Some (str "Bearer tok-1")))
          = Middleware.Next u
          /\ member u (str "role")
             = lookup [ (str "role", text "head_authority");
                        (str "department", text "road") ] (str "role")
          /\ member u (str "department")
             = lookup [ (str "role", text "head_authority");
                        (str "department", text "road") ] (str "department"))
    /\ (printable (member user (str "email"))
        && printable (lookup [ (str "role", text "head_authority");
                               (str "department", text "road") ]
                        (str "department")) = false ->
        snd (Middleware.authenticate
               (Scenario.directory Scenario.resident Scenario.road_head)
               (Some (str "Bearer tok-1")))
        = Middleware.Reply
            (Json 500 (obj [("error", text "Authentication failed")]))).
Proof.
  apply (authenticate_sync_payload
           (Scenario.directory Scenario.resident Scenario.road_head)
           (Some (str "Bearer tok-1"))
           (fst (Middleware.authenticate
                   (Scenario.directory Scenario.resident Scenario.road_head)
                   (Some (str "Bearer tok-1"))))
           _ (text "u-1")).
  - vm_compute. reflexivity.
  - vm_compute. right. right. left. reflexivity.
Defined.

(* ================================================================== *)
(** * The routes behind their guards *)
(* ================================================================== *)

(** [authenticate] answers with 401 or 500 when it does not hand the
    request on. *)
Lemma authenticate_reply (idp : Middleware.Identity) (header : option jstring)
  (calls : list Middleware.call) (r : response) :
  Middleware.authenticate idp header = (calls, Middleware.Reply r) ->
  exists code payload, r = Json code payload /\ (code = 401 \/ code = 500).
Proof.
  unfold Middleware.authenticate. destruct header as [[|c h]|].
  - intros [= _ <-]. eauto.
  - unfold Middleware.authenticate_try.
    destruct (Middleware.getUser idp _) as [e|[user authError]];
      [intros [= _ <-]; eauto|].
    destruct (truthy authError || negb (truthy user)); [intros [= _ <-]; eauto|].
    destruct (Middleware.fetchProfile idp _) as [e|[profile profileError]];
      [intros [= _ <-]; eauto|].
    destruct (Middleware.resolve_role _ _)
      as [e|[[finalRole userDepartment] aliased]];
      [intros [= _ <-]; eauto|].
    rewrite log_line_value.
    destruct (_ && _); [discriminate|intros [= _ <-]; eauto].
  - intros [= _ <-]. eauto.
Qed.

Lemma authorize_cases (allowedRoles : list string) (user : value) :
  (Middleware.authorize allowedRoles user = None
   /\ truthy user = true
   /\ Middleware.includes allowedRoles (member user (str "role")) = true)
  \/ exists payload, Middleware.authorize allowedRoles user = Some (Json 403 payload).
Proof.
  unfold Middleware.authorize. destruct (truthy user); cbn [negb orb]; [|eauto].
  destruct (Middleware.includes _ _); cbn [negb]; eauto.
Qed.

Lemma str_inj (a b : string) : str a = str b -> a = b.
Proof.
  revert b. induction a as [|c a IH]; intros [|d b] H; try discriminate H.
  - reflexivity.
  - cbn [str] in H. injection H as Hc Hr. f_equal; [|now apply IH].
    rewrite <- (ascii_N_embedding c), <- (ascii_N_embedding d). now rewrite Hc.
Qed.

Lemma includes_text (allowedRoles : list string) (r : string) :
  ~ In r allowedRoles -> Middleware.includes allowedRoles (text r) = false.
Proof.
  intros H. unfold Middleware.includes.
  destruct (existsb _ _) eqn:E; [|reflexivity].
  apply existsb_exists in E as (x & Hx & Ex). apply is_string_eq in Ex.
  unfold text in Ex. injection Ex as Ex. apply str_inj in Ex. now subst.
Qed.

(** X23: a guarded route does nothing for a caller it does not admit.
    On every route that has guards, either the identity provider
    verified the caller, the role attached is one the route allows, and
    the answer and the effects are the controller's for that user; or
    nothing was done (no classifier call, no store call, tables as
    before) and the answer is 401, 403 or 500. *)
Theorem serve_guarded (sv : Router.Service) (ep : Router.endpoint)
  (i : Router.inbound) (t : tables) (allowedRoles : list string) :
  let out := Router.serve sv ep i t in
  Router.guard ep = Some allowedRoles ->
  (exists user role,
     snd (Middleware.authenticate (Router.identity sv) (Router.authorization i))
     = Middleware.Next user
     /\ member user (str "role") = text role
     /\ In role allowedRoles
     /\ (Router.answer out, Router.final out)
        = Router.controller sv ep i user (start t))
  \/ (Router.final out = start t
      /\ exists code payload,
           Router.answer out = Json code payload
           /\ (code = 401 \/ code = 403 \/ code = 500)).
Proof.
  intros out G. subst out. unfold Router.serve. rewrite G.
  destruct (Middleware.authenticate _ _) as [calls [r|user]] eqn:A.
  - right. split; [reflexivity|].
    destruct (authenticate_reply _ _ _ _ A) as (code & payload & -> & [->| ->]);
      cbn [Router.answer]; eauto 6.
  - destruct (authorize_cases allowedRoles user) as [(E & _ & I)|[payload E]];
      rewrite E.
    + left. unfold Middleware.includes in I.
      apply existsb_exists in I as (role & Hin & Hr).
      apply is_string_eq in Hr.
      exists user, role. cbn [snd]. repeat split; auto.
      destruct (Router.controller _ _ _ _ _). reflexivity.
    + right. split; [reflexivity|]. cbn [Router.answer]. eauto 6.
Qed.

Lemma serve_guarded_witness :
  Router.final
    (Router.serve (Scenario.desk Scenario.resident Scenario.no_profile)
       (Router.Write DeleteOne) (Scenario.signed [] "i-1") Sample.one_issue)
  = start Sample.one_issue.
Proof.
  destruct (serve_guarded (Scenario.desk Scenario.resident Scenario.no_profile)
              (Router.Write DeleteOne) (Scenario.signed [] "i-1")
              Sample.one_issue ["head_authority"] eq_refl)
    as [(user & role & Hnext & Hrole & Hin & _)|[Hfinal _]].
  - exfalso. vm_compute in Hnext. injection Hnext as <-.
    destruct Hin as [<-|[]]. vm_compute in Hrole. discriminate Hrole.
  - exact Hfinal.
Defined.

(** X24: the wrong role is turned away by name. When the caller passed
    [authenticate] with a role that the route does not allow, the answer
    is 403 with the message that names that role, and nothing else is
    done: a citizen cannot change a status, reassign or delete, and a
    head authority cannot file a report or list own issues. *)
Theorem serve_wrong_role (sv : Router.Service) (ep : Router.endpoint)
  (i : Router.inbound) (t : tables) (allowedRoles : list string)
  (calls : list Middleware.call) (user : value) (role : string) :
  Router.guard ep = Some allowedRoles ->
  Middleware.authenticate (Router.identity sv) (Router.authorization i)
  = (calls, Middleware.Next user) ->
  member user (str "role") = text role ->
  ~ In role allowedRoles ->
  Router.serve sv ep i t
  = {| Router.answer :=
         Json 403
           (obj [("error",
                  JStr (str "Unauthorized: Role '" ++ str role
                        ++ str "' does not have access."))]);
       Router.final := start t;
       Router.asked := calls |}.
Proof.
  intros G A Hrole Hout. unfold Router.serve. rewrite G, A.
  unfold Middleware.authorize. rewrite Hrole, (includes_text _ _ Hout).
  rewrite orb_true_r.
  apply authenticate_next_inv in A.
  destruct A as (h & u & ae & profile & pe & fr & d & a & _ & _ & _ & _ & _
                 & _ & R & ->).
  rewrite member_attached_role in Hrole. unfold text in Hrole.
  injection Hrole as Hrole.
  apply resolve_role_range in R.
  unfold opt_member. cbn [Middleware.attached nullish].
  fold (Middleware.attached u profile fr d).
  rewrite member_attached_role, Hrole.
  assert (truthy (JStr (str role)) = true) as T
      by (rewrite <- Hrole; destruct R as [->| ->]; reflexivity).
  unfold or_else. rewrite T. reflexivity.
Qed.

Lemma serve_wrong_role_witness :
  Router.answer
    (Router.serve (Scenario.desk Scenario.resident Scenario.road_head)
       (Router.Write PostIssue)
       (Scenario.signed [("image_url", text "https://cdn.example/p.jpg")] "")
       Sample.empty)
  = Json 403
      (obj [("error",
             text "Unauthorized: Role 'head_authority' does not have access.")]).
Proof.
  rewrite (serve_wrong_role (Scenario.desk Scenario.resident Scenario.road_head)
             (Router.Write PostIssue)
             (Scenario.signed [("image_url", text "https://cdn.example/p.jpg")] "")
             Sample.empty ["citizen"]
             (fst (Middleware.authenticate
                     (Scenario.directory Scenario.resident Scenario.road_head)
                     (Some (str "Bearer tok-1"))))
             (match
                 snd (Middleware.authenticate
                        (Scenario.directory Scenario.resident Scenario.road_head)
                        (Some (str "Bearer tok-1")))
               with
               | Middleware.Next u => u
               | Middleware.Reply _ => JUndefined
               end)
             "head_authority").
  - reflexivity.
  - reflexivity.
  - vm_compute. reflexivity.
  - vm_compute. reflexivity.
  - vm_compute. intuition discriminate.
Defined.

(** X25: every report stored through [POST /issues] is the verified
    caller's. Any store call made while serving the route is the insert
    of a report, for a caller the identity provider verified and whose
    role resolved to [citizen]; the report's [citizen_id] is the id
    attached to that caller and its [status] is [reported]. *)
Theorem serve_report_is_callers (sv : Router.Service) (i : Router.inbound)
  (t : tables) (c : call) :
  In (Db c)
    (trace (Router.final (Router.serve sv (Router.Write PostIssue) i t))) ->
  exists calls user payload,
    Middleware.authenticate (Router.identity sv) (Router.authorization i)
    = (calls, Middleware.Next user)
    /\ member user (str "role") = text "citizen"
    /\ c = InsertIssue payload
    /\ lookup payload (str "citizen_id") = member user (str "id")
    /\ lookup payload (str "status") = text "reported".
Proof.
  unfold Router.serve. cbn [Router.guard].
  destruct (Middleware.authenticate _ _) as [calls [r|user]] eqn:A;
    [intros []|].
  destruct (authorize_cases ["citizen"] user) as [(E & Tu & I)|[payload E]];
    rewrite E; [|intros []].
  cbn [Router.controller handler].
  destruct (createIssue _ _ _) as [r s] eqn:C. cbn [Router.final].
  intros Hin.
  assert (In (Db c)
            (trace (snd (createIssue (Router.world sv)
                           {| user := user; body := Router.content i;
                              params_id := Router.path_id i |} (start t)))))
    as Hin' by (now rewrite C).
  apply createIssue_insert_only in Hin' as (R & ai & ->).
  apply reaches_classifier_session in R as [_ Hid]. cbn [IssueController.user] in Hid.
  exists calls, user. eexists. repeat split; try reflexivity.
  - unfold Middleware.includes in I. cbn [existsb] in I.
    rewrite orb_false_r in I. now apply is_string_eq.
  - exact Hid.
Qed.

Lemma serve_report_is_callers_witness :
  exists calls user payload,
    Middleware.authenticate (Scenario.directory Scenario.resident Scenario.no_profile)
      (Some (str "Bearer tok-1"))
    = (calls, Middleware.Next user)
    /\ member user (str "role") = text "citizen"
    /\ InsertIssue
         (Spec.payload_of Sample.office
            {| user :=
                 Middleware.attached Scenario.resident Scenario.no_profile
                   (str "citizen") JNull;
               body := body (Sample.report []);
               params_id := text "" |}
            (obj [("issue_type", text "pothole");
                  ("assigned_authority", text "road")]))
       = InsertIssue payload
    /\ lookup payload (str "citizen_id") = member user (str "id")
    /\ lookup payload (str "status") = text "reported".
Proof.
  apply (serve_report_is_callers
           (Scenario.desk Scenario.resident Scenario.no_profile)
           {| Router.authorization := Some (str "Bearer tok-1");
              Router.content := body (Sample.report []);
              Router.path_id := text "";
              Router.query_limit := JUndefined |}
           Sample.empty).
  vm_compute. right. left. reflexivity.
Defined.

(* ================================================================== *)
(** * Runs on sample requests *)
(* ================================================================== *)

Example classifyIssue_fenced_reply :
  Gemini.classifyIssue (Sample.answering Sample.fenced_reply)
    (text "https://cdn.example/p.jpg") (text "hole in the road")
  = inr (obj [("issue_type", text "pothole"); ("assigned_authority", text "road")]).
Proof. vm_compute. reflexivity. Qed.

Example classifyIssue_model_down :
  Gemini.classifyIssue Sample.failing
    (text "https://cdn.example/p.jpg") (text "hole in the road")
  = inr Gemini.fallback.
Proof. reflexivity. Qed.

Example classifyIssue_two_objects :
  Gemini.classifyIssue
    (Sample.answering (strq "{~issue_type~: ~garbage~} or {~issue_type~: ~other~}"))
    (text "https://cdn.example/p.jpg") (text "rubbish")
  = inr Gemini.fallback.
Proof. vm_compute. reflexivity. Qed.

Example parse_numbers :
  Json.parse (strq " [0, -12.5e3, 1E-2, ~a\u0041\n~, {~k~: null, ~k~: true}] ")
  = inr (JArr [ JNum (int 0); JNum {| mant := -125; expo := 2 |};
                JNum {| mant := 1; expo := -2 |};
                JStr (str "aA" ++ [10%N]);
                JObj [(str "k", JBool true)] ]).
Proof. vm_compute. reflexivity. Qed.

Example parse_tiny_number :
  Json.parse (strq "{~error~: 1e-400, ~n~: 12.5}")
  = inr (JObj [(str "error", JNum (int 0));
               (str "n", JNum {| mant := 125; expo := -1 |})])
  /\ String_ (JNum {| mant := 125; expo := -1 |}) = str "12.5".
Proof. split; vm_compute; reflexivity. Qed.

Example parse_rejects_trailing_comma :
  exists e, Json.parse (strq "{~a~: 1,}") = inl e.
Proof. vm_compute. eauto. Qed.

Example createIssue_without_session :
  createIssue Sample.office
    {| user := JUndefined; body := body (Sample.report []); params_id := JUndefined |}
    (start Sample.empty)
  = (Json 401 (obj [("error", text "User session invalid")]), start Sample.empty).
Proof. reflexivity. Qed.

Example createIssue_flag_only :
  exists row,
    issues (db (snd (createIssue Sample.office
                       (Sample.report [("is_manual_submission", JBool true)])
                       (start Sample.empty)))) = [row]
    /\ lookup row (str "department") = text "road"
    /\ member (lookup row (str "ai_analysis")) (str "is_manual") = JBool true.
Proof. eexists. vm_compute. repeat split; reflexivity. Qed.

Example updateStatus_log_refused :
  exists row after,
    updateStatus (Sample.world (Sample.answering Sample.pothole_reply) Sample.logless)
      (Sample.status_change "i-1" [("status", text "resolved")])
      (start Sample.one_issue)
    = (Json 200 (JObj row), after)
    /\ lookup row (str "status") = text "resolved"
    /\ lookup row (str "resolved_at") = JUndefined
    /\ issue_logs (db after) = []
    /\ List.length (filter Spec.is_log_write (trace after)) = 1.
Proof. eexists. eexists. vm_compute. repeat split; reflexivity. Qed.

Example updateStatus_unknown_issue :
  updateStatus Sample.office
    (Sample.status_change "i-2" [("status", text "resolved")])
    (start Sample.one_issue)
  = (Json 404 (obj [("error", text "Issue not found")]),
     {| db := Sample.one_issue; trace := [Db (SelectIssue (text "i-2"))] |}).
Proof. reflexivity. Qed.

Example reassignIssue_writes_both :
  exists row,
    issues (db (snd (reassignIssue Sample.office
                       (Sample.status_change "i-1"
                          [("assigned_authority", text "drainage")])
                       (start Sample.one_issue)))) = [row]
    /\ lookup row (str "assigned_authority") = text "drainage"
    /\ lookup row (str "department") = text "drainage"
    /\ lookup row (str "status") = text "reported".
Proof. eexists. vm_compute. repeat split; reflexivity. Qed.

Example createIssue_coordinate_without_number :
  createIssue Sample.office
    {| user := Sample.citizen;
       body := [ (str "image_url", text "https://cdn.example/p.jpg");
                 (str "description", text "hole in the road");
                 (str "location_lat", obj [("toString", JNum (int 1))]);
                 (str "location_lng", JNum {| mant := 7759; expo := -2 |}) ];
       params_id := JUndefined |}
    (start Sample.one_issue)
  = (Json 500
       (obj [("error", text "Failed to report issue");
             ("details", text "Cannot convert object to primitive value");
             ("hint", JUndefined);
             ("code", JUndefined)]),
     {| db := Sample.one_issue;
        trace := [ Classifier (text "https://cdn.example/p.jpg")
                     (text "hole in the road") ] |}).
Proof. vm_compute. reflexivity. Qed.

Example createIssue_flagged_skips_conversion :
  fst (createIssue Sample.office
         (Sample.report [ ("is_manual_submission", JBool true);
                          ("manual_department", obj [("toString", JNum (int 1))]) ])
         (start Sample.empty))
  = Json 201
      (JObj (stored Sample.healthy Sample.empty
               (Spec.payload_of Sample.office
                  (Sample.report
                     [ ("is_manual_submission", JBool true);
                       ("manual_department", obj [("toString", JNum (int 1))]) ])
                  (obj [("issue_type", text "pothole");
                        ("assigned_authority", text "road")])))).
Proof. vm_compute. reflexivity. Qed.

Example authenticate_department_without_text :
  Middleware.authenticate
    (Scenario.directory
       (obj [ ("id", text "u-1"); ("email", text "r@example.org");
              ("user_metadata",
               obj [("department", obj [("toString", JNum (int 1))])]) ])
       Scenario.no_profile)
    (Some (str "Bearer tok-1"))
  = ([ Middleware.VerifyToken (text "tok-1");
       Middleware.FetchProfile (text "u-1");
       Middleware.SyncMetadata (text "u-1")
         [ (str "department", obj [("toString", JNum (int 1))]);
           (str "role", text "citizen") ] ],
     Middleware.Reply (Json 500 (obj [("error", text "Authentication failed")]))).
Proof. vm_compute. reflexivity. Qed.

Example updateStatus_without_session :
  fst (updateStatus Sample.office
         {| user := JUndefined; body := [(str "status", text "resolved")];
            params_id := text "i-1" |}
         (start Sample.one_issue))
  = Json 500
      (obj [("error", text "Failed to update status");
            ("details",
             text "Cannot read properties of undefined (reading 'id')")]).
Proof. vm_compute. reflexivity. Qed.
